(** * Reinforcement drawing: a shallow embedding of
      [ReinforcementDrawing/ReinforcementDrawingfunc.py]

    The Python module projects rebar geometry on a view plane and composes
    an [xml.etree.ElementTree] document.  The embedding keeps the structure
    of the source:

    - Python floats are rationals ([Q]); [round] is Python 3's
      round-half-to-even and yields an integer ([Z]).  The sums and
      differences that the assembler keeps as running values (the offsets
      of the dimensions, the frame of the drawing) are rounded to the
      nearest double by [Py.double], as binary64 arithmetic rounds them;
      the other arithmetic of the module is exact.  Infinities and nans
      are not rationals: the [OverflowError] and [ValueError] that [round]
      raises for them are outside the embedding;
    - [ElementTree] elements are mutable objects that are shared between
      variables ([rebars_svg] contains [straight_rebars_svg], ...), so they
      live in an explicit store and are handled through references;
    - exceptions of the Python code ([ZeroDivisionError], [IndexError], ...)
      are results of an error monad layered over the store;
    - the CAD kernel (FreeCAD, Draft, Part) is an interface, [External]. *)

From Stdlib Require Import QArith Qabs Qround Qpower ZArith Ascii DecimalString.
From Stdlib Require Import Lqa.
From stdpp Require Import base option list strings relations.

Open Scope Z_scope.

(** ** Python numbers and their formatting *)

Module Py.

(** [round(x)] of a finite float, one argument: nearest integer, ties to
    even. *)
Definition round (q : Q) : Z :=
  let f := Qfloor q in
  match Qcompare (q - inject_Z f) (1 # 2) with
  | Lt => f
  | Gt => f + 1
  | Eq => if Z.even f then f else f + 1
  end.

(** [floor(log2(abs(q)))] of a rational other than 0. *)
Definition ilog2 (q : Q) : Z :=
  let k := Z.log2 (Z.abs (Qnum q)) - Z.log2 (Zpos (Qden q)) in
  if Qle_bool (2 ^ k) (Qabs q) then k else k - 1.

(** The exponent of the last place of the double nearest to [q]: 53
    binary digits, and no exponent below that of the subnormal numbers. *)
Definition ulp_exponent (q : Q) : Z := Z.max (ilog2 q - 52) (-1074).

(** The double nearest to a rational, ties to the even mantissa: what
    binary64 arithmetic returns for an operation whose exact result is
    [q].  Overflow to an infinity is not modelled. *)
Definition double (q : Q) : Q :=
  if Qeq_bool q 0 then 0%Q
  else
    let e := ulp_exponent q in
    (inject_Z (round (q / 2 ^ e)) * 2 ^ e)%Q.

(** [a + b] and [a - b] of two floats (or of a float and an [int] that
    is a double, like 50, 60, 100 and 200). *)
Definition add (a b : Q) : Q := double (a + b).
Definition sub (a b : Q) : Q := double (a - b).

(** [str(n)] and ["{}".format(n)] of an [int]. *)
Definition str_int (n : Z) : string := NilZero.string_of_int (Z.to_int n).

(** The values that reach a replacement field of [str.format] in the
    module: integers and, through [not flag_sweep], booleans. *)
Inductive value :=
| Int (n : Z)
| Bool (b : bool).

Definition format (v : value) : string :=
  match v with
  | Int n => str_int n
  | Bool true => "True"
  | Bool false => "False"
  end.

(** [int(b)] of a comparison result. *)
Definition int_of_bool (b : bool) : Z := if b then 1 else 0.

(** [not n] of an integer is a [bool]. *)
Definition not_int (n : Z) : bool := Z.eqb n 0.

Definition abs (q : Q) : Q := Qabs q.
Definition lt (a b : Q) : bool := negb (Qle_bool b a).
Definition gt (a b : Q) : bool := lt b a.
Definition eq (a b : Q) : bool := Qeq_bool a b.
Definition min (a b : Q) : Q := if lt b a then b else a.
Definition max (a b : Q) : Q := if lt a b then b else a.

(** Exceptions the module can raise. *)
Inductive exn :=
| ZeroDivisionError
| IndexError
| UnboundLocalError
| ParseError.

End Py.

(** ** Results and the store monad *)

Inductive result (A : Type) : Type :=
| Ok (a : A)
| Raise (e : Py.exn).
Arguments Ok {A} a.
Arguments Raise {A} e.

(** ** [xml.etree.ElementTree]: elements in a store *)

Module ElementTree.

(** References are positions in the store. *)
Abbreviation ref := nat.

(** The attributes of an element: a dictionary, in insertion order. *)
Definition Attrib := list (string * string).

Fixpoint attr_get (k : string) (a : Attrib) : option string :=
  match a with
  | [] => None
  | (k', v) :: a' => if String.eqb k k' then Some v else attr_get k a'
  end.

Fixpoint attr_set (k v : string) (a : Attrib) : Attrib :=
  match a with
  | [] => [(k, v)]
  | (k', v') :: a' =>
      if String.eqb k k' then (k, v) :: a' else (k', v') :: attr_set k v a'
  end.

Record Node := mkNode {
  tag : string;
  attrib : Attrib;
  text : option string;
  children : list ref
}.

Abbreviation Store := (list Node).

(** An immutable XML tree, what [fromstring] parses. *)
#[warnings="-register-all"]
Inductive XML :=
| XElem (t : string) (a : Attrib) (s : option string)
        (cs : list XML).

Definition M (A : Type) : Type := Store -> result (A * Store).

Definition ret {A} (a : A) : M A := fun σ => Ok (a, σ).

Definition bind {A B} (m : M A) (k : A -> M B) : M B :=
  fun σ =>
    match m σ with
    | Ok (a, σ') => k a σ'
    | Raise e => Raise e
    end.

Definition raise {A} (e : Py.exn) : M A := fun _ => Raise e.

(** A pure computation that may raise. *)
Definition lift {A} (r : result A) : M A :=
  fun σ => match r with Ok a => Ok (a, σ) | Raise e => Raise e end.

(** Reading the store. *)
Definition read {A} (f : Store -> A) : M A := fun σ => Ok (f σ, σ).

(** [ElementTree.Element(tag, attrib)]: a fresh element without children. *)
Definition Element (t : string) (a : Attrib) : M ref :=
  fun σ => Ok (length σ, σ ++ [mkNode t a None []]).

Definition add_child (c : ref) (n : Node) : Node :=
  mkNode (tag n) (attrib n) (text n) (children n ++ [c]).

Definition set_attrib (k v : string) (n : Node) : Node :=
  mkNode (tag n) (attr_set k v (attrib n)) (text n) (children n).

(** [parent.append(child)] *)
Definition append (p c : ref) : M unit :=
  fun σ => Ok (tt, alter (add_child c) p σ).

(** [element.set(key, value)] *)
Definition set (r : ref) (k v : string) : M unit :=
  fun σ => Ok (tt, alter (set_attrib k v) r σ).

(** All elements strictly below [r], in document order: what the path
    [.//] ranges over.  The fuel bounds the depth of the walk. *)
Fixpoint iter (fuel : nat) (σ : Store) (r : ref) : list ref :=
  match fuel with
  | O => []
  | S fuel' =>
      match σ !! r with
      | None => []
      | Some n =>
          flat_map (fun c => c :: iter fuel' σ c) (children n)
      end
  end.

(** The predicate [tag[@k1="v1"][@k2="v2"]...] on one element. *)
Definition matches (σ : Store) (t : string)
    (preds : list (string * string)) (r : ref) : bool :=
  match σ !! r with
  | None => false
  | Some n =>
      bool_decide (tag n = t)
      && forallb (fun kv => bool_decide (attr_get kv.1 (attrib n) = Some kv.2)) preds
  end.

(** [svg.find('.//tag[@k="v"]...')]: the first match in document order. *)
Definition find_in (σ : Store) (r : ref) (t : string)
    (preds : list (string * string)) : option ref :=
  List.find (matches σ t preds) (iter (length σ) σ r).

Definition find (r : ref) (t : string) (preds : list (string * string))
    : M (option ref) :=
  read (fun σ => find_in σ r t preds).

(** A fresh element with the given content. *)
Definition new_node (n : Node) : M ref :=
  fun σ => Ok (length σ, σ ++ [n]).

(** Run the builders of the children in order and append each result. *)
Fixpoint append_all (r : ref) (ms : list (M ref)) : M unit :=
  match ms with
  | [] => ret tt
  | m :: ms' =>
      bind m (fun rc => bind (append r rc) (fun _ => append_all r ms'))
  end.

(** Building the elements of a parsed tree, parent first. *)
Fixpoint build (x : XML) : M ref :=
  match x with
  | XElem t a s cs =>
      bind (new_node (mkNode t a s []))
        (fun r => bind (append_all r (map build cs)) (fun _ => ret r))
  end.

(** The tree below a reference, for reading results. *)
Fixpoint to_xml (fuel : nat) (σ : Store) (r : ref) : option XML :=
  match fuel with
  | O => None
  | S fuel' =>
      n ← σ !! r;
      cs ← mapM (to_xml fuel' σ) (children n);
      Some (XElem (tag n) (attrib n) (text n) cs)
  end.

End ElementTree.

Import ElementTree.

Notation "'let*' x ':=' m 'in' k" := (ElementTree.bind m (fun x => k))
  (at level 10, x name, m at level 100, k at level 200, only parsing).
Notation "'let*' ' p ':=' m 'in' k" := (ElementTree.bind m (fun p => k))
  (at level 10, p strict pattern, m at level 100, k at level 200,
   only parsing).
Notation "'do' m 'in' k" := (ElementTree.bind m (fun _ => k))
  (at level 10, m at level 100, k at level 200, only parsing).

Fixpoint for_each {A S : Type} (l : list A) (body : A -> S -> M S) (s : S)
    : M S :=
  match l with
  | [] => ElementTree.ret s
  | a :: l' => let* s' := body a s in for_each l' body s'
  end.

(** ** The CAD kernel's data *)

Module FreeCAD.

Record Vector := mkVector { x : Q; y : Q; z : Q }.

Definition cross (a b : Vector) : Vector :=
  mkVector (y a * z b - z a * y b)
           (z a * x b - x a * z b)
           (x a * y b - y a * x b).

Definition negative (a : Vector) : Vector :=
  mkVector (- x a) (- y a) (- z a).

(** [a == b] on vectors compares the coordinates. *)
Definition eqb (a b : Vector) : bool :=
  Py.eq (x a) (x b) && Py.eq (y a) (y b) && Py.eq (z a) (z b).

Record Rotation := mkRotation { q0 : Q; q1 : Q; q2 : Q; q3 : Q }.

Record Placement := mkPlacement { Base : Vector; Rotation_ : Rotation }.

Record BoundBox := mkBoundBox {
  XMin : Q; YMin : Q; ZMin : Q; XMax : Q; YMax : Q; ZMax : Q
}.

End FreeCAD.

Abbreviation Vector := FreeCAD.Vector.
Abbreviation Vec := FreeCAD.mkVector.

Module Edge.
Record t := mk {
  geomType : string;           (* DraftGeomUtils.geomType(edge) *)
  Vertexes : list Vector;      (* the Point of each vertex *)
  FirstParameter : Q;
  LastParameter : Q;
  tangentAt : Q -> Vector
}.
End Edge.

Module Wire.
Record t := mk {
  Edges : list Edge.t;
  Vertexes : list Vector;
  Placement : FreeCAD.Placement
}.
End Wire.

Module Shape.
Record t := mk { Wires : list Wire.t }.
End Shape.

Module BaseObject.
Record t := mk {
  DraftType : string;          (* Draft.getType(obj) *)
  Shape : Shape.t;
  Placement : FreeCAD.Placement
}.
End BaseObject.

Module Rebar.
Record t := mk {
  Name : string;
  RebarShape : string;
  Base : BaseObject.t;
  Shape : Shape.t;
  Direction : option Vector;   (* None: the object has no such attribute *)
  Rounding : Q;
  Diameter : Q;                (* rebar.Diameter.Value *)
  Amount : Z;
  PlacementList : list FreeCAD.Placement
}.
End Rebar.

Module Structure.
Record t := mk { Name : string; Shape : Shape.t }.
End Structure.

Module WorkingPlane.

Record Plane := mkPlane {
  position : Vector;
  u : Vector;
  v : Vector;
  axis : Vector
}.

(** [WorkingPlane.plane()] *)
Definition plane : Plane :=
  mkPlane (Vec 0 0 0) (Vec 1 0 0) (Vec 0 1 0) (Vec 0 0 1).

Definition set_axis (a : Vector) (p : Plane) : Plane :=
  mkPlane (position p) (u p) (v p) a.
Definition set_v (a : Vector) (p : Plane) : Plane :=
  mkPlane (position p) (u p) a (axis p).
Definition set_u (a : Vector) (p : Plane) : Plane :=
  mkPlane (position p) a (v p) (axis p).

End WorkingPlane.

Abbreviation Plane := WorkingPlane.Plane.

(** What [Draft.getSVG] is asked to draw. *)
Inductive DocumentObject :=
| RebarObject (r : Rebar.t)
| StructureObject (s : Structure.t).

(** ** The interface of the collaborators

    The operations of FreeCAD, Draft, DraftGeomUtils, DraftVecUtils, Part and
    WorkingPlane that the module calls, the float formatting of Python, the
    XML parser, and the constant of [config.py]. *)

Class External := {
  Vector_Length : Vector -> Q;
  Vector_getAngle : Vector -> Vector -> Q;
  Vector_normalize : Vector -> Vector;
  Rotation_multVec : FreeCAD.Rotation -> Vector -> Vector;
  Placement_multiply :
    FreeCAD.Placement -> FreeCAD.Placement -> FreeCAD.Placement;
  Wire_setPlacement : Wire.t -> FreeCAD.Placement -> Wire.t;
  Compound_BoundBox : list Shape.t -> FreeCAD.BoundBox;
  BoundBox_getPoint : FreeCAD.BoundBox -> Z -> Vector;
  Part_sortEdges : list Edge.t -> list Edge.t;
  DraftVecUtils_project : Vector -> Vector -> Vector;
  DraftVecUtils_angle : Vector -> Vector -> Vector -> Q;
  DraftVecUtils_isNull : Vector -> bool;
  DraftGeomUtils_getNormal : Shape.t -> Vector;
  DraftGeomUtils_filletWire : Wire.t -> Q -> Wire.t;
  Draft_getSVG : DocumentObject -> Plane -> string;
  plane_alignToPointAndAxis : Plane -> Vector -> Vector -> Q -> Plane;
  ElementTree_fromstring : string -> option XML;
  float_str : Q -> string;           (* str(x) and "{}".format(x) of a float *)
  quantity_str : Q -> string;        (* "{}".format(rebar.Diameter) *)
  SVG_POINT_DIA_FACTOR : Q
}.

(** Python's [a / b] on floats. *)
Definition py_div (a b : Q) : result Q :=
  if Py.eq b 0 then Raise Py.ZeroDivisionError else Ok (a / b)%Q.

(** [l[i]] *)
Definition py_index {A} (l : list A) (i : nat) : result A :=
  match l !! i with
  | Some a => Ok a
  | None => Raise Py.IndexError
  end.

(** ** [SVGfunc]: the SVG primitives *)

Section SVGfunc.
Context `{E : External}.

Definition rounded (c : Q) : string := Py.str_int (Py.round c).

(** Modelled from the spec: [SVGfunc.getSVGRootElement] is not among the
    sources; the root [<svg>] element of the document. *)
Definition getSVGRootElement : M ref := Element "svg" [].

(** Modelled from the spec: [SVGfunc.getPointSVG] is not among the
    sources; a point marker, a [<circle>] at the integer-rounded
    coordinates with the given radius. *)
Definition getPointSVG (point : Vector) (radius : Q) : M ref :=
  Element "circle"
    [("cx", rounded (FreeCAD.x point)); ("cy", rounded (FreeCAD.y point)); ("r", float_str radius)].

(** Modelled from the spec: [SVGfunc.isPointInSVG] is not among the
    sources; whether an equivalent point marker exists below [svg]. *)
Definition isPointInSVG (point : Vector) (svg : ref) : M bool :=
  let* found := find svg "circle"
             [("cx", rounded (FreeCAD.x point));
              ("cy", rounded (FreeCAD.y point))] in
  ElementTree.ret (bool_decide (is_Some found)).

(** Modelled from the spec: [SVGfunc.getLineSVG] is not among the sources;
    a line segment between the integer-rounded end points. *)
Definition getLineSVG (p1 p2 : Vector) : M ref :=
  Element "line"
    [("x1", rounded (FreeCAD.x p1)); ("y1", rounded (FreeCAD.y p1)); ("x2", rounded (FreeCAD.x p2)); ("y2", rounded (FreeCAD.y p2)); ("style", "stroke:#000000")].

(** Modelled from the spec: [SVGfunc.isLineInSVG] is not among the
    sources; whether an equivalent line exists below [svg], in either
    order of the end points. *)
Definition isLineInSVG (p1 p2 : Vector) (svg : ref) : M bool :=
  let* found := find svg "line"
             [("x1", rounded (FreeCAD.x p1));
              ("y1", rounded (FreeCAD.y p1));
              ("x2", rounded (FreeCAD.x p2));
              ("y2", rounded (FreeCAD.y p2))] in
  if bool_decide (is_Some found) then ElementTree.ret true
  else
    let* found := find svg "line"
               [("x1", rounded (FreeCAD.x p2));
                ("y1", rounded (FreeCAD.y p2));
                ("x2", rounded (FreeCAD.x p1));
                ("y2", rounded (FreeCAD.y p1))] in
    if bool_decide (is_Some found) then ElementTree.ret true
    else ElementTree.ret false.

(** Modelled from the spec: [SVGfunc.getSVGTextElement] is not among the
    sources; a [<text>] label at an offset. *)
Definition getSVGTextElement (data : string) (x_offset y_offset : Q)
    (font_family font_size text_anchor dominant_baseline : string)
    : M ref :=
  fun σ =>
    Ok (length σ,
        σ ++ [mkNode "text"
                [("x", float_str x_offset); ("y", float_str y_offset); ("font-family", font_family); ("font-size", font_size); ("text-anchor", text_anchor); ("dominant-baseline", dominant_baseline)]
                (Some data) []]).

(** Modelled from the spec: [SVGfunc.getSVGPathElement] is not among the
    sources; a [<path>] with its [d], start marker and style. *)
Definition getSVGPathElement (d marker_start style : string) : M ref :=
  Element "path"
    [("d", d); ("marker-start", marker_start); ("style", style)].

(** Modelled from the spec: [SVGfunc.getArrowMarkerElement] is not among
    the sources; an arrow [<marker>] definition. *)
Definition getArrowMarkerElement (id orient : string) : M ref :=
  Element "marker" [("id", id); ("orient", orient)].

End SVGfunc.

(** ** [ReinforcementDrawingfunc] *)

Section ReinforcementDrawingfunc.
Context `{E : External}.

(** [getRebarsSpanAxis(rebar)] *)
Definition getRebarsSpanAxis (rebar : Rebar.t) : Vector :=
  let axis :=
    if String.eqb (BaseObject.DraftType (Rebar.Base rebar)) "Wire" then
      DraftGeomUtils_getNormal (BaseObject.Shape (Rebar.Base rebar))
    else
      Rotation_multVec
        (FreeCAD.Rotation_ (BaseObject.Placement (Rebar.Base rebar)))
        (Vec 0 0 (-1))
  in
  match Rebar.Direction rebar with
  | Some direction =>
      if negb (DraftVecUtils_isNull direction) then
        Vector_normalize direction
      else axis
  | None => axis
  end.

Definition dquote : string := String "034"%char "".
Definition newline : string := String "010"%char "".

Definition invalid_view_message : string :=
  "Invalid/Unsupported view. Valid views are: "
  +:+ dquote +:+ "Front" +:+ dquote +:+ ", "
  +:+ dquote +:+ "Rear" +:+ dquote +:+ ", "
  +:+ dquote +:+ "Left" +:+ dquote +:+ ", "
  +:+ dquote +:+ "Right" +:+ dquote +:+ " "
  +:+ dquote +:+ "Top" +:+ dquote +:+ " and "
  +:+ dquote +:+ "Bottom" +:+ dquote +:+ "." +:+ newline.

(** [getViewPlane(view)]: the plane, or [None], and what was printed with
    [FreeCAD.Console.PrintError]. *)
Definition getViewPlane (view : string) : option Plane * list string :=
  let make (axis v u : Vector) : option Plane * list string :=
    (Some (WorkingPlane.set_u u
             (WorkingPlane.set_v v
                (WorkingPlane.set_axis axis WorkingPlane.plane))), [])
  in
  if String.eqb view "Front" then
    make (Vec 0 (-1) 0) (Vec 0 0 (-1)) (Vec 1 0 0)
  else if String.eqb view "Rear" then
    make (Vec 0 1 0) (Vec 0 0 (-1)) (Vec (-1) 0 0)
  else if String.eqb view "Left" then
    make (Vec (-1) 0 0) (Vec 0 0 (-1)) (Vec 0 (-1) 0)
  else if String.eqb view "Right" then
    make (Vec 1 0 0) (Vec 0 0 (-1)) (Vec 0 1 0)
  else if String.eqb view "Top" then
    make (Vec 0 0 1) (Vec 0 (-1) 0) (Vec 1 0 0)
  else if String.eqb view "Bottom" then
    make (Vec 0 0 (-1)) (Vec 0 1 0) (Vec 1 0 0)
  else
    (None, [invalid_view_message]).

(** [getProjectionToSVGPlane(vec, plane)] *)
Definition getProjectionToSVGPlane (vec : Vector) (plane : Plane)
    : Vector :=
  let nx := DraftVecUtils_project vec (WorkingPlane.u plane) in
  let lx := Vector_Length nx in
  let lx :=
    if Py.gt (Py.abs (Vector_getAngle nx (WorkingPlane.u plane))) (1 # 10)
    then (- lx)%Q else lx in
  let ny := DraftVecUtils_project vec (WorkingPlane.v plane) in
  let ly := Vector_Length ny in
  let ly :=
    if Py.gt (Py.abs (Vector_getAngle ny (WorkingPlane.v plane))) (1 # 10)
    then (- ly)%Q else ly in
  Vec lx ly 0.

(** [getLineDimensionsData(...)]: the dimension group and
    [dimension_line_horizontal]. *)
Definition getLineDimensionsData (p1 p2 : Vector) (dimension_text : string)
    (h_dim_x h_dim_y v_dim_x v_dim_y : Q) : M (ref * bool) :=
  let* dimension := Element "g" [] in
  if Py.lt (Py.abs (FreeCAD.y p2 - FreeCAD.y p1))
           (Py.abs (FreeCAD.x p2 - FreeCAD.x p1)) then
    let x_cord := v_dim_x in
    let* quot := lift (py_div ((x_cord - FreeCAD.x p1)
                          * (FreeCAD.y p2 - FreeCAD.y p1))
                         (FreeCAD.x p2 - FreeCAD.x p1)) in
    let y_cord := (quot + FreeCAD.y p1)%Q in
    let* dimension_line :=
      getSVGPathElement
        ("M" +:+ float_str x_cord +:+ " " +:+ float_str y_cord
         +:+ " V" +:+ float_str v_dim_y)
        "url(#start_arrow)" "stroke:#000000" in
    let* dimension_label :=
      getSVGTextElement dimension_text v_dim_x v_dim_y
        "DejaVu Sans" "10px" "middle" "baseline" in
    do append dimension dimension_line in
    do append dimension dimension_label in
    ElementTree.ret (dimension, false)
  else
    let y_cord := h_dim_y in
    let* quot := lift (py_div ((y_cord - FreeCAD.y p1)
                          * (FreeCAD.x p2 - FreeCAD.x p1))
                         (FreeCAD.y p2 - FreeCAD.y p1)) in
    let x_cord := (quot + FreeCAD.x p1)%Q in
    let* dimension_line :=
      getSVGPathElement
        ("M" +:+ float_str x_cord +:+ " " +:+ float_str y_cord
         +:+ " H" +:+ float_str h_dim_x)
        "url(#start_arrow)" "stroke:#000000" in
    let* dimension_label :=
      getSVGTextElement dimension_text h_dim_x h_dim_y
        "DejaVu Sans" "10px" "start" "central" in
    do append dimension dimension_line in
    do append dimension dimension_label in
    ElementTree.ret (dimension, true).

(** The format string
    ["M{x1} {y1} A{radius} {radius} 0 0 {flag_sweep} {x2} {y2}"]. *)
Definition round_corner_d (x1 y1 radius : Z) (flag_sweep : Py.value)
    (x2 y2 : Z) : string :=
  "M" +:+ Py.str_int x1 +:+ " " +:+ Py.str_int y1
  +:+ " A" +:+ Py.str_int radius +:+ " " +:+ Py.str_int radius
  +:+ " 0 0 " +:+ Py.format flag_sweep
  +:+ " " +:+ Py.str_int x2 +:+ " " +:+ Py.str_int y2.

(** [int(DraftVecUtils.angle(t1, t2, view_plane.axis) < 0)] with the two
    tangents taken as in the source. *)
Definition sweep_flag (edge : Edge.t) (view_plane : Plane) : Z :=
  let t1 := Edge.tangentAt edge (Edge.FirstParameter edge) in
  let t2 :=
    Edge.tangentAt edge
      (Edge.FirstParameter edge
       + (Edge.LastParameter edge - Edge.FirstParameter edge) / 10)%Q in
  Py.int_of_bool
    (Py.lt (DraftVecUtils_angle t1 t2 (WorkingPlane.axis view_plane)) 0).

(** [getRoundCornerSVG(edge, radius, view_plane)] *)
Definition getRoundCornerSVG (edge : Edge.t) (radius : Q)
    (view_plane : Plane) : M ref :=
  let* v0 := lift (py_index (Edge.Vertexes edge) 0) in
  let p1 := getProjectionToSVGPlane v0 view_plane in
  let* v1 := lift (py_index (Edge.Vertexes edge) 1) in
  let p2 := getProjectionToSVGPlane v1 view_plane in
  let flag_sweep := sweep_flag edge view_plane in
  let* svg := Element "path" [] in
  do ElementTree.set svg "style" "stroke:#000000;fill:none" in
  do ElementTree.set svg "d"
    (round_corner_d (Py.round (FreeCAD.x p1)) (Py.round (FreeCAD.y p1))
       (Py.round radius) (Py.Int flag_sweep)
       (Py.round (FreeCAD.x p2)) (Py.round (FreeCAD.y p2))) in
  ElementTree.ret svg.

(** [isRoundCornerInSVG(edge, radius, view_plane, svg)] *)
Definition isRoundCornerInSVG (edge : Edge.t) (radius : Q)
    (view_plane : Plane) (svg : ref) : M bool :=
  let* v0 := lift (py_index (Edge.Vertexes edge) 0) in
  let p1 := getProjectionToSVGPlane v0 view_plane in
  let* v1 := lift (py_index (Edge.Vertexes edge) 1) in
  let p2 := getProjectionToSVGPlane v1 view_plane in
  let flag_sweep := sweep_flag edge view_plane in
  let* found := find svg "path"
             [("d", round_corner_d
                      (Py.round (FreeCAD.x p1)) (Py.round (FreeCAD.y p1))
                      (Py.round radius) (Py.Int flag_sweep)
                      (Py.round (FreeCAD.x p2)) (Py.round (FreeCAD.y p2)))] in
  if bool_decide (is_Some found) then ElementTree.ret true
  else
    let* found := find svg "path"
               [("d", round_corner_d
                        (Py.round (FreeCAD.x p2)) (Py.round (FreeCAD.y p2))
                        (Py.round radius)
                        (Py.Bool (Py.not_int flag_sweep))
                        (Py.round (FreeCAD.x p1)) (Py.round (FreeCAD.y p1)))] in
    if bool_decide (is_Some found) then ElementTree.ret true
    else ElementTree.ret false.

(** [getStirrupSVGPoints(stirrup_wire, stirrup_alignment, view_plane)] *)
Definition getStirrupSVGPoints (stirrup_wire : Wire.t)
    (stirrup_alignment : string) (view_plane : Plane)
    : result (Vector * Vector) :=
  match py_index (Wire.Vertexes stirrup_wire) 0 with
  | Raise e => Raise e
  | Ok vertex0 =>
      let first_point := getProjectionToSVGPlane vertex0 view_plane in
      let '(min_x, min_y, max_x, max_y) :=
        foldl
          (fun '(min_x, min_y, max_x, max_y) vertex =>
             let point := getProjectionToSVGPlane vertex view_plane in
             (Py.min min_x (FreeCAD.x point),
              Py.min min_y (FreeCAD.y point),
              Py.max max_x (FreeCAD.x point),
              Py.max max_y (FreeCAD.y point)))
          (FreeCAD.x first_point, FreeCAD.y first_point,
           FreeCAD.x first_point, FreeCAD.y first_point)
          (drop 1 (Wire.Vertexes stirrup_wire)) in
      if String.eqb stirrup_alignment "V" then
        let x_cord := ((min_x + max_x) / 2)%Q in
        Ok (Vec x_cord min_y 0, Vec x_cord max_y 0)
      else
        let y_cord := ((min_y + max_y) / 2)%Q in
        Ok (Vec min_x y_cord 0, Vec max_x y_cord 0)
  end.

(** [b or not test()], with Python's short-circuit evaluation. *)
Definition or_not (b : bool) (test : M bool) : M bool :=
  if b then ElementTree.ret true
  else let* found := test in ElementTree.ret (negb found).

Definition same_rounded (a b : Q) : bool := Z.eqb (Py.round a) (Py.round b).

(** [round(drawing_plane_normal.cross(span_axis).Length) == 0] *)
Definition face_on (rebar : Rebar.t) (view_plane : Plane) : bool :=
  let drawing_plane_normal := WorkingPlane.axis view_plane in
  Z.eqb
    (Py.round
       (Vector_Length
          (FreeCAD.cross drawing_plane_normal (getRebarsSpanAxis rebar))))
    0.

(** [Part.__sortEdges__(DraftGeomUtils.filletWire(wire, r * d).Edges)] *)
Definition sorted_fillet_edges (wire : Wire.t) (rebar : Rebar.t)
    : list Edge.t :=
  Part_sortEdges
    (Wire.Edges
       (DraftGeomUtils_filletWire wire
          (Rebar.Rounding rebar * Rebar.Diameter rebar)%Q)).

(** [wire = basewire.copy();
     wire.Placement = placement.multiply(basewire.Placement)] *)
Definition placed_wire (basewire : Wire.t) (placement : FreeCAD.Placement)
    : Wire.t :=
  Wire_setPlacement basewire
    (Placement_multiply placement (Wire.Placement basewire)).

(** The two projected end points of an edge. *)
Definition edge_points (edge : Edge.t) (view_plane : Plane)
    : result (Vector * Vector) :=
  match py_index (Edge.Vertexes edge) 0 with
  | Raise e => Raise e
  | Ok v0 =>
      match py_index (Edge.Vertexes edge) 1 with
      | Raise e => Raise e
      | Ok v1 =>
          Ok (getProjectionToSVGPlane v0 view_plane,
              getProjectionToSVGPlane v1 view_plane)
      end
  end.

(** Body of the loop over the edges of a stirrup seen face-on
    (source lines 298-317). *)
Definition stirrup_edge (rebar : Rebar.t) (view_plane : Plane)
    (rebars_svg stirrup_svg : ref) (edge : Edge.t)
    (is_rebar_visible : bool) : M bool :=
  if String.eqb (Edge.geomType edge) "Line" then
    let* '(p1, p2) := lift (edge_points edge view_plane) in
    let* edge_svg := getLineSVG p1 p2 in
    let* cond := or_not is_rebar_visible (isLineInSVG p1 p2 rebars_svg) in
    if cond then
      do append stirrup_svg edge_svg in
      ElementTree.ret true
    else ElementTree.ret is_rebar_visible
  else if String.eqb (Edge.geomType edge) "Circle" then
    let* edge_svg :=
      getRoundCornerSVG edge
        (Rebar.Rounding rebar * Rebar.Diameter rebar)%Q view_plane in
    let* cond :=
      or_not is_rebar_visible
        (isRoundCornerInSVG edge
           (Rebar.Rounding rebar * Rebar.Diameter rebar)%Q
           view_plane rebars_svg) in
    if cond then
      do append stirrup_svg edge_svg in
      ElementTree.ret true
    else ElementTree.ret is_rebar_visible
  else ElementTree.ret is_rebar_visible.

(** Body of the loop over the placements of a stirrup seen from the side
    (source lines 327-335). *)
Definition stirrup_placement (basewire : Wire.t)
    (stirrup_alignment : string) (view_plane : Plane)
    (rebars_svg stirrup_svg : ref) (placement : FreeCAD.Placement)
    (is_rebar_visible : bool) : M bool :=
  let wire := placed_wire basewire placement in
  let* '(p1, p2) :=
    lift (getStirrupSVGPoints wire stirrup_alignment view_plane) in
  let* rebar_svg := getLineSVG p1 p2 in
  let* found := isLineInSVG p1 p2 rebars_svg in
  let is_rebar_visible := if negb found then true else is_rebar_visible in
  if is_rebar_visible then
    do append stirrup_svg rebar_svg in
    ElementTree.ret is_rebar_visible
  else ElementTree.ret is_rebar_visible.

(** [getStirrupSVGData(rebar, view_plane, rebars_svg)]: the pair of
    ["svg"] and ["visibility"]. *)
Definition getStirrupSVGData (rebar : Rebar.t) (view_plane : Plane)
    (rebars_svg : ref) : M (ref * bool) :=
  let* stirrup_svg := Element "g" [("id", Rebar.Name rebar)] in
  let is_rebar_visible := false in
  let stirrup_span_axis := getRebarsSpanAxis rebar in
  if face_on rebar view_plane then
    let* wire0 :=
      lift (py_index (Shape.Wires (BaseObject.Shape (Rebar.Base rebar))) 0) in
    let edges := sorted_fillet_edges wire0 rebar in
    let* is_rebar_visible :=
      for_each edges
        (stirrup_edge rebar view_plane rebars_svg stirrup_svg)
        is_rebar_visible in
    ElementTree.ret (stirrup_svg, is_rebar_visible)
  else
    let stirrup_alignment :=
      if Z.eqb
           (Py.round
              (Vector_Length
                 (FreeCAD.cross stirrup_span_axis
                    (WorkingPlane.u view_plane)))) 0
      then "V" else "H" in
    let* wire0 :=
      lift (py_index (Shape.Wires (BaseObject.Shape (Rebar.Base rebar))) 0) in
    let basewire :=
      DraftGeomUtils_filletWire wire0
        (Rebar.Rounding rebar * Rebar.Diameter rebar)%Q in
    let* is_rebar_visible :=
      for_each (Rebar.PlacementList rebar)
        (stirrup_placement basewire stirrup_alignment view_plane
           rebars_svg stirrup_svg)
        is_rebar_visible in
    ElementTree.ret (stirrup_svg, is_rebar_visible).

(** The [Circle] case of both loops of the U-shape builder
    (source lines 378-397 and 431-456). *)
Definition ushape_circle_edge (rebar : Rebar.t) (view_plane : Plane)
    (rebars_svg u_rebar_svg : ref) (edge : Edge.t)
    (is_rebar_visible : bool) : M bool :=
  let* '(p1, p2) := lift (edge_points edge view_plane) in
  let* '(edge_svg, is_rebar_visible) :=
    (if same_rounded (FreeCAD.x p1) (FreeCAD.x p2)
        || same_rounded (FreeCAD.y p1) (FreeCAD.y p2)
     then
       let* edge_svg := getLineSVG p1 p2 in
       let* found := isLineInSVG p1 p2 rebars_svg in
       ElementTree.ret
         (edge_svg, if negb found then true else is_rebar_visible)
     else
       let* edge_svg :=
         getRoundCornerSVG edge
           (Rebar.Rounding rebar * Rebar.Diameter rebar)%Q view_plane in
       let* found :=
         isRoundCornerInSVG edge
           (Rebar.Rounding rebar * Rebar.Diameter rebar)%Q
           view_plane rebars_svg in
       ElementTree.ret
         (edge_svg, if negb found then true else is_rebar_visible)) in
  if is_rebar_visible then
    do append u_rebar_svg edge_svg in
    ElementTree.ret is_rebar_visible
  else ElementTree.ret is_rebar_visible.

(** Body of the loop over the edges of a U-shape rebar seen face-on
    (source lines 363-397). *)
Definition ushape_edge (rebar : Rebar.t) (view_plane : Plane)
    (rebars_svg u_rebar_svg : ref) (edge : Edge.t)
    (is_rebar_visible : bool) : M bool :=
  if String.eqb (Edge.geomType edge) "Line" then
    let* '(p1, p2) := lift (edge_points edge view_plane) in
    let* '(edge_svg, is_rebar_visible) :=
      (if same_rounded (FreeCAD.x p1) (FreeCAD.x p2)
          && same_rounded (FreeCAD.y p1) (FreeCAD.y p2)
       then
         let* edge_svg :=
           getPointSVG p1 (SVG_POINT_DIA_FACTOR * Rebar.Diameter rebar)%Q in
         ElementTree.ret (edge_svg, is_rebar_visible)
       else
         let* edge_svg := getLineSVG p1 p2 in
         let* found := isLineInSVG p1 p2 rebars_svg in
         ElementTree.ret
           (edge_svg, if negb found then true else is_rebar_visible)) in
    if is_rebar_visible then
      do append u_rebar_svg edge_svg in
      ElementTree.ret true
    else ElementTree.ret is_rebar_visible
  else if String.eqb (Edge.geomType edge) "Circle" then
    ushape_circle_edge rebar view_plane rebars_svg u_rebar_svg edge
      is_rebar_visible
  else ElementTree.ret is_rebar_visible.

(** Body of the inner loop of a U-shape rebar seen from the side
    (source lines 409-456). *)
Definition ushape_side_edge (rebar : Rebar.t) (view_plane : Plane)
    (rebars_svg u_rebar_svg : ref) (edge : Edge.t)
    (is_rebar_visible : bool) : M bool :=
  if String.eqb (Edge.geomType edge) "Line" then
    let* '(p1, p2) := lift (edge_points edge view_plane) in
    let* '(edge_svg, is_rebar_visible) :=
      (if same_rounded (FreeCAD.x p1) (FreeCAD.x p2)
          && same_rounded (FreeCAD.y p1) (FreeCAD.y p2)
       then
         let* edge_svg :=
           getPointSVG p1 (SVG_POINT_DIA_FACTOR * Rebar.Diameter rebar)%Q in
         ElementTree.ret (edge_svg, is_rebar_visible)
       else
         let* edge_svg := getLineSVG p1 p2 in
         let* found := isLineInSVG p1 p2 rebars_svg in
         ElementTree.ret
           (edge_svg, if negb found then true else is_rebar_visible)) in
    let* cond := or_not is_rebar_visible (isLineInSVG p1 p2 rebars_svg) in
    if cond then
      do append u_rebar_svg edge_svg in
      ElementTree.ret true
    else ElementTree.ret is_rebar_visible
  else if String.eqb (Edge.geomType edge) "Circle" then
    ushape_circle_edge rebar view_plane rebars_svg u_rebar_svg edge
      is_rebar_visible
  else ElementTree.ret is_rebar_visible.

(** Body of the loop over the placements (source lines 400-456). *)
Definition ushape_placement (basewire : Wire.t) (rebar : Rebar.t)
    (view_plane : Plane) (rebars_svg u_rebar_svg : ref)
    (placement : FreeCAD.Placement) (is_rebar_visible : bool) : M bool :=
  let wire := placed_wire basewire placement in
  let edges := sorted_fillet_edges wire rebar in
  for_each edges
    (ushape_side_edge rebar view_plane rebars_svg u_rebar_svg)
    is_rebar_visible.

(** [getUShapeRebarSVGData(rebar, view_plane, rebars_svg)] *)
Definition getUShapeRebarSVGData (rebar : Rebar.t) (view_plane : Plane)
    (rebars_svg : ref) : M (ref * bool) :=
  let* u_rebar_svg := Element "g" [("id", Rebar.Name rebar)] in
  let is_rebar_visible := false in
  if face_on rebar view_plane then
    let* wire0 :=
      lift (py_index (Shape.Wires (BaseObject.Shape (Rebar.Base rebar))) 0) in
    let edges := sorted_fillet_edges wire0 rebar in
    let* is_rebar_visible :=
      for_each edges
        (ushape_edge rebar view_plane rebars_svg u_rebar_svg)
        is_rebar_visible in
    ElementTree.ret (u_rebar_svg, is_rebar_visible)
  else
    let* basewire :=
      lift (py_index (Shape.Wires (BaseObject.Shape (Rebar.Base rebar))) 0) in
    let* is_rebar_visible :=
      for_each (Rebar.PlacementList rebar)
        (ushape_placement basewire rebar view_plane rebars_svg u_rebar_svg)
        is_rebar_visible in
    ElementTree.ret (u_rebar_svg, is_rebar_visible).

(** [a() or b()] on two tests, with short-circuit evaluation. *)
Definition or_else (a b : M bool) : M bool :=
  let* found := a in
  if found then ElementTree.ret true else b.

(** The dictionary returned by [getStraightRebarSVGData]. *)
Record StraightRebarSVGData := mkStraightData {
  svg : ref;
  visibility : bool;
  h_dim_y_offset : Q;
  v_dim_x_offset : Q
}.

(** ["{}⌀{}".format(rebar.Amount, rebar.Diameter)] *)
Definition dimension_text (rebar : Rebar.t) : string :=
  Py.str_int (Rebar.Amount rebar) +:+ "⌀"
  +:+ quantity_str (Rebar.Diameter rebar).

(** Body of the loop over the placements of a straight rebar seen from
    the side (source lines 521-543). *)
Definition straight_placement (basewire : Wire.t) (rebar : Rebar.t)
    (view_plane : Plane) (rebars_svg straight_rebar_svg : ref)
    (placement : FreeCAD.Placement) (is_rebar_visible : bool) : M bool :=
  let wire := placed_wire basewire placement in
  let* v0 := lift (py_index (Wire.Vertexes wire) 0) in
  let p1 := getProjectionToSVGPlane v0 view_plane in
  let* v1 := lift (py_index (Wire.Vertexes wire) 1) in
  let p2 := getProjectionToSVGPlane v1 view_plane in
  let* '(rebar_svg, is_rebar_visible) :=
    (if same_rounded (FreeCAD.x p1) (FreeCAD.x p2)
        && same_rounded (FreeCAD.y p1) (FreeCAD.y p2)
     then
       let* rebar_svg :=
         getPointSVG p1 (SVG_POINT_DIA_FACTOR * Rebar.Diameter rebar)%Q in
       let* found :=
         or_else (isPointInSVG p1 rebars_svg)
                 (isPointInSVG p1 straight_rebar_svg) in
       ElementTree.ret
         (rebar_svg, if negb found then true else is_rebar_visible)
     else
       let* rebar_svg := getLineSVG p1 p2 in
       let* found :=
         or_else (isLineInSVG p1 p2 rebars_svg)
                 (isLineInSVG p1 p2 straight_rebar_svg) in
       ElementTree.ret
         (rebar_svg, if negb found then true else is_rebar_visible)) in
  if is_rebar_visible then
    do append straight_rebar_svg rebar_svg in
    ElementTree.ret is_rebar_visible
  else ElementTree.ret is_rebar_visible.

(** [getStraightRebarSVGData(rebar, view_plane, h_dim_x_offset,
    h_dim_y_offset, v_dim_x_offset, v_dim_y_offset, rebars_svg)] *)
Definition getStraightRebarSVGData (rebar : Rebar.t) (view_plane : Plane)
    (h_dim_x_offset h_dim_y_offset v_dim_x_offset v_dim_y_offset : Q)
    (rebars_svg : ref) : M StraightRebarSVGData :=
  let* straight_rebar_svg := Element "g" [("id", Rebar.Name rebar)] in
  let is_rebar_visible := false in
  if face_on rebar view_plane then
    let* wire0 :=
      lift (py_index (Shape.Wires (BaseObject.Shape (Rebar.Base rebar))) 0) in
    let* v0 := lift (py_index (Wire.Vertexes wire0) 0) in
    let p1 := getProjectionToSVGPlane v0 view_plane in
    let* v1 := lift (py_index (Wire.Vertexes wire0) 1) in
    let p2 := getProjectionToSVGPlane v1 view_plane in
    let* '(rebar_svg, is_rebar_visible) :=
      (if same_rounded (FreeCAD.x p1) (FreeCAD.x p2)
          && same_rounded (FreeCAD.y p1) (FreeCAD.y p2)
       then
         let* rebar_svg :=
           getPointSVG p1 (SVG_POINT_DIA_FACTOR * Rebar.Diameter rebar)%Q in
         let* found := isPointInSVG p1 rebars_svg in
         ElementTree.ret
           (rebar_svg, if negb found then true else is_rebar_visible)
       else
         let* rebar_svg := getLineSVG p1 p2 in
         let* found := isLineInSVG p1 p2 rebars_svg in
         ElementTree.ret
           (rebar_svg, if negb found then true else is_rebar_visible)) in
    if is_rebar_visible then
      do append straight_rebar_svg rebar_svg in
      let* '(dimension_svg, dimension_line_horizontal) :=
        getLineDimensionsData p1 p2 (dimension_text rebar)
          h_dim_x_offset h_dim_y_offset v_dim_x_offset v_dim_y_offset in
      do append straight_rebar_svg dimension_svg in
      if dimension_line_horizontal then
        ElementTree.ret
          (mkStraightData straight_rebar_svg is_rebar_visible
             (Py.add h_dim_y_offset 100) v_dim_x_offset)
      else
        ElementTree.ret
          (mkStraightData straight_rebar_svg is_rebar_visible
             h_dim_y_offset (Py.add v_dim_x_offset 100))
    else
      ElementTree.ret
        (mkStraightData straight_rebar_svg is_rebar_visible
           h_dim_y_offset v_dim_x_offset)
  else
    let* basewire :=
      lift (py_index (Shape.Wires (BaseObject.Shape (Rebar.Base rebar))) 0) in
    let* is_rebar_visible :=
      for_each (Rebar.PlacementList rebar)
        (straight_placement basewire rebar view_plane rebars_svg
           straight_rebar_svg)
        is_rebar_visible in
    ElementTree.ret
      (mkStraightData straight_rebar_svg is_rebar_visible
         h_dim_y_offset v_dim_x_offset).

(** What [view_direction] can be: a [FreeCAD.Vector], a
    [WorkingPlane.plane], or an object of another type. *)
Inductive ViewDirection :=
| DirectionVector (d : Vector)
| DirectionPlane (p : Plane)
| DirectionOther.

(** Source lines 561-570; [None] when [view_plane] is left unbound. *)
Definition resolve_view_plane (view_direction : ViewDirection)
    : option Plane :=
  match view_direction with
  | DirectionVector d =>
      if negb (FreeCAD.eqb d (Vec 0 0 0)) then
        Some (plane_alignToPointAndAxis WorkingPlane.plane (Vec 0 0 0)
                (FreeCAD.negative (FreeCAD.negative d)) 0)
      else None
  | DirectionPlane p => Some p
  | DirectionOther => None
  end.

(** Source lines 572-583. *)
Definition bounding_box_points (view_plane : Plane) : list Z :=
  let axis := WorkingPlane.axis view_plane in
  if FreeCAD.eqb axis (Vec 0 (-1) 0) then [0; 1; 4; 5]
  else if FreeCAD.eqb axis (Vec 0 1 0) then [2; 3; 6; 7]
  else if FreeCAD.eqb axis (Vec 0 0 1) then [0; 1; 2; 3]
  else if FreeCAD.eqb axis (Vec 0 0 (-1)) then [4; 5; 6; 7]
  else if FreeCAD.eqb axis (Vec 1 0 0) then [1; 2; 5; 6]
  else [0; 3; 4; 7].

Record Extent := mkExtent { min_x : Q; min_y : Q; max_x : Q; max_y : Q }.

(** Source lines 585-598. *)
Definition projected_extent (structure : Structure.t)
    (rebars_list : list Rebar.t) (view_plane : Plane) : result Extent :=
  let pts := bounding_box_points view_plane in
  let bounding_box :=
    Compound_BoundBox
      (map Rebar.Shape rebars_list ++ [Structure.Shape structure]) in
  match py_index pts 0 with
  | Raise e => Raise e
  | Ok pt0 =>
      let point :=
        getProjectionToSVGPlane (BoundBox_getPoint bounding_box pt0)
          view_plane in
      Ok (foldl
            (fun ext pt =>
               let point :=
                 getProjectionToSVGPlane
                   (BoundBox_getPoint bounding_box pt) view_plane in
               mkExtent (Py.min (min_x ext) (FreeCAD.x point))
                        (Py.min (min_y ext) (FreeCAD.y point))
                        (Py.max (max_x ext) (FreeCAD.x point))
                        (Py.max (max_y ext) (FreeCAD.y point)))
            (mkExtent (FreeCAD.x point) (FreeCAD.y point)
                      (FreeCAD.x point) (FreeCAD.y point))
            (drop 1 pts))
  end.

(** The seven lists filled by the loop of source lines 612-633. *)
Record Classified := mkClassified {
  stirrups : list Rebar.t;
  bent_rebars : list Rebar.t;
  u_rebars : list Rebar.t;
  l_rebars : list Rebar.t;
  straight_rebars : list Rebar.t;
  helical_rebars : list Rebar.t;
  custom_rebars : list Rebar.t
}.

Definition classify_rebar (c : Classified) (rebar : Rebar.t) : Classified :=
  let shape := Rebar.RebarShape rebar in
  if String.eqb shape "Stirrup" then
    mkClassified (stirrups c ++ [rebar]) (bent_rebars c) (u_rebars c)
      (l_rebars c) (straight_rebars c) (helical_rebars c) (custom_rebars c)
  else if String.eqb shape "BentShapeRebar" then
    mkClassified (stirrups c) (bent_rebars c ++ [rebar]) (u_rebars c)
      (l_rebars c) (straight_rebars c) (helical_rebars c) (custom_rebars c)
  else if String.eqb shape "UShapeRebar" then
    mkClassified (stirrups c) (bent_rebars c) (u_rebars c ++ [rebar])
      (l_rebars c) (straight_rebars c) (helical_rebars c) (custom_rebars c)
  else if String.eqb shape "LShapeRebar" then
    mkClassified (stirrups c) (bent_rebars c) (u_rebars c)
      (l_rebars c ++ [rebar]) (straight_rebars c) (helical_rebars c)
      (custom_rebars c)
  else if String.eqb shape "StraightRebar" then
    mkClassified (stirrups c) (bent_rebars c) (u_rebars c) (l_rebars c)
      (straight_rebars c ++ [rebar]) (helical_rebars c) (custom_rebars c)
  else if String.eqb shape "HelicalRebar" then
    mkClassified (stirrups c) (bent_rebars c) (u_rebars c) (l_rebars c)
      (straight_rebars c) (helical_rebars c ++ [rebar]) (custom_rebars c)
  else
    mkClassified (stirrups c) (bent_rebars c) (u_rebars c) (l_rebars c)
      (straight_rebars c) (helical_rebars c) (custom_rebars c ++ [rebar]).

Definition classify (rebars_list : list Rebar.t) : Classified :=
  foldl classify_rebar (mkClassified [] [] [] [] [] [] []) rebars_list.

(** Body of the loops over stirrups, bent, U-shape and L-shape rebars
    (source lines 641-645, 649-653, 657-661, 665-669); the list
    [visible_rebars], which the function never reads, is left out. *)
Definition shape_step (builder : Rebar.t -> Plane -> ref -> M (ref * bool))
    (view_plane : Plane) (rebars_svg group_svg : ref) (rebar : Rebar.t)
    (_ : unit) : M unit :=
  let* '(rebar_svg, rebar_visibility) :=
    builder rebar view_plane rebars_svg in
  if rebar_visibility then
    do append group_svg rebar_svg in ElementTree.ret tt
  else ElementTree.ret tt.

(** Body of the loop over straight rebars (source lines 680-694); the
    state is [(h_dim_y_offset, v_dim_x_offset)]. *)
Definition straight_step (view_plane : Plane)
    (h_dim_x_offset v_dim_y_offset : Q)
    (rebars_svg straight_rebars_svg : ref) (rebar : Rebar.t)
    (offsets : Q * Q) : M (Q * Q) :=
  let* rebar_data :=
    getStraightRebarSVGData rebar view_plane h_dim_x_offset
      (fst offsets) (snd offsets) v_dim_y_offset rebars_svg in
  if visibility rebar_data then
    do append straight_rebars_svg (svg rebar_data) in
    ElementTree.ret
      (h_dim_y_offset rebar_data, v_dim_x_offset rebar_data)
  else ElementTree.ret offsets.

(** [ElementTree.fromstring(s)] *)
Definition fromstring (s : string) : M ref :=
  match ElementTree_fromstring s with
  | Some x => build x
  | None => raise Py.ParseError
  end.

(** Body of the loops over helical and custom rebars
    (source lines 703-709 and 713-718). *)
Definition exported_step (view_plane : Plane) (group_svg : ref)
    (rebar : Rebar.t) (_ : unit) : M unit :=
  let* rebar_svg :=
    fromstring (Draft_getSVG (RebarObject rebar) view_plane) in
  do append group_svg rebar_svg in
  ElementTree.ret tt.

(** A category group [<g id=...>] appended to [rebars_svg]. *)
Definition category_group (rebars_svg : ref) (id : string) : M ref :=
  let* group_svg := Element "g" [("id", id)] in
  do append rebars_svg group_svg in
  ElementTree.ret group_svg.

(** Source lines 635-718: the group [Rebars] and the seven categories. *)
Definition rebars_pass (c : Classified) (view_plane : Plane)
    (ext : Extent) (reinforcement_drawing : ref) : M ref :=
  let* rebars_svg := Element "g" [("id", "Rebars")] in
  do append reinforcement_drawing rebars_svg in
  let* stirrups_svg := category_group rebars_svg "Stirrup" in
  let* _ :=
    for_each (stirrups c)
      (shape_step getStirrupSVGData view_plane rebars_svg stirrups_svg)
      tt in
  let* bent_rebars_svg := category_group rebars_svg "BentShapeRebar" in
  let* _ :=
    for_each (bent_rebars c)
      (shape_step getUShapeRebarSVGData view_plane rebars_svg
         bent_rebars_svg) tt in
  let* u_rebars_svg := category_group rebars_svg "UShapeRebar" in
  let* _ :=
    for_each (u_rebars c)
      (shape_step getUShapeRebarSVGData view_plane rebars_svg
         u_rebars_svg) tt in
  let* l_rebars_svg := category_group rebars_svg "LShapeRebar" in
  let* _ :=
    for_each (l_rebars c)
      (shape_step getUShapeRebarSVGData view_plane rebars_svg
         l_rebars_svg) tt in
  let* straight_rebars_svg := category_group rebars_svg "StraightRebar" in
  let h_dim_x_offset := Py.add (max_x ext) 50 in
  let h_dim_y_offset := Py.add (min_y ext) 50 in
  let v_dim_x_offset := Py.add (min_x ext) 50 in
  let v_dim_y_offset := Py.sub (min_y ext) 50 in
  let* _ :=
    for_each (straight_rebars c)
      (straight_step view_plane h_dim_x_offset v_dim_y_offset rebars_svg
         straight_rebars_svg)
      (h_dim_y_offset, v_dim_x_offset) in
  let* helical_rebars_svg := category_group rebars_svg "HelicalRebar" in
  let* _ :=
    for_each (helical_rebars c)
      (exported_step view_plane helical_rebars_svg) tt in
  let* custom_rebars_svg := category_group rebars_svg "CustomRebar" in
  let* _ :=
    for_each (custom_rebars c)
      (exported_step view_plane custom_rebars_svg) tt in
  ElementTree.ret rebars_svg.

(** [getReinforcementDrawingSVG(structure, rebars_list, view_direction)] *)
Definition getReinforcementDrawingSVG (structure : Structure.t)
    (rebars_list : list Rebar.t) (view_direction : ViewDirection)
    : M ref :=
  match resolve_view_plane view_direction with
  | None => raise Py.UnboundLocalError
  | Some view_plane =>
      let* ext :=
        lift (projected_extent structure rebars_list view_plane) in
      let* svg := getSVGRootElement in
      let* defs_element := Element "defs" [] in
      let* start_arrow := getArrowMarkerElement "start_arrow" "start" in
      do append defs_element start_arrow in
      let* end_arrow := getArrowMarkerElement "end_arrow" "end" in
      do append defs_element end_arrow in
      do append svg defs_element in
      let* reinforcement_drawing :=
        Element "g" [("id", "reinforcement_drawing")] in
      do append svg reinforcement_drawing in
      let c := classify rebars_list in
      let* rebars_svg := rebars_pass c view_plane ext reinforcement_drawing in
      let* structure_svg :=
        fromstring
          ("<g id=" +:+ dquote +:+ "structure" +:+ dquote +:+ ">"
           +:+ Draft_getSVG (StructureObject structure) view_plane
           +:+ "</g>") in
      do append reinforcement_drawing structure_svg in
      do ElementTree.set reinforcement_drawing "transform"
           ("translate("
            +:+ Py.str_int (Py.round (Py.add (- min_x ext) 60))
            +:+ ", "
            +:+ Py.str_int (Py.round (Py.add (- min_y ext) 100))
            +:+ ")") in
      let svg_width :=
        Py.round (Py.add (Py.sub (max_x ext) (min_x ext)) 200) in
      let svg_height :=
        Py.round (Py.add (Py.sub (max_y ext) (min_y ext)) 200) in
      do ElementTree.set svg "width" (Py.str_int svg_width +:+ "mm") in
      do ElementTree.set svg "height" (Py.str_int svg_height +:+ "mm") in
      do ElementTree.set svg "viewBox"
           ("0 0 " +:+ Py.str_int svg_width +:+ " "
            +:+ Py.str_int svg_height) in
      ElementTree.ret svg
  end.

End ReinforcementDrawingfunc.

(** ** A kernel for axis-aligned examples

    An instance of the interface that is exact on the inputs of the
    examples below: vectors along one coordinate axis, planes whose [u] and
    [v] are unit vectors of the coordinate axes, wires that are only
    translated and that the fillet returns as they are (polygons of
    rounding 0, wires without a sharp corner), floats with integer
    values. *)

Module Example.

Definition dot (a b : Vector) : Q :=
  (FreeCAD.x a * FreeCAD.x b + FreeCAD.y a * FreeCAD.y b
   + FreeCAD.z a * FreeCAD.z b)%Q.

Definition add (a b : Vector) : Vector :=
  Vec (FreeCAD.x a + FreeCAD.x b) (FreeCAD.y a + FreeCAD.y b)
      (FreeCAD.z a + FreeCAD.z b).

Definition scale (k : Q) (a : Vector) : Vector :=
  Vec (k * FreeCAD.x a) (k * FreeCAD.y a) (k * FreeCAD.z a).

(** The length of a vector along one coordinate axis. *)
Definition Length (a : Vector) : Q :=
  (Qabs (FreeCAD.x a) + Qabs (FreeCAD.y a) + Qabs (FreeCAD.z a))%Q.

(** 0 for vectors that point the same way, about pi for opposite ones. *)
Definition getAngle (a b : Vector) : Q :=
  if Py.lt (dot a b) 0 then (22 # 7)%Q else 0%Q.

(** [DraftVecUtils.project(u, v)] *)
Definition project (a b : Vector) : Vector :=
  if Py.eq (dot b b) 0 then Vec 0 0 0
  else scale (dot a b / dot b b) b.

(** The sign of [DraftVecUtils.angle(u, v, normal)]. *)
Definition angle (a b normal : Vector) : Q :=
  let coeff := dot normal (FreeCAD.cross a b) in
  if Py.lt coeff 0 then (-1)%Q
  else if Py.eq coeff 0 then 0%Q else 1%Q.

Definition isNull (a : Vector) : bool :=
  FreeCAD.eqb a (Vec 0 0 0).

Definition multiply (p q : FreeCAD.Placement) : FreeCAD.Placement :=
  FreeCAD.mkPlacement (add (FreeCAD.Base p) (FreeCAD.Base q))
    (FreeCAD.Rotation_ q).

Definition move_edge (d : Vector) (e : Edge.t) : Edge.t :=
  Edge.mk (Edge.geomType e) (map (add d) (Edge.Vertexes e))
    (Edge.FirstParameter e) (Edge.LastParameter e) (Edge.tangentAt e).

Definition setPlacement (w : Wire.t) (p : FreeCAD.Placement) : Wire.t :=
  let d :=
    add (FreeCAD.Base p)
        (FreeCAD.negative (FreeCAD.Base (Wire.Placement w))) in
  Wire.mk (map (move_edge d) (Wire.Edges w)) (map (add d) (Wire.Vertexes w))
    p.

(** The corners of a bounding box, numbered as [BoundBox.getPoint]. *)
Definition getPoint (b : FreeCAD.BoundBox) (i : Z) : Vector :=
  let lo_x := FreeCAD.XMin b in let hi_x := FreeCAD.XMax b in
  let lo_y := FreeCAD.YMin b in let hi_y := FreeCAD.YMax b in
  let lo_z := FreeCAD.ZMin b in let hi_z := FreeCAD.ZMax b in
  match i with
  | 0 => Vec lo_x lo_y hi_z
  | 1 => Vec hi_x lo_y hi_z
  | 2 => Vec hi_x hi_y hi_z
  | 3 => Vec lo_x hi_y hi_z
  | 4 => Vec lo_x lo_y lo_z
  | 5 => Vec hi_x lo_y lo_z
  | 6 => Vec hi_x hi_y lo_z
  | _ => Vec lo_x hi_y lo_z
  end.

Definition shape_points (s : Shape.t) : list Vector :=
  flat_map Wire.Vertexes (Shape.Wires s).

Definition BoundBox (shapes : list Shape.t) : FreeCAD.BoundBox :=
  let pts := flat_map shape_points shapes in
  let lo f := foldr (fun p m => Py.min (f p) m) 0%Q pts in
  let hi f := foldr (fun p m => Py.max (f p) m) 0%Q pts in
  FreeCAD.mkBoundBox (lo FreeCAD.x) (lo FreeCAD.y) (lo FreeCAD.z)
    (hi FreeCAD.x) (hi FreeCAD.y) (hi FreeCAD.z).

(** Floats with an integer value print as [n.0]. *)
Definition str_float (q : Q) : string := Py.str_int (Qfloor q) +:+ ".0".

Definition kernel : External := {|
  Vector_Length := Length;
  Vector_getAngle := getAngle;
  Vector_normalize := fun a => a;
  Rotation_multVec := fun _ a => a;
  Placement_multiply := multiply;
  Wire_setPlacement := setPlacement;
  Compound_BoundBox := BoundBox;
  BoundBox_getPoint := getPoint;
  Part_sortEdges := fun l => l;
  DraftVecUtils_project := project;
  DraftVecUtils_angle := angle;
  DraftVecUtils_isNull := isNull;
  DraftGeomUtils_getNormal := fun _ => Vec 0 0 1;
  DraftGeomUtils_filletWire := fun w _ => w;
  Draft_getSVG := fun _ _ => "<path/>";
  plane_alignToPointAndAxis := fun p _ a _ => WorkingPlane.set_axis a p;
  ElementTree_fromstring :=
    fun s =>
      if String.eqb s "<path/>" then Some (XElem "path" [] None [])
      else Some (XElem "g" [("id", "structure")] None
                   [XElem "path" [] None []]);
  float_str := str_float;
  quantity_str := fun d => str_float d +:+ " mm";
  SVG_POINT_DIA_FACTOR := 1 # 2
|}.

Definition identity : FreeCAD.Placement :=
  FreeCAD.mkPlacement (Vec 0 0 0) (FreeCAD.mkRotation 0 0 0 1).

(** The plane of the view from the top. *)
Definition top : Plane :=
  WorkingPlane.mkPlane (Vec 0 0 0) (Vec 1 0 0) (Vec 0 (-1) 0) (Vec 0 0 1).

Definition line (a b : Vector) : Edge.t :=
  Edge.mk "Line" [a; b] 0 1 (fun _ => add b (FreeCAD.negative a)).

(** A wire of line segments through the given points. *)
Fixpoint segments (pts : list Vector) : list Edge.t :=
  match pts with
  | a :: (b :: _) as rest => line a b :: segments rest
  | _ => []
  end.

Definition wire (pts : list Vector) : Wire.t :=
  Wire.mk (segments pts) pts identity.

(** A rebar whose base sketch lies in the plane z = [h], spanning along
    the z axis. *)
Definition rebar (name shape : string) (pts : list Vector) : Rebar.t :=
  Rebar.mk name shape
    (BaseObject.mk "Wire" (Shape.mk [wire pts]) identity)
    (Shape.mk [wire pts]) None 2 8 4 [identity].

(** The same with rounding 0, for a wire with corners: its corners stay
    sharp, and the fillet of radius 0 returns the wire as it is. *)
Definition sharp (name shape : string) (pts : list Vector) : Rebar.t :=
  Rebar.mk name shape
    (BaseObject.mk "Wire" (Shape.mk [wire pts]) identity)
    (Shape.mk [wire pts]) None 0 8 4 [identity].

(** A slab and two straight bars that lie above each other: seen from
    the top they project on the same segment. *)
Definition slab : Structure.t :=
  Structure.mk "slab" (Shape.mk [wire [Vec 0 0 0; Vec 200 300 10]]).

Definition bar1 : Rebar.t :=
  rebar "bar1" "StraightRebar" [Vec 0 0 0; Vec 100 0 0].

Definition bar2 : Rebar.t :=
  rebar "bar2" "StraightRebar" [Vec 0 0 5; Vec 100 0 5].

(** Two straight bars that run along the y axis, 50 apart. *)
Definition post1 : Rebar.t :=
  rebar "post1" "StraightRebar" [Vec 0 0 0; Vec 0 (-100) 0].

Definition post2 : Rebar.t :=
  rebar "post2" "StraightRebar" [Vec 50 0 0; Vec 50 (-100) 0].

(** An arc whose tangent turns clockwise about the z axis. *)
Definition arc (a b : Vector) : Edge.t :=
  Edge.mk "Circle" [a; b] 0 1
    (fun t => if Qeq_bool t 0 then Vec 1 0 0 else Vec 1 (-1) 0).

(** The same kind of arc walked the other way: the tangent turns
    counter-clockwise. *)
Definition arc_back (a b : Vector) : Edge.t :=
  Edge.mk "Circle" [a; b] 0 1
    (fun t => if Qeq_bool t 0 then Vec 0 1 0 else Vec (-1) 1 0).

(** A rebar whose base wire has the given edges. *)
Definition profile (name shape : string) (edges : list Edge.t)
    (pts : list Vector) : Rebar.t :=
  Rebar.mk name shape
    (BaseObject.mk "Wire" (Shape.mk [Wire.mk edges pts identity]) identity)
    (Shape.mk [Wire.mk edges pts identity]) None 2 8 4 [identity].

(** A bar with a quarter turn, and one whose arc ends level with its
    start. *)
Definition hook : Rebar.t :=
  profile "hook" "UShapeRebar"
    [line (Vec 0 0 0) (Vec 100 0 0); arc (Vec 100 0 0) (Vec 120 (-20) 0)]
    [Vec 0 0 0; Vec 100 0 0; Vec 120 (-20) 0].

Definition bent : Rebar.t :=
  profile "bent" "UShapeRebar" [arc (Vec 0 0 0) (Vec 20 0 0)]
    [Vec 0 0 0; Vec 20 0 0].

(** A bar a fifth of a unit long, and a stirrup that starts with such a
    segment. *)
Definition stub : Rebar.t :=
  rebar "stub" "StraightRebar" [Vec 0 0 0; Vec (1 # 5) 0 0].


(** A stirrup in the plane z = 0: the segment of [bar1], then a leg. *)
Definition stirrup : Rebar.t :=
  sharp "stirrup" "Stirrup" [Vec 0 0 0; Vec 100 0 0; Vec 100 (-50) 0].

(** An accumulated drawing: the group [Rebars] (element 0), in it the group
    of the stirrups, in it the fragment of an earlier rebar with one line
    from (0, 0) to (100, 0). *)
Definition accumulated : Store :=
  [ mkNode "g" [("id", "Rebars")] None [1%nat];
    mkNode "g" [("id", "Stirrup")] None [2%nat];
    mkNode "g" [("id", "earlier")] None [3%nat];
    mkNode "line"
      [("x1", "0"); ("y1", "0"); ("x2", "100"); ("y2", "0");
       ("style", "stroke:#000000")] None [] ].

End Example.

(** * Properties *)

(** ** The store of elements *)

Section StoreFacts.
Local Open Scope nat_scope.
Implicit Types (σ : Store) (r c : ref) (n : Node).

(** Children are allocated after their parent and exist: the shape of
    every store the module builds. *)
Definition wf σ : Prop :=
  forall r n, σ !! r = Some n ->
    Forall (fun c => r < c < length σ) (children n).

(** Every element of [σ] is still there in [σ'], with the same tag,
    attributes and text, and with its children as a prefix of the new
    children. *)
Definition grows σ σ' : Prop :=
  forall r n, σ !! r = Some n ->
    exists n', σ' !! r = Some n'
      /\ tag n' = tag n /\ attrib n' = attrib n /\ text n' = text n
      /\ children n `prefix_of` children n'.

Lemma grows_refl σ : grows σ σ.
Proof. intros r n H. exists n. by repeat split. Qed.

Lemma grows_trans σ1 σ2 σ3 : grows σ1 σ2 -> grows σ2 σ3 -> grows σ1 σ3.
Proof.
  intros H12 H23 r n H.
  destruct (H12 r n H) as (n2 & Hn2 & ? & ? & ? & ?).
  destruct (H23 r n2 Hn2) as (n3 & Hn3 & ? & ? & ? & ?).
  exists n3. repeat split; try congruence. by etrans.
Qed.

Lemma grows_app σ new : grows σ (σ ++ new).
Proof.
  intros r n H. exists n. rewrite (lookup_app_l_Some _ _ _ _ H).
  by repeat split.
Qed.

Lemma grows_add_child σ p c : grows σ (alter (add_child c) p σ).
Proof.
  intros r n H. destruct (decide (p = r)) as [->|Hne].
  - exists (add_child c n). rewrite list_lookup_alter_eq, H. simpl.
    repeat split; try done. by apply prefix_app_r.
  - exists n. rewrite list_lookup_alter_ne by done. by repeat split.
Qed.

Lemma grows_length σ σ' : grows σ σ' -> length σ <= length σ'.
Proof.
  intros H. destruct (decide (length σ = 0)) as [->|Hne]; [lia|].
  destruct (lookup_lt_is_Some_2 σ (length σ - 1)) as [n Hn]; [lia|].
  destruct (H _ _ Hn) as (n' & Hn' & _). apply lookup_lt_Some in Hn'. lia.
Qed.

Lemma flat_map_ext_Forall {A B} (f g : A -> list B) (l : list A) :
  Forall (fun a => f a = g a) l -> flat_map f l = flat_map g l.
Proof. induction 1 as [|a l Ha _ IH]; simpl; congruence. Qed.

(** More fuel never loses an element of the walk. *)
Lemma iter_fuel_mono f f' σ r c :
  f <= f' -> In c (iter f σ r) -> In c (iter f' σ r).
Proof.
  revert f' r c. induction f as [|f IH]; intros f' r c Hle Hin; [done|].
  destruct f' as [|f']; [lia|]. simpl in *.
  destruct (σ !! r) as [n|]; [|done].
  apply in_flat_map in Hin as (d & Hd & Hin). apply in_flat_map.
  exists d. split; [done|]. destruct Hin as [->|Hin]; [by left|].
  right. apply IH; [lia|done].
Qed.

(** A store that has grown keeps every element of the walk. *)
Lemma iter_grows f σ σ' r c :
  grows σ σ' -> In c (iter f σ r) -> In c (iter f σ' r).
Proof.
  intros Hg. revert r c. induction f as [|f IH]; intros r c Hin; [done|].
  simpl in *. destruct (σ !! r) as [n|] eqn:Hr; [|done].
  destruct (Hg _ _ Hr) as (n' & -> & _ & _ & _ & [k ->]).
  apply in_flat_map in Hin as (d & Hd & Hin). apply in_flat_map.
  exists d. split; [apply in_or_app; by left|].
  destruct Hin as [->|Hin]; [by left|]. right. by apply IH.
Qed.

Lemma iter_bound f σ r c : wf σ -> In c (iter f σ r) -> r < c < length σ.
Proof.
  intros Hwf. revert r c. induction f as [|f IH]; intros r c Hin; [done|].
  simpl in Hin. destruct (σ !! r) as [n|] eqn:Hr; [|done].
  apply in_flat_map in Hin as (d & Hd & Hin).
  pose proof (Hwf _ _ Hr) as Hall. rewrite Forall_forall in Hall.
  apply list_elem_of_In in Hd. specialize (Hall _ Hd).
  destruct Hin as [->|Hin]; [done|]. apply IH in Hin. lia.
Qed.

(** In a well-formed store the walk is complete once the fuel covers the
    references above [r]. *)
Lemma iter_fuel_stable f f' σ r :
  wf σ -> length σ <= r + f -> length σ <= r + f' ->
  iter f σ r = iter f' σ r.
Proof.
  intros Hwf. revert f' r. induction f as [|f IH]; intros f' r Hf Hf'.
  - destruct f' as [|f']; [done|]. simpl.
    rewrite lookup_ge_None_2 by lia. done.
  - destruct f' as [|f'].
    + simpl. rewrite lookup_ge_None_2 by lia. done.
    + simpl. destruct (σ !! r) as [n|] eqn:Hr; [|done].
      apply flat_map_ext_Forall.
      eapply Forall_impl; [apply (Hwf _ _ Hr)|].
      intros d Hd. simpl in Hd. f_equal. apply IH; lia.
Qed.

(** Elements added at the end of a well-formed store are not reached
    from its old elements. *)
Lemma iter_app f σ new r :
  wf σ -> r < length σ -> iter f (σ ++ new) r = iter f σ r.
Proof.
  intros Hwf. revert r. induction f as [|f IH]; intros r Hr; [done|].
  simpl. rewrite lookup_app_l by done.
  destruct (σ !! r) as [n|] eqn:Hn; [|done].
  apply flat_map_ext_Forall.
  eapply Forall_impl; [apply (Hwf _ _ Hn)|].
  intros d Hd. simpl in Hd. f_equal. apply IH. lia.
Qed.

Lemma matches_app σ new t preds c :
  c < length σ -> matches (σ ++ new) t preds c = matches σ t preds c.
Proof. intros Hc. unfold matches. by rewrite lookup_app_l. Qed.

Lemma find_ext_in {A} (f g : A -> bool) (l : list A) :
  (forall a, In a l -> f a = g a) -> List.find f l = List.find g l.
Proof.
  induction l as [|a l IH]; intros H; [done|]. simpl.
  rewrite (H a) by (by left). destruct (g a); [done|].
  apply IH. intros b Hb. apply H. by right.
Qed.

(** [find] from an old element does not see what was added at the end of
    a well-formed store. *)
Lemma find_in_app σ new r t preds :
  wf σ -> r < length σ ->
  find_in (σ ++ new) r t preds = find_in σ r t preds.
Proof.
  intros Hwf Hr. unfold find_in. rewrite iter_app by done.
  rewrite (iter_fuel_stable (length (σ ++ new)) (length σ) σ r Hwf)
    by (rewrite ?length_app; lia).
  apply find_ext_in. intros c Hc.
  apply (iter_bound _ _ _ _ Hwf) in Hc.
  rewrite matches_app by lia. done.
Qed.

Lemma find_in_Some σ r t preds c :
  In c (iter (length σ) σ r) -> matches σ t preds c = true ->
  is_Some (find_in σ r t preds).
Proof.
  intros Hin Hm. unfold find_in.
  destruct (List.find _ _) as [d|] eqn:Hf; [by eexists|].
  rewrite (find_none _ _ Hf c Hin) in Hm. done.
Qed.

Lemma find_in_None σ r t preds :
  (forall c, In c (iter (length σ) σ r) -> matches σ t preds c = false) ->
  find_in σ r t preds = None.
Proof.
  intros H. unfold find_in.
  destruct (List.find _ _) as [d|] eqn:Hf; [|done].
  apply find_some in Hf as [Hd Hm]. rewrite (H _ Hd) in Hm. done.
Qed.

End StoreFacts.

(** ** Computations that only touch what they allocate

    [local k P m]: run from a store with at least [k] elements, [m] leaves
    the first [k] elements as they are, never shrinks the store, and
    returns a value satisfying [P]. *)

Section Local.
Local Open Scope nat_scope.

Definition local {A} (k : nat) (P : A -> Prop) (m : M A) : Prop :=
  forall σ a σ', k <= length σ -> m σ = Ok (a, σ') ->
    length σ <= length σ' /\ take k σ' = take k σ /\ P a.

Lemma local_weaken {A} k (P Q : A -> Prop) m :
  local k P m -> (forall a, P a -> Q a) -> local k Q m.
Proof.
  intros H HPQ σ a σ' Hk Hm. destruct (H σ a σ' Hk Hm) as (? & ? & ?).
  auto.
Qed.

Lemma local_ret {A} k (P : A -> Prop) a : P a -> local k P (ElementTree.ret a).
Proof. intros HP σ b σ' _ [= <- <-]. auto. Qed.

Lemma local_bind {A B} k (Q : A -> Prop) (P : B -> Prop) m f :
  local k Q m -> (forall a, Q a -> local k P (f a)) ->
  local k P (ElementTree.bind m f).
Proof.
  intros Hm Hf σ b σ' Hk Hrun. unfold ElementTree.bind in Hrun.
  destruct (m σ) as [[a σ1]|] eqn:E; [|done].
  destruct (Hm σ a σ1 Hk E) as (Hlen & Htake & HQ).
  destruct (Hf a HQ σ1 b σ' ltac:(lia) Hrun) as (? & ? & ?).
  repeat split; [lia|congruence|done].
Qed.

Lemma local_raise {A} k (P : A -> Prop) e : local k P (raise e).
Proof. intros σ a σ' _ [=]. Qed.

Lemma local_lift {A} k (r : result A) : local k (fun _ => True) (lift r).
Proof. intros σ a σ' _. unfold lift. destruct r; intros [= <- <-]; auto. Qed.

Lemma local_read {A} k (f : Store -> A) : local k (fun _ => True) (read f).
Proof. intros σ a σ' _ [= <- <-]. auto. Qed.

Lemma local_find k r t preds : local k (fun _ => True) (find r t preds).
Proof. apply local_read. Qed.

Lemma local_Element k t a : local k (fun r => k <= r) (Element t a).
Proof.
  intros σ r σ' Hk [= <- <-]. rewrite length_app. simpl.
  repeat split; [lia| |done]. by rewrite take_app_le.
Qed.

Lemma local_alter k f r :
  k <= r -> local k (fun _ => True) (fun σ => Ok (tt, alter f r σ)).
Proof.
  intros Hr σ [] σ' Hk [= <-]. rewrite length_alter.
  repeat split; [lia|]. by apply take_alter_ge.
Qed.

Lemma local_append k p c : k <= p -> local k (fun _ => True) (append p c).
Proof. apply local_alter. Qed.

Lemma local_set k r key v :
  k <= r -> local k (fun _ => True) (ElementTree.set r key v).
Proof. apply local_alter. Qed.

Lemma local_for_each {A S} k (I : S -> Prop) (l : list A) body s :
  (forall a s, I s -> local k I (body a s)) -> I s ->
  local k I (for_each l body s).
Proof.
  intros Hbody. revert s. induction l as [|a l IH]; intros s Hs; simpl.
  - by apply local_ret.
  - eapply local_bind; [by apply Hbody|]. intros s' Hs'. by apply IH.
Qed.

Lemma XML_forall_ind (P : XML -> Prop) :
  (forall t a s cs, Forall P cs -> P (XElem t a s cs)) -> forall x, P x.
Proof.
  intros step. fix ind 1. intros [t a s cs]. apply step.
  revert cs. fix all 1. intros [|c cs]; constructor; [apply ind|apply all].
Qed.

Lemma local_append_all k r (ms : list (M ref)) :
  k <= r -> Forall (local k (fun c => k <= c)) ms ->
  local k (fun _ => True) (append_all r ms).
Proof.
  intros Hr. induction 1 as [|m ms Hm _ IH]; simpl.
  - by apply local_ret.
  - eapply local_bind; [exact Hm|]. intros rc _.
    eapply local_bind; [by apply local_append|]. intros _ _. exact IH.
Qed.

Lemma local_build k x : local k (fun r => k <= r) (build x).
Proof.
  induction x as [t a s cs IH] using XML_forall_ind. simpl.
  eapply local_bind.
  { instantiate (1 := fun r => k <= r).
    intros σ r σ' Hk [= <- <-]. rewrite length_app. simpl.
    repeat split; [lia| |done]. by rewrite take_app_le. }
  intros r Hr. eapply local_bind.
  { apply local_append_all; [done|]. by apply Forall_fmap. }
  intros _ _. by apply local_ret.
Qed.

End Local.

Create HintDb local_db.

#[export] Hint Resolve local_lift local_read local_find local_raise : local_db.

Ltac local_leaf :=
  cbv beta in *;
  first
    [ solve [eauto with local_db]
    | apply local_append; lia
    | apply local_set; lia ].

(** One step through a computation: fresh elements are remembered to lie
    above the bound, every other result is forgotten. *)
Ltac local_step :=
  first
    [ apply local_ret; first [exact I | lia | done]
    | local_leaf
    | eapply local_bind; [apply local_Element|intros ? ?]
    | eapply local_bind; [apply local_build|intros ? ?]
    | eapply local_bind with (Q := fun _ => True); [local_leaf|intros ? _]
    | eapply local_weaken; [apply local_Element|done]
    | match goal with
      | |- local _ _ (if ?b then _ else _) => destruct b
      | |- local _ _ (match ?x with _ => _ end) => destruct x
      end
    | eapply local_bind with (Q := fun _ => True); [|intros ? _] ].

Ltac local_auto := repeat local_step.

Section LocalBuilders.
Context `{E : External}.
Local Open Scope nat_scope.

Lemma local_Element_any k t a : local k (fun _ => True) (Element t a).
Proof. eapply local_weaken; [apply local_Element|done]. Qed.

Lemma local_getPointSVG k p r : local k (fun _ => True) (getPointSVG p r).
Proof. apply local_Element_any. Qed.

Lemma local_getLineSVG k p1 p2 : local k (fun _ => True) (getLineSVG p1 p2).
Proof. apply local_Element_any. Qed.

Lemma local_getSVGPathElement k d m s :
  local k (fun _ => True) (getSVGPathElement d m s).
Proof. apply local_Element_any. Qed.

Lemma local_getArrowMarkerElement k i o :
  local k (fun _ => True) (getArrowMarkerElement i o).
Proof. apply local_Element_any. Qed.

Lemma local_getSVGTextElement k d x y f s a b :
  local k (fun _ => True) (getSVGTextElement d x y f s a b).
Proof.
  intros σ r σ' Hk [= <- <-]. rewrite length_app. simpl.
  repeat split; [lia|]. by rewrite take_app_le.
Qed.

Lemma local_isPointInSVG k p svg : local k (fun _ => True) (isPointInSVG p svg).
Proof. unfold isPointInSVG. local_auto. Qed.

Lemma local_isLineInSVG k p1 p2 svg :
  local k (fun _ => True) (isLineInSVG p1 p2 svg).
Proof. unfold isLineInSVG. local_auto. Qed.

Lemma local_isRoundCornerInSVG k e r v svg :
  local k (fun _ => True) (isRoundCornerInSVG e r v svg).
Proof. unfold isRoundCornerInSVG. local_auto. Qed.

Lemma local_getRoundCornerSVG k e r v :
  local k (fun _ => True) (getRoundCornerSVG e r v).
Proof. unfold getRoundCornerSVG. local_auto. Qed.

Hint Resolve local_Element_any local_getPointSVG local_getLineSVG
  local_getSVGPathElement local_getArrowMarkerElement
  local_getSVGTextElement local_isPointInSVG local_isLineInSVG
  local_isRoundCornerInSVG local_getRoundCornerSVG : local_db.

Lemma local_or_not k b m :
  local k (fun _ => True) m -> local k (fun _ => True) (or_not b m).
Proof. intros H. unfold or_not. local_auto. Qed.

Lemma local_or_else k a b :
  local k (fun _ => True) a -> local k (fun _ => True) b ->
  local k (fun _ => True) (or_else a b).
Proof. intros Ha Hb. unfold or_else. local_auto. Qed.

Hint Resolve local_or_not local_or_else : local_db.

Lemma local_getLineDimensionsData k p1 p2 t hx hy vx vy :
  local k (fun _ => True) (getLineDimensionsData p1 p2 t hx hy vx vy).
Proof. unfold getLineDimensionsData. local_auto. Qed.

Hint Resolve local_getLineDimensionsData : local_db.

Lemma local_loop {A} k (l : list A) body (s : bool) :
  (forall a s, local k (fun _ => True) (body a s)) ->
  local k (fun _ => True) (for_each l body s).
Proof. intros H. apply local_for_each; auto. Qed.

(** The three builders leave every element that existed before the call
    as it was. *)
Lemma local_getStirrupSVGData k rebar view_plane rebars_svg :
  local k (fun _ => True) (getStirrupSVGData rebar view_plane rebars_svg).
Proof.
  unfold getStirrupSVGData.
  eapply local_bind; [apply local_Element|intros stirrup_svg Hs].
  destruct (face_on rebar view_plane).
  - eapply local_bind with (Q := fun _ => True); [local_leaf|intros w _].
    eapply local_bind with (Q := fun _ => True); [|local_auto].
    apply local_loop. intros e s. unfold stirrup_edge. local_auto.
  - eapply local_bind with (Q := fun _ => True); [local_leaf|intros w _].
    eapply local_bind with (Q := fun _ => True); [|local_auto].
    apply local_loop. intros e s. unfold stirrup_placement. local_auto.
Qed.

Lemma local_ushape_circle_edge k rebar view_plane rebars_svg u e s :
  k <= u ->
  local k (fun _ => True)
    (ushape_circle_edge rebar view_plane rebars_svg u e s).
Proof. intros Hu. unfold ushape_circle_edge. local_auto. Qed.

Lemma local_getUShapeRebarSVGData k rebar view_plane rebars_svg :
  local k (fun _ => True) (getUShapeRebarSVGData rebar view_plane rebars_svg).
Proof.
  unfold getUShapeRebarSVGData.
  eapply local_bind; [apply local_Element|intros u Hu].
  pose proof (fun e s =>
    local_ushape_circle_edge k rebar view_plane rebars_svg u e s Hu) as Hc.
  destruct (face_on rebar view_plane).
  - eapply local_bind with (Q := fun _ => True); [local_leaf|intros w _].
    eapply local_bind with (Q := fun _ => True); [|local_auto].
    apply local_loop. intros e s. unfold ushape_edge. local_auto.
  - eapply local_bind with (Q := fun _ => True); [local_leaf|intros w _].
    eapply local_bind with (Q := fun _ => True); [|local_auto].
    apply local_loop. intros pl s. unfold ushape_placement.
    apply local_loop. intros e s'. unfold ushape_side_edge. local_auto.
Qed.

Lemma local_getStraightRebarSVGData k rebar view_plane hx hy vx vy rebars_svg :
  local k (fun _ => True)
    (getStraightRebarSVGData rebar view_plane hx hy vx vy rebars_svg).
Proof.
  unfold getStraightRebarSVGData.
  eapply local_bind; [apply local_Element|intros g Hg].
  destruct (face_on rebar view_plane).
  - local_auto.
  - eapply local_bind with (Q := fun _ => True); [local_leaf|intros w _].
    eapply local_bind with (Q := fun _ => True); [|local_auto].
    apply local_loop. intros pl s. unfold straight_placement. local_auto.
Qed.

End LocalBuilders.

(** ** Computations under which the store only grows *)

Section Mono.
Context `{E : External}.
Local Open Scope nat_scope.

Definition mono {A} (m : M A) : Prop :=
  forall σ a σ', m σ = Ok (a, σ') -> grows σ σ'.

(** What a local computation leaves is the old store followed by the
    elements it allocated. *)
Lemma local_app {A} (P : A -> Prop) m σ a σ' :
  (forall k, local k P m) -> m σ = Ok (a, σ') ->
  σ' = σ ++ drop (length σ) σ'.
Proof.
  intros H Hm. destruct (H (length σ) σ a σ' ltac:(lia) Hm) as (_ & Ht & _).
  rewrite firstn_all in Ht. rewrite <- Ht at 1. by rewrite take_drop.
Qed.

Lemma mono_local {A} (P : A -> Prop) m : (forall k, local k P m) -> mono m.
Proof.
  intros H σ a σ' Hm. rewrite (local_app P m σ a σ' H Hm).
  apply grows_app.
Qed.

Lemma mono_ret {A} (a : A) : mono (ElementTree.ret a).
Proof. intros σ b σ' [= <- <-]. apply grows_refl. Qed.

Lemma mono_bind {A B} (m : M A) (f : A -> M B) :
  mono m -> (forall a, mono (f a)) -> mono (ElementTree.bind m f).
Proof.
  intros Hm Hf σ b σ' Hrun. unfold ElementTree.bind in Hrun.
  destruct (m σ) as [[a σ1]|] eqn:Em; [|done].
  eapply grows_trans; [by eapply Hm|by eapply Hf].
Qed.

Lemma mono_append p c : mono (append p c).
Proof. intros σ [] σ' [= <-]. apply grows_add_child. Qed.

Lemma mono_Element t a : mono (Element t a).
Proof. intros σ r σ' [= <- <-]. apply grows_app. Qed.

Lemma mono_for_each {A S} (l : list A) (body : A -> S -> M S) s :
  (forall a s, mono (body a s)) -> mono (for_each l body s).
Proof.
  intros H. revert s. induction l as [|a l IH]; intros s; simpl.
  - apply mono_ret.
  - apply mono_bind; [apply H|apply IH].
Qed.

Lemma mono_fromstring s : mono (fromstring s).
Proof.
  unfold fromstring. destruct (ElementTree_fromstring s) as [x|].
  - apply (mono_local (fun _ => True)). intros k.
    eapply local_weaken; [apply local_build|done].
  - intros σ a σ' [=].
Qed.

Lemma mono_category_group rebars_svg id : mono (category_group rebars_svg id).
Proof.
  unfold category_group. apply mono_bind; [apply mono_Element|].
  intros g. apply mono_bind; [apply mono_append|]. intros _. apply mono_ret.
Qed.

Lemma mono_getStirrupSVGData rebar view_plane rebars_svg :
  mono (getStirrupSVGData rebar view_plane rebars_svg).
Proof.
  eapply mono_local. intros k. apply local_getStirrupSVGData.
Qed.

Lemma mono_getUShapeRebarSVGData rebar view_plane rebars_svg :
  mono (getUShapeRebarSVGData rebar view_plane rebars_svg).
Proof.
  eapply mono_local. intros k. apply local_getUShapeRebarSVGData.
Qed.

Lemma mono_getStraightRebarSVGData rebar view_plane hx hy vx vy rebars_svg :
  mono (getStraightRebarSVGData rebar view_plane hx hy vx vy rebars_svg).
Proof.
  eapply mono_local. intros k. apply local_getStraightRebarSVGData.
Qed.

Lemma mono_shape_step builder view_plane rebars_svg group rebar u :
  (forall r v s, mono (builder r v s)) ->
  mono (shape_step builder view_plane rebars_svg group rebar u).
Proof.
  intros Hb. unfold shape_step. apply mono_bind; [apply Hb|].
  intros [svg_ [|]]; [|apply mono_ret].
  apply mono_bind; [apply mono_append|]. intros _. apply mono_ret.
Qed.

Lemma mono_straight_step view_plane hx vy rebars_svg group rebar offsets :
  mono (straight_step view_plane hx vy rebars_svg group rebar offsets).
Proof.
  unfold straight_step.
  apply mono_bind; [apply mono_getStraightRebarSVGData|].
  intros d. destruct (visibility d); [|apply mono_ret].
  apply mono_bind; [apply mono_append|]. intros _. apply mono_ret.
Qed.

Lemma mono_exported_step view_plane group rebar u :
  mono (exported_step view_plane group rebar u).
Proof.
  unfold exported_step. apply mono_bind; [apply mono_fromstring|].
  intros r. apply mono_bind; [apply mono_append|]. intros _. apply mono_ret.
Qed.

Lemma mono_rebars_pass c view_plane ext rd :
  mono (rebars_pass c view_plane ext rd).
Proof.
  unfold rebars_pass.
  repeat first
    [ apply mono_ret
    | apply mono_Element
    | apply mono_append
    | apply mono_category_group
    | apply mono_for_each; intros ? ?
    | apply mono_shape_step; intros ? ? ?
    | apply mono_getStirrupSVGData
    | apply mono_getUShapeRebarSVGData
    | apply mono_straight_step
    | apply mono_exported_step
    | apply mono_bind; [|intros ?] ].
Qed.

End Mono.

(** ** Running computations step by step *)

Section Running.
Local Open Scope nat_scope.

Lemma bind_Ok {A B} (m : M A) (f : A -> M B) σ b σ' :
  ElementTree.bind m f σ = Ok (b, σ') <->
  exists a σ1, m σ = Ok (a, σ1) /\ f a σ1 = Ok (b, σ').
Proof.
  unfold ElementTree.bind. split.
  - destruct (m σ) as [[a σ1]|]; [|done]. intros H. by exists a, σ1.
  - intros (a & σ1 & -> & H). done.
Qed.

Lemma bind_run {A B} (m : M A) (f : A -> M B) σ a σ1 :
  m σ = Ok (a, σ1) -> ElementTree.bind m f σ = f a σ1.
Proof. unfold ElementTree.bind. by intros ->. Qed.

Lemma lift_Ok {A} (r : result A) σ a σ' :
  lift r σ = Ok (a, σ') <-> r = Ok a /\ σ' = σ.
Proof.
  unfold lift. destruct r; split; try done.
  - by intros [= <- <-].
  - by intros [[= <-] ->].
  - by intros [? _].
Qed.

(** Allocation and update on a store written [σ ++ l]: the old part [σ]
    stays out of the way. *)
Lemma Element_app t a σ l :
  Element t a (σ ++ l)
  = Ok (length σ + length l, σ ++ (l ++ [mkNode t a None []])).
Proof. unfold Element. by rewrite length_app, app_assoc. Qed.

Lemma new_node_app n σ l :
  new_node n (σ ++ l) = Ok (length σ + length l, σ ++ (l ++ [n])).
Proof. unfold new_node. by rewrite length_app, app_assoc. Qed.

Lemma append_app i c σ l :
  append (length σ + i) c (σ ++ l)
  = Ok (tt, σ ++ alter (add_child c) i l).
Proof. unfold append. by rewrite alter_app_r. Qed.

Lemma set_app i k v σ l :
  ElementTree.set (length σ + i) k v (σ ++ l)
  = Ok (tt, σ ++ alter (set_attrib k v) i l).
Proof. unfold ElementTree.set. by rewrite alter_app_r. Qed.

Lemma attr_get_set_eq k v a : attr_get k (attr_set k v a) = Some v.
Proof.
  induction a as [|[k' v'] a IH]; simpl.
  - by rewrite String.eqb_refl.
  - destruct (String.eqb k k') eqn:Ek; simpl; rewrite ?String.eqb_refl, ?Ek;
      done.
Qed.

Lemma attr_get_set_ne k k' v a :
  k <> k' -> attr_get k (attr_set k' v a) = attr_get k a.
Proof.
  intros Hne. induction a as [|[k2 v2] a IH]; simpl.
  - by apply String.eqb_neq in Hne as ->.
  - destruct (String.eqb k' k2) eqn:Ek; simpl.
    + apply String.eqb_eq in Ek as <-.
      by apply String.eqb_neq in Hne as ->.
    + by rewrite IH.
Qed.

End Running.

(** Split a run [m >>= f = Ok _] in a hypothesis into its two parts. *)
Ltac inv_bind H :=
  let a := fresh "a" in
  let σ1 := fresh "σ" in
  let H1 := fresh "Hrun" in
  apply bind_Ok in H as (a & σ1 & H1 & H).

(** ** The view planes *)

(** The table of the named views as the specification documents it:
    for each name the axis, then [u], then [v]. *)
Definition documented_views : list (string * (Vector * Vector * Vector)) :=
  [ ("Front",  (Vec 0 (-1) 0, Vec 1 0 0,    Vec 0 0 (-1)));
    ("Rear",   (Vec 0 1 0,    Vec (-1) 0 0, Vec 0 0 (-1)));
    ("Left",   (Vec (-1) 0 0, Vec 0 (-1) 0, Vec 0 0 (-1)));
    ("Right",  (Vec 1 0 0,    Vec 0 1 0,    Vec 0 0 (-1)));
    ("Top",    (Vec 0 0 1,    Vec 1 0 0,    Vec 0 (-1) 0));
    ("Bottom", (Vec 0 0 (-1), Vec 1 0 0,    Vec 0 1 0)) ].

Fixpoint documented_view (view : string)
    (table : list (string * (Vector * Vector * Vector)))
    : option (Vector * Vector * Vector) :=
  match table with
  | [] => None
  | (name, triple) :: table' =>
      if String.eqb view name then Some triple
      else documented_view view table'
  end.

(** C8: for each of the six named views [getViewPlane] returns a plane with
    exactly the documented axis, u and v and prints nothing; for every
    other name it prints the error message and returns [None]. *)
Theorem getViewPlane_documented (view : string) :
  match documented_view view documented_views with
  | Some (axis, u, v) =>
      exists plane,
        getViewPlane view = (Some plane, [])
        /\ WorkingPlane.axis plane = axis
        /\ WorkingPlane.u plane = u
        /\ WorkingPlane.v plane = v
  | None => getViewPlane view = (None, [invalid_view_message])
  end.
Proof.
  unfold getViewPlane, documented_views, documented_view.
  repeat
    match goal with
    | |- context [String.eqb view ?s] =>
        destruct (String.eqb view s); [eexists; by repeat split|]
    end.
  reflexivity.
Qed.

(** ** The builders seen face-on, edge by edge

    What a builder allocates for an edge and whether the edge makes the
    rebar visible are pure functions of the store at the call: the builder
    only adds elements after those of the caller, and the accumulated SVG
    does not reach them. *)

Section Items.
Context `{E : External}.
Local Open Scope nat_scope.

(** The element of [getLineSVG]. *)
Definition line_node (p1 p2 : Vector) : Node :=
  mkNode "line"
    [("x1", rounded (FreeCAD.x p1)); ("y1", rounded (FreeCAD.y p1));
     ("x2", rounded (FreeCAD.x p2)); ("y2", rounded (FreeCAD.y p2));
     ("style", "stroke:#000000")] None [].

(** The element of [getPointSVG]. *)
Definition point_node (point : Vector) (radius : Q) : Node :=
  mkNode "circle"
    [("cx", rounded (FreeCAD.x point)); ("cy", rounded (FreeCAD.y point));
     ("r", float_str radius)] None [].

(** The [d] attribute written by [getRoundCornerSVG]. *)
Definition corner_d (edge : Edge.t) (radius : Q) (view_plane : Plane)
    (p1 p2 : Vector) : string :=
  round_corner_d (Py.round (FreeCAD.x p1)) (Py.round (FreeCAD.y p1))
    (Py.round radius) (Py.Int (sweep_flag edge view_plane))
    (Py.round (FreeCAD.x p2)) (Py.round (FreeCAD.y p2)).

(** The [d] attribute of the second query of [isRoundCornerInSVG]. *)
Definition corner_d_reversed (edge : Edge.t) (radius : Q)
    (view_plane : Plane) (p1 p2 : Vector) : string :=
  round_corner_d (Py.round (FreeCAD.x p2)) (Py.round (FreeCAD.y p2))
    (Py.round radius) (Py.Bool (Py.not_int (sweep_flag edge view_plane)))
    (Py.round (FreeCAD.x p1)) (Py.round (FreeCAD.y p1)).

(** The element of [getRoundCornerSVG]. *)
Definition corner_node (edge : Edge.t) (radius : Q) (view_plane : Plane)
    (p1 p2 : Vector) : Node :=
  mkNode "path"
    [("style", "stroke:#000000;fill:none");
     ("d", corner_d edge radius view_plane p1 p2)] None [].

(** The answers of the three containment tests on a store. *)
Definition line_in (σ : Store) (svg : ref) (p1 p2 : Vector) : bool :=
  bool_decide
    (is_Some
       (find_in σ svg "line"
          [("x1", rounded (FreeCAD.x p1)); ("y1", rounded (FreeCAD.y p1));
           ("x2", rounded (FreeCAD.x p2)); ("y2", rounded (FreeCAD.y p2))]))
  || bool_decide
       (is_Some
          (find_in σ svg "line"
             [("x1", rounded (FreeCAD.x p2)); ("y1", rounded (FreeCAD.y p2));
              ("x2", rounded (FreeCAD.x p1)); ("y2", rounded (FreeCAD.y p1))])).

Definition point_in (σ : Store) (svg : ref) (point : Vector) : bool :=
  bool_decide
    (is_Some
       (find_in σ svg "circle"
          [("cx", rounded (FreeCAD.x point));
           ("cy", rounded (FreeCAD.y point))])).

Definition corner_in (σ : Store) (svg : ref) (edge : Edge.t) (radius : Q)
    (view_plane : Plane) (p1 p2 : Vector) : bool :=
  bool_decide
    (is_Some
       (find_in σ svg "path"
          [("d", corner_d edge radius view_plane p1 p2)]))
  || bool_decide
       (is_Some
          (find_in σ svg "path"
             [("d", corner_d_reversed edge radius view_plane p1 p2)])).

Lemma isLineInSVG_run p1 p2 svg σ :
  isLineInSVG p1 p2 svg σ = Ok (line_in σ svg p1 p2, σ).
Proof.
  unfold isLineInSVG, line_in, find, read, ElementTree.bind, ElementTree.ret.
  repeat case_bool_decide; reflexivity.
Qed.

Lemma isPointInSVG_run p svg σ :
  isPointInSVG p svg σ = Ok (point_in σ svg p, σ).
Proof. reflexivity. Qed.

Lemma isRoundCornerInSVG_run edge radius view_plane svg σ p1 p2 :
  edge_points edge view_plane = Ok (p1, p2) ->
  isRoundCornerInSVG edge radius view_plane svg σ
  = Ok (corner_in σ svg edge radius view_plane p1 p2, σ).
Proof.
  unfold edge_points, isRoundCornerInSVG, corner_in, corner_d,
    corner_d_reversed, find, read, lift, ElementTree.bind, ElementTree.ret.
  destruct (py_index (Edge.Vertexes edge) 0) as [v0|]; [|done].
  destruct (py_index (Edge.Vertexes edge) 1) as [v1|]; [|done].
  intros [= <- <-]. repeat case_bool_decide; reflexivity.
Qed.

Lemma isRoundCornerInSVG_raise edge radius view_plane svg σ e :
  edge_points edge view_plane = Raise e ->
  isRoundCornerInSVG edge radius view_plane svg σ = Raise e.
Proof.
  unfold edge_points, isRoundCornerInSVG, lift, ElementTree.bind.
  destruct (py_index (Edge.Vertexes edge) 0) as [v0|]; [|by intros [= <-]].
  destruct (py_index (Edge.Vertexes edge) 1) as [v1|]; [done|by intros [= <-]].
Qed.

Lemma line_in_app σ l svg p1 p2 :
  wf σ -> svg < length σ -> line_in (σ ++ l) svg p1 p2 = line_in σ svg p1 p2.
Proof. intros Hwf Hs. unfold line_in. by rewrite !find_in_app. Qed.

Lemma point_in_app σ l svg p :
  wf σ -> svg < length σ -> point_in (σ ++ l) svg p = point_in σ svg p.
Proof. intros Hwf Hs. unfold point_in. by rewrite !find_in_app. Qed.

Lemma corner_in_app σ l svg edge radius view_plane p1 p2 :
  wf σ -> svg < length σ ->
  corner_in (σ ++ l) svg edge radius view_plane p1 p2
  = corner_in σ svg edge radius view_plane p1 p2.
Proof. intros Hwf Hs. unfold corner_in. by rewrite !find_in_app. Qed.

Lemma getLineSVG_app p1 p2 σ l :
  getLineSVG p1 p2 (σ ++ l)
  = Ok (length σ + length l, σ ++ (l ++ [line_node p1 p2])).
Proof. apply Element_app. Qed.

Lemma getPointSVG_app p r σ l :
  getPointSVG p r (σ ++ l)
  = Ok (length σ + length l, σ ++ (l ++ [point_node p r])).
Proof. apply Element_app. Qed.

Lemma alter_last {A} (f : A -> A) (l : list A) (a : A) :
  alter f (length l) (l ++ [a]) = l ++ [f a].
Proof.
  replace (length l) with (length l + 0) by lia.
  by rewrite alter_app_r.
Qed.

Lemma getRoundCornerSVG_app edge radius view_plane σ l p1 p2 :
  edge_points edge view_plane = Ok (p1, p2) ->
  getRoundCornerSVG edge radius view_plane (σ ++ l)
  = Ok (length σ + length l,
        σ ++ (l ++ [corner_node edge radius view_plane p1 p2])).
Proof.
  unfold edge_points, getRoundCornerSVG, lift.
  destruct (py_index (Edge.Vertexes edge) 0) as [v0|]; [|done].
  destruct (py_index (Edge.Vertexes edge) 1) as [v1|]; [|done].
  intros [= <- <-].
  unfold ElementTree.bind at 1 2. rewrite (bind_run _ _ _ _ _ (Element_app _ _ _ _)).
  rewrite <- (length_app σ l).
  unfold ElementTree.bind, ElementTree.set, ElementTree.ret.
  rewrite app_assoc, !alter_last, <- app_assoc. reflexivity.
Qed.

Lemma getRoundCornerSVG_raise edge radius view_plane σ e :
  edge_points edge view_plane = Raise e ->
  getRoundCornerSVG edge radius view_plane σ = Raise e.
Proof.
  unfold edge_points, getRoundCornerSVG, lift, ElementTree.bind.
  destruct (py_index (Edge.Vertexes edge) 0) as [v0|]; [|by intros [= <-]].
  destruct (py_index (Edge.Vertexes edge) 1) as [v1|]; [done|by intros [= <-]].
Qed.

End Items.

(** ** Rewriting a run on a store written [σ ++ l] *)

Section RunRules.
Context `{E : External}.
Local Open Scope nat_scope.

Lemma run_ret {A B} (a : A) (f : A -> M B) σ :
  ElementTree.bind (ElementTree.ret a) f σ = f a σ.
Proof. reflexivity. Qed.

Lemma run_assoc {A B C} (m : M A) (g : A -> M B) (f : B -> M C) σ :
  ElementTree.bind (ElementTree.bind m g) f σ
  = ElementTree.bind m (fun a => ElementTree.bind (g a) f) σ.
Proof. unfold ElementTree.bind. by destruct (m σ) as [[a σ1]|]. Qed.

Lemma bind_raise {A B} (m : M A) (f : A -> M B) σ e :
  m σ = Raise e -> ElementTree.bind m f σ = Raise e.
Proof. unfold ElementTree.bind. by intros ->. Qed.

Lemma run_lift_Ok {A B} (a : A) (f : A -> M B) σ :
  ElementTree.bind (lift (Ok a)) f σ = f a σ.
Proof. reflexivity. Qed.

Lemma run_lift_Raise {A B} e (f : A -> M B) σ :
  ElementTree.bind (lift (Raise e)) f σ = Raise e.
Proof. reflexivity. Qed.

Lemma run_Element {B} t a (f : ref -> M B) σ l :
  ElementTree.bind (Element t a) f (σ ++ l)
  = f (length σ + length l) (σ ++ (l ++ [mkNode t a None []])).
Proof. apply bind_run, Element_app. Qed.

Lemma run_append {B} i c (f : unit -> M B) σ l :
  ElementTree.bind (append (length σ + i) c) f (σ ++ l)
  = f tt (σ ++ alter (add_child c) i l).
Proof. apply bind_run, append_app. Qed.

Lemma run_set {B} i k v (f : unit -> M B) σ l :
  ElementTree.bind (ElementTree.set (length σ + i) k v) f (σ ++ l)
  = f tt (σ ++ alter (set_attrib k v) i l).
Proof. apply bind_run, set_app. Qed.

Lemma run_getLineSVG {B} p1 p2 (f : ref -> M B) σ l :
  ElementTree.bind (getLineSVG p1 p2) f (σ ++ l)
  = f (length σ + length l) (σ ++ (l ++ [line_node p1 p2])).
Proof. apply bind_run, getLineSVG_app. Qed.

Lemma run_getPointSVG {B} p r (f : ref -> M B) σ l :
  ElementTree.bind (getPointSVG p r) f (σ ++ l)
  = f (length σ + length l) (σ ++ (l ++ [point_node p r])).
Proof. apply bind_run, getPointSVG_app. Qed.

Lemma run_getRoundCornerSVG {B} edge radius view_plane p1 p2
    (f : ref -> M B) σ l :
  edge_points edge view_plane = Ok (p1, p2) ->
  ElementTree.bind (getRoundCornerSVG edge radius view_plane) f (σ ++ l)
  = f (length σ + length l)
      (σ ++ (l ++ [corner_node edge radius view_plane p1 p2])).
Proof. intros H. by apply bind_run, getRoundCornerSVG_app. Qed.

Lemma run_isLineInSVG {B} p1 p2 svg (f : bool -> M B) σ :
  ElementTree.bind (isLineInSVG p1 p2 svg) f σ = f (line_in σ svg p1 p2) σ.
Proof. apply bind_run, isLineInSVG_run. Qed.

Lemma run_isPointInSVG {B} p svg (f : bool -> M B) σ :
  ElementTree.bind (isPointInSVG p svg) f σ = f (point_in σ svg p) σ.
Proof. apply bind_run, isPointInSVG_run. Qed.

Lemma run_isRoundCornerInSVG {B} edge radius view_plane p1 p2 svg
    (f : bool -> M B) σ :
  edge_points edge view_plane = Ok (p1, p2) ->
  ElementTree.bind (isRoundCornerInSVG edge radius view_plane svg) f σ
  = f (corner_in σ svg edge radius view_plane p1 p2) σ.
Proof. intros H. by apply bind_run, isRoundCornerInSVG_run. Qed.

Lemma run_or_not {B} b (test : M bool) (f : bool -> M B) σ :
  ElementTree.bind (or_not b test) f σ
  = if b then f true σ
    else ElementTree.bind test (fun found => f (negb found)) σ.
Proof. unfold or_not. destruct b; [done|]. by rewrite run_assoc. Qed.

End RunRules.

(** Push the run through the next primitives. *)
Ltac run :=
  repeat first
    [ rewrite run_ret
    | rewrite run_assoc
    | rewrite run_lift_Ok
    | rewrite run_lift_Raise
    | rewrite run_Element
    | rewrite run_append
    | rewrite run_set
    | rewrite run_getLineSVG
    | rewrite run_getPointSVG
    | rewrite run_isLineInSVG
    | rewrite run_isPointInSVG
    | rewrite run_or_not
    | erewrite run_getRoundCornerSVG by eassumption
    | erewrite run_isRoundCornerInSVG by eassumption
    | rewrite line_in_app by assumption
    | rewrite point_in_app by assumption
    | rewrite corner_in_app by assumption ].

Section FaceOn.
Context `{E : External}.
Local Open Scope nat_scope.

(** What one edge contributes to the fragment: the element built for it,
    and whether the edge by itself makes the rebar visible. *)
Abbreviation Item := (Node * bool)%type.

(** The edges seen by the loop of the stirrup builder (lines 298-317). *)
Definition stirrup_item (σ : Store) (rebars_svg : ref) (rebar : Rebar.t)
    (view_plane : Plane) (edge : Edge.t) : result (option Item) :=
  let radius := (Rebar.Rounding rebar * Rebar.Diameter rebar)%Q in
  if String.eqb (Edge.geomType edge) "Line" then
    match edge_points edge view_plane with
    | Ok (p1, p2) =>
        Ok (Some (line_node p1 p2, negb (line_in σ rebars_svg p1 p2)))
    | Raise e => Raise e
    end
  else if String.eqb (Edge.geomType edge) "Circle" then
    match edge_points edge view_plane with
    | Ok (p1, p2) =>
        Ok (Some (corner_node edge radius view_plane p1 p2,
                  negb (corner_in σ rebars_svg edge radius view_plane p1 p2)))
    | Raise e => Raise e
    end
  else Ok None.

(** The edges seen by the face-on loop of the U-shape builder
    (lines 363-397). *)
Definition ushape_item (σ : Store) (rebars_svg : ref) (rebar : Rebar.t)
    (view_plane : Plane) (edge : Edge.t) : result (option Item) :=
  let radius := (Rebar.Rounding rebar * Rebar.Diameter rebar)%Q in
  if String.eqb (Edge.geomType edge) "Line" then
    match edge_points edge view_plane with
    | Ok (p1, p2) =>
        if same_rounded (FreeCAD.x p1) (FreeCAD.x p2)
           && same_rounded (FreeCAD.y p1) (FreeCAD.y p2)
        then
          Ok (Some (point_node p1
                      (SVG_POINT_DIA_FACTOR * Rebar.Diameter rebar)%Q,
                    false))
        else Ok (Some (line_node p1 p2, negb (line_in σ rebars_svg p1 p2)))
    | Raise e => Raise e
    end
  else if String.eqb (Edge.geomType edge) "Circle" then
    match edge_points edge view_plane with
    | Ok (p1, p2) =>
        if same_rounded (FreeCAD.x p1) (FreeCAD.x p2)
           || same_rounded (FreeCAD.y p1) (FreeCAD.y p2)
        then Ok (Some (line_node p1 p2, negb (line_in σ rebars_svg p1 p2)))
        else
          Ok (Some (corner_node edge radius view_plane p1 p2,
                    negb (corner_in σ rebars_svg edge radius view_plane
                            p1 p2)))
    | Raise e => Raise e
    end
  else Ok None.

(** The items of a list of edges, or the first exception. *)
Fixpoint collect (item : Edge.t -> result (option Item))
    (edges : list Edge.t) : result (list Item) :=
  match edges with
  | [] => Ok []
  | edge :: edges' =>
      match item edge with
      | Raise e => Raise e
      | Ok o =>
          match collect item edges' with
          | Raise e => Raise e
          | Ok items =>
              Ok (match o with Some it => it :: items | None => items end)
          end
      end
  end.

(** One turn of a loop on the elements [l] the builder has allocated so
    far, the fragment first: the element of the edge is allocated, and it
    is appended to the fragment when the rebar is or becomes visible. *)
Definition emit (base : nat) (st : bool * list Node) (it : Item)
    : bool * list Node :=
  let visible := st.1 || it.2 in
  (visible,
   if visible then alter (add_child (base + length st.2)) 0 (st.2 ++ [it.1])
   else st.2 ++ [it.1]).

Definition emit_all (base : nat) (st : bool * list Node) (items : list Item)
    : bool * list Node :=
  foldl (emit base) st items.

Lemma stirrup_edge_run σ rebars_svg rebar view_plane edge visible l :
  wf σ -> rebars_svg < length σ ->
  stirrup_edge rebar view_plane rebars_svg (length σ + 0) edge visible (σ ++ l)
  = match stirrup_item σ rebars_svg rebar view_plane edge with
    | Raise e => Raise e
    | Ok None => Ok (visible, σ ++ l)
    | Ok (Some it) =>
        let st := emit (length σ) (visible, l) it in Ok (st.1, σ ++ st.2)
    end.
Proof.
  intros Hwf Hsvg. unfold stirrup_edge, stirrup_item, emit.
  destruct (String.eqb (Edge.geomType edge) "Line").
  { destruct (edge_points edge view_plane) as [[p1 p2]|e] eqn:Hp; [|done].
    run. destruct visible; simpl; run; [done|].
    destruct (line_in σ rebars_svg p1 p2); simpl; run; done. }
  destruct (String.eqb (Edge.geomType edge) "Circle"); [|done].
  destruct (edge_points edge view_plane) as [[p1 p2]|e] eqn:Hp.
  - run. destruct visible; simpl; run; [done|].
    destruct (corner_in σ rebars_svg edge _ view_plane p1 p2); simpl; run; done.
  - by rewrite (bind_raise _ _ _ _ (getRoundCornerSVG_raise _ _ _ _ _ Hp)).
Qed.

Lemma ushape_edge_run σ rebars_svg rebar view_plane edge visible l :
  wf σ -> rebars_svg < length σ ->
  ushape_edge rebar view_plane rebars_svg (length σ + 0) edge visible (σ ++ l)
  = match ushape_item σ rebars_svg rebar view_plane edge with
    | Raise e => Raise e
    | Ok None => Ok (visible, σ ++ l)
    | Ok (Some it) =>
        let st := emit (length σ) (visible, l) it in Ok (st.1, σ ++ st.2)
    end.
Proof.
  intros Hwf Hsvg.
  unfold ushape_edge, ushape_circle_edge, ushape_item, emit.
  destruct (String.eqb (Edge.geomType edge) "Line").
  { destruct (edge_points edge view_plane) as [[p1 p2]|e] eqn:Hp; [|done].
    run.
    destruct (same_rounded (FreeCAD.x p1) (FreeCAD.x p2)
              && same_rounded (FreeCAD.y p1) (FreeCAD.y p2)); run.
    - destruct visible; simpl; run; done.
    - destruct visible, (line_in σ rebars_svg p1 p2); simpl; run; done. }
  destruct (String.eqb (Edge.geomType edge) "Circle"); [|done].
  destruct (edge_points edge view_plane) as [[p1 p2]|e] eqn:Hp; [|done].
  run.
  destruct (same_rounded (FreeCAD.x p1) (FreeCAD.x p2)
            || same_rounded (FreeCAD.y p1) (FreeCAD.y p2)); run.
  - destruct visible, (line_in σ rebars_svg p1 p2); simpl; run; done.
  - destruct visible, (corner_in σ rebars_svg edge _ view_plane p1 p2);
      simpl; run; done.
Qed.

(** A loop whose body behaves as [emit] on every edge behaves as
    [emit_all] on the list. *)
Lemma loop_run σ (body : Edge.t -> bool -> M bool)
    (item : Edge.t -> result (option Item)) :
  (forall edge visible l,
     body edge visible (σ ++ l)
     = match item edge with
       | Raise e => Raise e
       | Ok None => Ok (visible, σ ++ l)
       | Ok (Some it) =>
           let st := emit (length σ) (visible, l) it in Ok (st.1, σ ++ st.2)
       end) ->
  forall edges visible l,
    for_each edges body visible (σ ++ l)
    = match collect item edges with
      | Raise e => Raise e
      | Ok items =>
          let st := emit_all (length σ) (visible, l) items in
          Ok (st.1, σ ++ st.2)
      end.
Proof.
  intros Hbody. induction edges as [|edge edges IH]; intros visible l.
  - reflexivity.
  - simpl. unfold ElementTree.bind. rewrite Hbody.
    destruct (item edge) as [[it|]|e]; [| |done].
    + simpl. rewrite IH. by destruct (collect item edges).
    + rewrite IH. by destruct (collect item edges).
Qed.

(** The fragment a builder starts from. *)
Definition fragment (rebar : Rebar.t) : Node :=
  mkNode "g" [("id", Rebar.Name rebar)] None [].

(** The stirrup builder on a rebar seen face-on, as a whole. *)
Lemma getStirrupSVGData_face_on σ rebars_svg rebar view_plane wire0 :
  wf σ -> rebars_svg < length σ ->
  face_on rebar view_plane = true ->
  py_index (Shape.Wires (BaseObject.Shape (Rebar.Base rebar))) 0 = Ok wire0 ->
  getStirrupSVGData rebar view_plane rebars_svg σ
  = match collect (stirrup_item σ rebars_svg rebar view_plane)
            (sorted_fillet_edges wire0 rebar) with
    | Raise e => Raise e
    | Ok items =>
        let st := emit_all (length σ) (false, [fragment rebar]) items in
        Ok ((length σ, st.1), σ ++ st.2)
    end.
Proof.
  intros Hwf Hsvg Hface Hwire. unfold getStirrupSVGData.
  rewrite Hface, Hwire. rewrite <- (app_nil_r σ) at 1. run. simpl.
  rewrite Nat.add_0_r. rewrite <- (Nat.add_0_r (length σ)) at 1.
  unfold ElementTree.bind.
  rewrite (loop_run σ _ _ (fun e v l =>
             stirrup_edge_run σ rebars_svg rebar view_plane e v l Hwf Hsvg)).
  by destruct (collect _ _).
Qed.

(** The U-shape builder on a rebar seen face-on, as a whole. *)
Lemma getUShapeRebarSVGData_face_on σ rebars_svg rebar view_plane wire0 :
  wf σ -> rebars_svg < length σ ->
  face_on rebar view_plane = true ->
  py_index (Shape.Wires (BaseObject.Shape (Rebar.Base rebar))) 0 = Ok wire0 ->
  getUShapeRebarSVGData rebar view_plane rebars_svg σ
  = match collect (ushape_item σ rebars_svg rebar view_plane)
            (sorted_fillet_edges wire0 rebar) with
    | Raise e => Raise e
    | Ok items =>
        let st := emit_all (length σ) (false, [fragment rebar]) items in
        Ok ((length σ, st.1), σ ++ st.2)
    end.
Proof.
  intros Hwf Hsvg Hface Hwire. unfold getUShapeRebarSVGData.
  rewrite Hface, Hwire. rewrite <- (app_nil_r σ) at 1. run. simpl.
  rewrite Nat.add_0_r. rewrite <- (Nat.add_0_r (length σ)) at 1.
  unfold ElementTree.bind.
  rewrite (loop_run σ _ _ (fun e v l =>
             ushape_edge_run σ rebars_svg rebar view_plane e v l Hwf Hsvg)).
  by destruct (collect _ _).
Qed.

Definition add_children (cs : list ref) (n : Node) : Node :=
  mkNode (tag n) (attrib n) (text n) (children n ++ cs).

(** Once the rebar is visible every later element is appended. *)
Lemma emit_all_visible base F junk items :
  emit_all base (true, F :: junk) items
  = (true,
     add_children (seq (base + S (length junk)) (length items)) F
       :: junk ++ map fst items).
Proof.
  revert F junk. induction items as [|[nd trig] items IH]; intros F junk.
  - simpl. unfold add_children. rewrite !app_nil_r. by destruct F.
  - unfold emit_all in *. simpl.
    change (emit base (true, F :: junk) (nd, trig))
      with (true, add_child (base + S (length junk)) F :: junk ++ [nd]).
    rewrite IH. f_equal.
    rewrite length_app, <- app_assoc. simpl. f_equal.
    unfold add_children, add_child. simpl. rewrite <- app_assoc. simpl.
    do 3 f_equal. f_equal. lia.
Qed.

(** As long as no edge makes the rebar visible nothing is appended. *)
Lemma emit_all_hidden base l items :
  Forall (fun it : Item => it.2 = false) items ->
  emit_all base (false, l) items = (false, l ++ map fst items).
Proof.
  intros H. revert l. induction H as [|[nd trig] items Ht _ IH]; intros l.
  - simpl. by rewrite app_nil_r.
  - simpl in Ht. subst trig. unfold emit_all in *. simpl.
    change (emit base (false, l) (nd, false)) with (false, l ++ [nd]).
    rewrite IH, <- app_assoc. done.
Qed.

Lemma emit_all_app base st items1 items2 :
  emit_all base st (items1 ++ items2)
  = emit_all base (emit_all base st items1) items2.
Proof. apply foldl_app. Qed.

Lemma emit_all_cons base st it items :
  emit_all base st (it :: items) = emit_all base (emit base st it) items.
Proof. reflexivity. Qed.

Lemma emit_trigger base visible F junk nd :
  emit base (visible, F :: junk) (nd, true)
  = (true, add_child (base + S (length junk)) F :: junk ++ [nd]).
Proof. unfold emit. simpl. by rewrite orb_true_r. Qed.

(** The first edge that makes the rebar visible, and all the edges after
    it, are appended; the edges before it are not. *)
Lemma emit_all_first base F junk before nd after :
  Forall (fun it : Item => it.2 = false) before ->
  emit_all base (false, F :: junk) (before ++ (nd, true) :: after)
  = (true,
     add_children
       (seq (base + S (length junk + length before)) (S (length after))) F
       :: junk ++ map fst before ++ nd :: map fst after).
Proof.
  intros H.
  rewrite emit_all_app, (emit_all_hidden _ _ _ H), emit_all_cons.
  change ((F :: junk) ++ map fst before) with (F :: junk ++ map fst before).
  rewrite emit_trigger, emit_all_visible. f_equal.
  rewrite !length_app, length_map, <- !app_assoc. simpl. f_equal.
  unfold add_children, add_child. simpl. rewrite <- app_assoc. simpl.
  replace (base + S (length junk + length before + 1))
    with (S (base + S (length junk + length before))) by lia.
  done.
Qed.

(** The two builders that draw a profile edge by edge. *)
Inductive ProfileBuilder := Stirrup | UShape.

Definition profile_builder (b : ProfileBuilder)
    : Rebar.t -> Plane -> ref -> M (ref * bool) :=
  match b with
  | Stirrup => getStirrupSVGData
  | UShape => getUShapeRebarSVGData
  end.

Definition profile_item (b : ProfileBuilder)
    : Store -> ref -> Rebar.t -> Plane -> Edge.t -> result (option Item) :=
  match b with
  | Stirrup => stirrup_item
  | UShape => ushape_item
  end.

Lemma profile_builder_face_on b σ rebars_svg rebar view_plane wire0 :
  wf σ -> rebars_svg < length σ ->
  face_on rebar view_plane = true ->
  py_index (Shape.Wires (BaseObject.Shape (Rebar.Base rebar))) 0 = Ok wire0 ->
  profile_builder b rebar view_plane rebars_svg σ
  = match collect (profile_item b σ rebars_svg rebar view_plane)
            (sorted_fillet_edges wire0 rebar) with
    | Raise e => Raise e
    | Ok items =>
        let st := emit_all (length σ) (false, [fragment rebar]) items in
        Ok ((length σ, st.1), σ ++ st.2)
    end.
Proof.
  destruct b; [apply getStirrupSVGData_face_on
              |apply getUShapeRebarSVGData_face_on].
Qed.

(** C2, as the code has it: when the first drawn edge of a face-on rebar
    duplicates accumulated geometry and the second is new, the builder
    returns visibility [true] and the fragment holds the elements of the
    second edge and of every edge after it; the element of the first edge
    is allocated next to the fragment but is not one of its children. *)
Theorem first_visible_edge_wins b σ rebars_svg rebar view_plane wire0
    first second rest :
  wf σ -> rebars_svg < length σ ->
  face_on rebar view_plane = true ->
  py_index (Shape.Wires (BaseObject.Shape (Rebar.Base rebar))) 0 = Ok wire0 ->
  collect (profile_item b σ rebars_svg rebar view_plane)
    (sorted_fillet_edges wire0 rebar)
  = Ok ((first, false) :: (second, true) :: rest) ->
  profile_builder b rebar view_plane rebars_svg σ
  = Ok ((length σ, true),
        σ ++ add_children (seq (length σ + 2) (S (length rest)))
               (fragment rebar)
             :: first :: second :: map fst rest).
Proof.
  intros Hwf Hsvg Hface Hwire Hitems.
  rewrite (profile_builder_face_on b σ rebars_svg rebar view_plane wire0)
    by done.
  rewrite Hitems.
  change ((first, false) :: (second, true) :: rest)
    with ([(first, false)] ++ (second, true) :: rest).
  rewrite emit_all_first by (by repeat constructor). simpl.
  by replace (length σ + 2) with (length σ + 1 + 1) by lia.
Qed.

End FaceOn.

(** A checker for [wf] on a given store. *)
Fixpoint wf_from (k len : nat) (l : Store) : bool :=
  match l with
  | [] => true
  | n :: l' =>
      forallb (fun c => Nat.ltb k c && Nat.ltb c len) (children n)
      && wf_from (S k) len l'
  end.

Lemma wf_from_sound k len l :
  wf_from k len l = true ->
  forall i n, l !! i = Some n ->
    Forall (fun c => (k + i < c < len)%nat) (children n).
Proof.
  revert k. induction l as [|m l IH]; intros k H i n Hi; [done|].
  simpl in H. apply andb_true_iff in H as [Hm Hl].
  destruct i as [|i]; simpl in Hi.
  - injection Hi as <-. apply Forall_forall. intros c Hc.
    rewrite forallb_forall in Hm. apply list_elem_of_In in Hc.
    specialize (Hm c Hc). apply andb_true_iff in Hm as [H1 H2].
    apply Nat.ltb_lt in H1, H2. lia.
  - replace (k + S i)%nat with (S k + i)%nat by lia. by eapply IH.
Qed.

Lemma wf_check σ : wf_from 0 (length σ) σ = true -> wf σ.
Proof. intros H r n Hr. exact (wf_from_sound 0 (length σ) σ H r n Hr). Qed.

(** The stirrup of the example on the accumulated drawing: its first edge
    is the line that is already there. *)
Lemma first_visible_edge_wins_witness :
  exists first second,
    getStirrupSVGData (E := Example.kernel) Example.stirrup Example.top 0%nat
      Example.accumulated
    = Ok ((4%nat, true),
          Example.accumulated
          ++ add_children [6%nat] (fragment Example.stirrup)
             :: [first; second]).
Proof.
  eexists _, _.
  eapply (first_visible_edge_wins (E := Example.kernel) Stirrup
            Example.accumulated 0 Example.stirrup Example.top _ _ _ []).
  - apply wf_check. reflexivity.
  - simpl. lia.
  - reflexivity.
  - reflexivity.
  - vm_compute. reflexivity.
Defined.

(** C2, as stated, fails: the stirrup of the example is face-on, its first
    edge duplicates the accumulated line and its second edge is new; the
    fragment returned holds the second edge only. *)
Lemma first_edge_not_in_fragment :
  face_on (E := Example.kernel) Example.stirrup Example.top = true
  /\ line_in Example.accumulated 0 (Vec 0 0 0) (Vec 100 0 0) = true
  /\ line_in Example.accumulated 0 (Vec 100 0 0) (Vec 100 50 0) = false
  /\ match getStirrupSVGData (E := Example.kernel) Example.stirrup
             Example.top 0%nat Example.accumulated with
     | Ok ((fragment, visible), σ') =>
         visible = true
         /\ to_xml (length σ') σ' fragment
            = Some (XElem "g" [("id", "stirrup")] None
                      [XElem "line"
                         [("x1", "100"); ("y1", "0"); ("x2", "100");
                          ("y2", "50"); ("style", "stroke:#000000")]
                         None []])
     | Raise _ => False
     end.
Proof. vm_compute. repeat split; reflexivity. Qed.

(** ** The straight rebar seen face-on *)

Section StraightFaceOn.
Context `{E : External}.
Local Open Scope nat_scope.

(** The elements of [getSVGPathElement] and [getSVGTextElement] as the
    dimension code calls them. *)
Definition leader_node (d : string) : Node :=
  mkNode "path"
    [("d", d); ("marker-start", "url(#start_arrow)");
     ("style", "stroke:#000000")] None [].

Definition label_node (data : string) (x_offset y_offset : Q)
    (text_anchor dominant_baseline : string) : Node :=
  mkNode "text"
    [("x", float_str x_offset); ("y", float_str y_offset);
     ("font-family", "DejaVu Sans"); ("font-size", "10px");
     ("text-anchor", text_anchor);
     ("dominant-baseline", dominant_baseline)] (Some data) [].

(** [dimension_line_horizontal] for a segment. *)
Definition dimension_horizontal (p1 p2 : Vector) : bool :=
  negb (Py.lt (Py.abs (FreeCAD.y p2 - FreeCAD.y p1))
              (Py.abs (FreeCAD.x p2 - FreeCAD.x p1))).

(** The three elements [getLineDimensionsData] allocates from position
    [base] on: the group with its two children, the leader, the label. *)
Definition dimension_nodes (p1 p2 : Vector) (dimension_text : string)
    (h_dim_x h_dim_y v_dim_x v_dim_y : Q) (base : nat)
    : result (list Node) :=
  let group := mkNode "g" [] None [base + 1; base + 2] in
  if dimension_horizontal p1 p2 then
    match py_div ((h_dim_y - FreeCAD.y p1) * (FreeCAD.x p2 - FreeCAD.x p1))
                 (FreeCAD.y p2 - FreeCAD.y p1) with
    | Raise e => Raise e
    | Ok quot =>
        Ok [group;
            leader_node
              ("M" +:+ float_str (quot + FreeCAD.x p1) +:+ " "
               +:+ float_str h_dim_y +:+ " H" +:+ float_str h_dim_x);
            label_node dimension_text h_dim_x h_dim_y "start" "central"]
    end
  else
    match py_div ((v_dim_x - FreeCAD.x p1) * (FreeCAD.y p2 - FreeCAD.y p1))
                 (FreeCAD.x p2 - FreeCAD.x p1) with
    | Raise e => Raise e
    | Ok quot =>
        Ok [group;
            leader_node
              ("M" +:+ float_str v_dim_x +:+ " "
               +:+ float_str (quot + FreeCAD.y p1) +:+ " V"
               +:+ float_str v_dim_y);
            label_node dimension_text v_dim_x v_dim_y "middle" "baseline"]
    end.

Lemma getSVGTextElement_app d x y a b σ l :
  getSVGTextElement d x y "DejaVu Sans" "10px" a b (σ ++ l)
  = Ok (length σ + length l, σ ++ (l ++ [label_node d x y a b])).
Proof. unfold getSVGTextElement. by rewrite length_app, app_assoc. Qed.

Lemma alter_middle {A} (f : A -> A) (l : list A) (a : A) (rest : list A) :
  alter f (length l) (l ++ a :: rest) = l ++ f a :: rest.
Proof.
  replace (length l) with (length l + 0) by lia.
  by rewrite alter_app_r.
Qed.

Lemma getLineDimensionsData_app p1 p2 t hx hy vx vy σ l :
  getLineDimensionsData p1 p2 t hx hy vx vy (σ ++ l)
  = match dimension_nodes p1 p2 t hx hy vx vy (length σ + length l) with
    | Raise e => Raise e
    | Ok nodes =>
        Ok ((length σ + length l, dimension_horizontal p1 p2),
            σ ++ (l ++ nodes))
    end.
Proof.
  unfold getLineDimensionsData, dimension_nodes, dimension_horizontal,
    getSVGPathElement.
  run.
  destruct (Py.lt _ _); simpl.
  - destruct (py_div _ _) as [quot|e]; [|done]. run.
    rewrite (bind_run _ _ _ _ _ (getSVGTextElement_app _ _ _ _ _ _ _)).
    rewrite !length_app. simpl. rewrite <- !app_assoc. simpl. run.
    unfold ElementTree.ret. rewrite !alter_middle. simpl.
    unfold add_child, leader_node. simpl.
    replace (length σ + (length l + 1)) with (length σ + length l + 1)
      by lia.
    replace (length σ + (length l + 1 + 1)) with (length σ + length l + 2)
      by lia.
    done.
  - destruct (py_div _ _) as [quot|e]; [|done]. run.
    rewrite (bind_run _ _ _ _ _ (getSVGTextElement_app _ _ _ _ _ _ _)).
    rewrite !length_app. simpl. rewrite <- !app_assoc. simpl. run.
    unfold ElementTree.ret. rewrite !alter_middle. simpl.
    unfold add_child, leader_node. simpl.
    replace (length σ + (length l + 1)) with (length σ + length l + 1)
      by lia.
    replace (length σ + (length l + 1 + 1)) with (length σ + length l + 2)
      by lia.
    done.
Qed.

Lemma run_getLineDimensionsData {B} p1 p2 t hx hy vx vy
    (f : ref * bool -> M B) σ l :
  ElementTree.bind (getLineDimensionsData p1 p2 t hx hy vx vy) f (σ ++ l)
  = match dimension_nodes p1 p2 t hx hy vx vy (length σ + length l) with
    | Raise e => Raise e
    | Ok nodes =>
        f (length σ + length l, dimension_horizontal p1 p2)
          (σ ++ (l ++ nodes))
    end.
Proof.
  unfold ElementTree.bind at 1. rewrite getLineDimensionsData_app.
  by destruct (dimension_nodes _ _ _ _ _ _ _ _).
Qed.

(** The projected end points of a straight rebar seen face-on
    (lines 486-491). *)
Definition straight_points (rebar : Rebar.t) (view_plane : Plane)
    : result (Vector * Vector) :=
  match py_index (Shape.Wires (BaseObject.Shape (Rebar.Base rebar))) 0 with
  | Raise e => Raise e
  | Ok wire0 =>
      match py_index (Wire.Vertexes wire0) 0 with
      | Raise e => Raise e
      | Ok v0 =>
          match py_index (Wire.Vertexes wire0) 1 with
          | Raise e => Raise e
          | Ok v1 =>
              Ok (getProjectionToSVGPlane v0 view_plane,
                  getProjectionToSVGPlane v1 view_plane)
          end
      end
  end.

(** Both end points round to the same integer coordinates. *)
Definition degenerate (p1 p2 : Vector) : bool :=
  same_rounded (FreeCAD.x p1) (FreeCAD.x p2)
  && same_rounded (FreeCAD.y p1) (FreeCAD.y p2).

(** The element the straight builder draws for a segment, and the
    containment test that goes with it. *)
Definition segment_node (rebar : Rebar.t) (p1 p2 : Vector) : Node :=
  if degenerate p1 p2 then
    point_node p1 (SVG_POINT_DIA_FACTOR * Rebar.Diameter rebar)%Q
  else line_node p1 p2.

Definition segment_in (σ : Store) (svg : ref) (p1 p2 : Vector) : bool :=
  if degenerate p1 p2 then point_in σ svg p1 else line_in σ svg p1 p2.

(** The straight builder on a rebar seen face-on, as a whole. *)
Lemma getStraightRebarSVGData_face_on σ svg rebar view_plane hx hy vx vy
    p1 p2 :
  face_on rebar view_plane = true ->
  straight_points rebar view_plane = Ok (p1, p2) ->
  getStraightRebarSVGData rebar view_plane hx hy vx vy svg σ
  = if segment_in (σ ++ [fragment rebar; segment_node rebar p1 p2]) svg p1 p2
    then
      Ok (mkStraightData (length σ) false hy vx,
          σ ++ [fragment rebar; segment_node rebar p1 p2])
    else
      match dimension_nodes p1 p2 (dimension_text rebar) hx hy vx vy
              (length σ + 2) with
      | Raise e => Raise e
      | Ok nodes =>
          Ok (mkStraightData (length σ) true
                (if dimension_horizontal p1 p2 then Py.add hy 100 else hy)
                (if dimension_horizontal p1 p2 then vx else Py.add vx 100),
              σ ++ add_children [length σ + 1; length σ + 2] (fragment rebar)
                   :: segment_node rebar p1 p2 :: nodes)
      end.
Proof.
  intros Hface Hpts. unfold getStraightRebarSVGData, straight_points in *.
  rewrite Hface. rewrite <- (app_nil_r σ) at 1. run.
  destruct (py_index (Shape.Wires _) 0) as [wire0|]; [|done]. run.
  destruct (py_index (Wire.Vertexes wire0) 0) as [v0|]; [|done]. run.
  destruct (py_index (Wire.Vertexes wire0) 1) as [v1|]; [|done]. run.
  injection Hpts as <- <-.
  set (p1 := getProjectionToSVGPlane v0 view_plane).
  set (p2 := getProjectionToSVGPlane v1 view_plane).
  unfold segment_in, segment_node, degenerate.
  destruct (same_rounded (FreeCAD.x p1) (FreeCAD.x p2)
            && same_rounded (FreeCAD.y p1) (FreeCAD.y p2)); run.
  - cbn [length app].
    destruct (point_in _ svg p1); cbn [negb]; run;
      [unfold ElementTree.ret; by rewrite Nat.add_0_r|].
    rewrite run_getLineDimensionsData. cbn [length].
    unfold dimension_nodes.
    destruct (dimension_horizontal p1 p2);
      destruct (py_div _ _) as [quot|e]; try done; run;
      unfold ElementTree.ret, add_children, fragment; simpl;
      rewrite !Nat.add_0_r; done.
  - cbn [length app].
    destruct (line_in _ svg p1 p2); cbn [negb]; run;
      [unfold ElementTree.ret; by rewrite Nat.add_0_r|].
    rewrite run_getLineDimensionsData. cbn [length].
    unfold dimension_nodes.
    destruct (dimension_horizontal p1 p2);
      destruct (py_div _ _) as [quot|e]; try done; run;
      unfold ElementTree.ret, add_children, fragment; simpl;
      rewrite !Nat.add_0_r; done.
Qed.

End StraightFaceOn.

(** ** The dimension offsets *)

Section DimensionOffsets.
Context `{E : External}.
Local Open Scope nat_scope.

(** Whether the call of the straight builder on [rebar] places a dimension
    annotation, and of which orientation: [Some true] for a horizontal
    dimension line, [Some false] for a vertical one, [None] when no
    annotation is placed (side view, or the rebar is a duplicate). *)
Definition placed_dimension (rebar : Rebar.t) (view_plane : Plane)
    (svg : ref) (σ : Store) : option bool :=
  if face_on rebar view_plane then
    match straight_points rebar view_plane with
    | Ok (p1, p2) =>
        if segment_in (σ ++ [fragment rebar; segment_node rebar p1 p2])
             svg p1 p2
        then None
        else Some (dimension_horizontal p1 p2)
    | Raise _ => None
    end
  else None.

(** Seen from the side the builder returns the offsets it was given. *)
Lemma getStraightRebarSVGData_side σ svg rebar view_plane hx hy vx vy d σ' :
  face_on rebar view_plane = false ->
  getStraightRebarSVGData rebar view_plane hx hy vx vy svg σ = Ok (d, σ') ->
  h_dim_y_offset d = hy /\ v_dim_x_offset d = vx.
Proof.
  intros Hface Hrun. unfold getStraightRebarSVGData in Hrun.
  rewrite Hface in Hrun. do 3 inv_bind Hrun.
  by injection Hrun as <- _.
Qed.

Lemma straight_points_raise σ svg rebar view_plane hx hy vx vy e :
  face_on rebar view_plane = true ->
  straight_points rebar view_plane = Raise e ->
  getStraightRebarSVGData rebar view_plane hx hy vx vy svg σ = Raise e.
Proof.
  intros Hface Hpts. unfold getStraightRebarSVGData, straight_points in *.
  rewrite Hface. unfold ElementTree.bind, Element, lift.
  destruct (py_index (Shape.Wires _) 0) as [wire0|]; [|congruence].
  destruct (py_index (Wire.Vertexes wire0) 0) as [v0|]; [|congruence].
  destruct (py_index (Wire.Vertexes wire0) 1) as [v1|]; [done|congruence].
Qed.

(** The dimension of a rebar in the drawing: the fragment of the rebar,
    allocated at [b], is a child of [group] and holds the element of the
    segment and the dimension group, which holds the leader and the
    label. *)
Definition dimension_at (σ : Store) (group : ref) (b : nat)
    (rebar : Rebar.t) (label : Node) : Prop :=
  (exists g, σ !! group = Some g /\ In b (children g))
  /\ σ !! b = Some (mkNode "g" [("id", Rebar.Name rebar)] None [b + 1; b + 2])
  /\ σ !! (b + 2) = Some (mkNode "g" [] None [b + 3; b + 4])
  /\ σ !! (b + 4) = Some label.

(** What a turn of the loop over the straight rebars does to the offsets
    [hy] and [vx] it starts with, by the annotation it places: the new
    offsets [hy'] and [vx'], and the label in the store [σ'] of the
    result. *)
Definition offsets_advanced (σ' : Store) (group : ref) (b : nat)
    (rebar : Rebar.t) (placed : option bool)
    (hx vy hy vx hy' vx' : Q) : Prop :=
  match placed with
  | None => hy' = hy /\ vx' = vx
  | Some true =>
      hy' = Py.add hy 100 /\ vx' = vx
      /\ dimension_at σ' group b rebar
           (label_node (dimension_text rebar) hx hy "start" "central")
  | Some false =>
      hy' = hy /\ vx' = Py.add vx 100
      /\ dimension_at σ' group b rebar
           (label_node (dimension_text rebar) vx vy "middle" "baseline")
  end.

(** One turn of the loop over the straight rebars. *)
Lemma straight_step_offsets rebar view_plane hx vy svg group hy vx σ
    hy' vx' σ' :
  group < length σ ->
  straight_step view_plane hx vy svg group rebar (hy, vx) σ
    = Ok ((hy', vx'), σ') ->
  offsets_advanced σ' group (length σ) rebar
    (placed_dimension rebar view_plane svg σ) hx vy hy vx hy' vx'.
Proof.
  intros Hgroup Hrun.
  unfold straight_step, placed_dimension, offsets_advanced in *.
  inv_bind Hrun. simpl in Hrun0.
  destruct (face_on rebar view_plane) eqn:Hface.
  2:{ destruct (getStraightRebarSVGData_side _ _ _ _ _ _ _ _ _ _ Hface Hrun0)
        as [Hh Hv].
      destruct (visibility a).
      - inv_bind Hrun. injection Hrun as <- <- _. done.
      - by injection Hrun as <- <- _. }
  destruct (straight_points rebar view_plane) as [[p1 p2]|e] eqn:Hpts.
  2:{ by rewrite (straight_points_raise _ _ _ _ _ _ _ _ _ Hface Hpts)
        in Hrun0. }
  rewrite (getStraightRebarSVGData_face_on _ _ _ _ _ _ _ _ _ _ Hface Hpts)
    in Hrun0.
  destruct (segment_in _ svg p1 p2).
  { injection Hrun0 as <- <-. simpl in Hrun. by injection Hrun as <- <- _. }
  destruct (lookup_lt_is_Some_2 σ group Hgroup) as [g Hg].
  unfold dimension_nodes in Hrun0.
  destruct (dimension_horizontal p1 p2);
    destruct (py_div _ _) as [quot|]; try done;
    injection Hrun0 as <- <-; simpl in Hrun;
    unfold append, ElementTree.bind, ElementTree.ret in Hrun;
    injection Hrun as <- <- <-;
    (split; [done|]; split; [done|]);
    (split; [|split; [|split]]).
  all: try (exists (add_child (length σ) g); split;
            [ by rewrite list_lookup_alter_eq, (lookup_app_l_Some _ _ _ _ Hg)
            | simpl; apply in_or_app; right; by left ]).
  all: rewrite list_lookup_alter_ne by lia; rewrite lookup_app_r by lia.
  all: try (rewrite Nat.sub_diag; reflexivity).
  all: replace (length σ + 2 + 1) with (length σ + 3) by lia;
    replace (length σ + 2 + 2) with (length σ + 4) by lia.
  all: try (by replace (length σ + 2 - length σ) with 2 by lia).
  all: by replace (length σ + 4 - length σ) with 4 by lia.
Qed.

(** A turn of the loop changes no element that was there before, except
    the group it appends to. *)
Lemma straight_step_frame rebar view_plane hx vy svg group offsets σ
    offsets' σ' i :
  straight_step view_plane hx vy svg group rebar offsets σ
    = Ok (offsets', σ') ->
  i < length σ -> i <> group -> σ' !! i = σ !! i.
Proof.
  intros Hrun Hi Hne. unfold straight_step in Hrun. inv_bind Hrun.
  destruct (local_getStraightRebarSVGData (length σ) _ _ _ _ _ _ _ σ _ _
              (le_n _) Hrun0) as (Hlen & Htake & _).
  assert (σ0 !! i = σ !! i) as Hsame.
  { rewrite <- (lookup_take_lt σ0 (length σ) i) by lia.
    rewrite Htake. by rewrite lookup_take_lt by lia. }
  destruct (visibility a).
  - unfold append, ElementTree.bind, ElementTree.ret in Hrun.
    injection Hrun as _ <-. by rewrite list_lookup_alter_ne.
  - by injection Hrun as _ <-.
Qed.

(** A dimension in the drawing stays as it is in the later turns of the
    loop. *)
Lemma dimension_at_kept rebar view_plane hx vy svg group offsets σ
    offsets' σ' b r label :
  straight_step view_plane hx vy svg group rebar offsets σ
    = Ok (offsets', σ') ->
  group < b ->
  dimension_at σ group b r label -> dimension_at σ' group b r label.
Proof.
  intros Hrun Hb ((g & Hg & Hin) & Hfrag & Hdim & Hlabel).
  pose proof (lookup_lt_Some _ _ _ Hlabel) as Hlen.
  split; [|split; [|split]].
  - destruct (mono_straight_step _ _ _ _ _ _ _ _ _ _ Hrun _ _ Hg)
      as (g' & Hg' & _ & _ & _ & [k Hk]).
    exists g'. split; [done|]. rewrite Hk. apply in_or_app. by left.
  - rewrite (straight_step_frame _ _ _ _ _ _ _ _ _ _ b Hrun); [done|lia|lia].
  - rewrite (straight_step_frame _ _ _ _ _ _ _ _ _ _ (b + 2) Hrun);
      [done|lia|lia].
  - rewrite (straight_step_frame _ _ _ _ _ _ _ _ _ _ (b + 4) Hrun);
      [done|lia|lia].
Qed.

(** C6, as the code has it: a turn of the loop over the straight rebars
    that places a horizontal dimension puts its label at the current
    horizontal y-offset and replaces that offset by the float sum of
    itself and 100, the double nearest to the exact sum, leaving the
    vertical x-offset as it is; one that places a vertical dimension does
    the same with the vertical x-offset; a turn that places none changes
    neither.  The label is in the dimension group of the fragment of the
    rebar, which is a child of the group of the straight rebars.  Hence
    when two successive rebars both get a horizontal dimension, their
    labels stand at the y-offset [hy] and at the double nearest to
    [hy + 100]. *)
Theorem dimension_offsets_advance view_plane hx vy svg group r1 r2 hy vx σ
    hy1 vx1 σ1 hy2 vx2 σ2 :
  group < length σ ->
  straight_step view_plane hx vy svg group r1 (hy, vx) σ
    = Ok ((hy1, vx1), σ1) ->
  straight_step view_plane hx vy svg group r2 (hy1, vx1) σ1
    = Ok ((hy2, vx2), σ2) ->
  offsets_advanced σ1 group (length σ) r1
    (placed_dimension r1 view_plane svg σ) hx vy hy vx hy1 vx1
  /\ offsets_advanced σ2 group (length σ1) r2
       (placed_dimension r2 view_plane svg σ1) hx vy hy1 vx1 hy2 vx2
  /\ match placed_dimension r1 view_plane svg σ,
            placed_dimension r2 view_plane svg σ1 with
     | Some true, Some true =>
         dimension_at σ2 group (length σ) r1
           (label_node (dimension_text r1) hx hy "start" "central")
         /\ dimension_at σ2 group (length σ1) r2
              (label_node (dimension_text r2) hx (Py.add hy 100)
                 "start" "central")
     | _, _ => True
     end.
Proof.
  intros Hgroup Hstep1 Hstep2.
  pose proof (straight_step_offsets _ _ _ _ _ _ _ _ _ _ _ _ Hgroup Hstep1)
    as H1.
  pose proof (grows_length _ _ (mono_straight_step _ _ _ _ _ _ _ _ _ _ Hstep1))
    as Hlen.
  assert (group < length σ1) as Hgroup1 by lia.
  pose proof (straight_step_offsets _ _ _ _ _ _ _ _ _ _ _ _ Hgroup1 Hstep2)
    as H2.
  split; [done|]. split; [done|].
  unfold offsets_advanced in H1, H2.
  destruct (placed_dimension r1 view_plane svg σ) as [[|]|]; try done.
  destruct (placed_dimension r2 view_plane svg σ1) as [[|]|]; try done.
  destruct H1 as (-> & -> & Hlabel1). destruct H2 as (_ & _ & Hlabel2).
  split; [|exact Hlabel2].
  by apply (dimension_at_kept _ _ _ _ _ _ _ _ _ _ _ _ _ Hstep2).
Qed.

End DimensionOffsets.

(** The two posts of the example, drawn from the top one after the other:
    both get a horizontal dimension, the first at the y-offset 50 and the
    second at 150. *)
Lemma dimension_offsets_advance_witness :
  exists hy1 vx1 σ1 hy2 vx2 σ2,
    for_each [Example.post1; Example.post2]
      (straight_step (E := Example.kernel) Example.top 250 (-50) 0%nat 1%nat)
      (50%Q, 50%Q) Example.accumulated
    = Ok ((hy2, vx2), σ2)
    /\ (offsets_advanced (E := Example.kernel) σ1 1%nat
          (length Example.accumulated) Example.post1
          (placed_dimension (E := Example.kernel) Example.post1 Example.top
             0%nat Example.accumulated)
          250 (-50) 50 50 hy1 vx1
        /\ offsets_advanced (E := Example.kernel) σ2 1%nat (length σ1)
             Example.post2
             (placed_dimension (E := Example.kernel) Example.post2
                Example.top 0%nat σ1)
             250 (-50) hy1 vx1 hy2 vx2
        /\ match placed_dimension (E := Example.kernel) Example.post1
                  Example.top 0%nat Example.accumulated,
                placed_dimension (E := Example.kernel) Example.post2
                  Example.top 0%nat σ1 with
           | Some true, Some true =>
               dimension_at σ2 1%nat (length Example.accumulated)
                 Example.post1
                 (label_node (E := Example.kernel)
                    (dimension_text (E := Example.kernel) Example.post1)
                    250 50 "start" "central")
               /\ dimension_at σ2 1%nat (length σ1) Example.post2
                    (label_node (E := Example.kernel)
                       (dimension_text (E := Example.kernel) Example.post2)
                       250 (Py.add 50 100) "start" "central")
           | _, _ => True
           end)
    /\ placed_dimension (E := Example.kernel) Example.post1 Example.top
         0%nat Example.accumulated = Some true
    /\ placed_dimension (E := Example.kernel) Example.post2 Example.top
         0%nat σ1 = Some true
    /\ (hy1 == 150)%Q /\ (hy2 == 250)%Q.
Proof.
  eexists _, _, _, _, _, _. split; [vm_compute; reflexivity|]. split.
  - eapply (dimension_offsets_advance (E := Example.kernel) Example.top
              250 (-50) 0%nat 1%nat Example.post1 Example.post2 50 50
              Example.accumulated).
    + simpl. lia.
    + vm_compute. reflexivity.
    + vm_compute. reflexivity.
  - vm_compute. repeat split; reflexivity.
Defined.

(** C6, as stated, fails where the sum is not a double.  From the
    y-offset [10 ** 19] a horizontal dimension leaves the offset where it
    is, since the doubles next to it are 2048 apart; and from the double
    nearest to 50.1 the offset goes to the double nearest to 150.1, which
    is not 100 above it. *)
Lemma offset_not_advanced_by_100 :
  let step hy :=
    straight_step (E := Example.kernel) Example.top 250 (-50) 0%nat 1%nat
      Example.post1 (hy, 50%Q) Example.accumulated in
  placed_dimension (E := Example.kernel) Example.post1 Example.top 0%nat
    Example.accumulated = Some true
  /\ match step (10 ^ 19)%Q with
     | Ok ((hy', vx'), _) => (hy' == 10 ^ 19)%Q /\ vx' = 50%Q
     | Raise _ => False
     end
  /\ match step (Py.double (501 # 10)) with
     | Ok ((hy', vx'), _) =>
         Qeq_bool hy' (Py.double (1501 # 10)) = true
         /\ Qeq_bool (hy' - Py.double (501 # 10)) 100 = false
     | Raise _ => False
     end.
Proof. vm_compute. repeat split; reflexivity. Qed.

(** ** The element drawn for an edge *)

Section EdgeForms.
Context `{E : External}.
Local Open Scope nat_scope.

(** A straight edge with a degenerate projection in the face-on loop of
    the U-shape builder: a point marker is allocated, the accumulated SVG
    is not consulted, the visibility is kept, and the marker is appended
    exactly when the rebar is visible already. *)
Lemma ushape_edge_degenerate σ rebars_svg u_rebar_svg rebar view_plane edge
    p1 p2 visible :
  Edge.geomType edge = "Line" ->
  edge_points edge view_plane = Ok (p1, p2) ->
  degenerate p1 p2 = true ->
  ushape_edge rebar view_plane rebars_svg u_rebar_svg edge visible σ
  = Ok (visible,
        let marker :=
          point_node p1 (SVG_POINT_DIA_FACTOR * Rebar.Diameter rebar)%Q in
        if visible then
          alter (add_child (length σ)) u_rebar_svg (σ ++ [marker])
        else σ ++ [marker]).
Proof.
  intros Hline Hpts Hdeg. unfold ushape_edge, degenerate in *.
  rewrite Hline. cbn [String.eqb Ascii.eqb Bool.eqb].
  unfold lift, ElementTree.bind at 1. rewrite Hpts.
  unfold ElementTree.bind at 1. rewrite Hdeg.
  unfold ElementTree.bind, getPointSVG, Element, append, ElementTree.ret.
  by destruct visible.
Qed.


(** C10: in the face-on branch of the U/bent/L-shape builder a straight
    edge whose projected end points round to the same integer coordinates
    leaves the visibility as it finds it and appends its point marker
    exactly when the rebar is visible already; the result is the same
    whatever the accumulated SVG is, so no duplicate test is made. *)
Theorem degenerate_edge_not_tested σ rebars_svg u_rebar_svg rebar view_plane
    edge p1 p2 visible :
  Edge.geomType edge = "Line" ->
  edge_points edge view_plane = Ok (p1, p2) ->
  degenerate p1 p2 = true ->
  ushape_edge rebar view_plane rebars_svg u_rebar_svg edge visible σ
  = Ok (visible,
        let marker :=
          point_node p1 (SVG_POINT_DIA_FACTOR * Rebar.Diameter rebar)%Q in
        if visible then
          alter (add_child (length σ)) u_rebar_svg (σ ++ [marker])
        else σ ++ [marker])
  /\ forall other_svg,
       ushape_edge rebar view_plane other_svg u_rebar_svg edge visible σ
       = ushape_edge rebar view_plane rebars_svg u_rebar_svg edge visible σ.
Proof.
  intros Hline Hpts Hdeg. split.
  - by apply (ushape_edge_degenerate _ _ _ _ _ _ p1 p2).
  - intros other_svg.
    by rewrite !(ushape_edge_degenerate σ _ u_rebar_svg rebar view_plane edge
                   p1 p2 visible Hline Hpts Hdeg).
Qed.

(** The path element of a circular arc:
    [M x1 y1 A r r 0 0 sweep x2 y2]. *)
Definition arc_node (x1 y1 radius : Z) (sweep : bool) (x2 y2 : Z) : Node :=
  mkNode "path"
    [("style", "stroke:#000000;fill:none");
     ("d",
      "M" +:+ Py.str_int x1 +:+ " " +:+ Py.str_int y1
      +:+ " A" +:+ Py.str_int radius +:+ " " +:+ Py.str_int radius
      +:+ " 0 0 " +:+ (if sweep then "1" else "0")
      +:+ " " +:+ Py.str_int x2 +:+ " " +:+ Py.str_int y2)] None [].

(** Whether the angle from the tangent at the start of the edge to the
    tangent a tenth of the way along it, about the axis of the view plane,
    is negative. *)
Definition turns_negative (edge : Edge.t) (view_plane : Plane) : bool :=
  Py.lt
    (DraftVecUtils_angle
       (Edge.tangentAt edge (Edge.FirstParameter edge))
       (Edge.tangentAt edge
          (Edge.FirstParameter edge
           + (Edge.LastParameter edge - Edge.FirstParameter edge) / 10)%Q)
       (WorkingPlane.axis view_plane)) 0.

Lemma corner_node_arc edge radius view_plane p1 p2 :
  corner_node edge radius view_plane p1 p2
  = arc_node (Py.round (FreeCAD.x p1)) (Py.round (FreeCAD.y p1))
      (Py.round radius) (turns_negative edge view_plane)
      (Py.round (FreeCAD.x p2)) (Py.round (FreeCAD.y p2)).
Proof.
  unfold corner_node, arc_node, corner_d, round_corner_d, sweep_flag,
    turns_negative, Py.format, Py.int_of_bool.
  by destruct (Py.lt _ _).
Qed.

(** C4, as the code has it: for a curved edge of a face-on rebar the
    stirrup builder allocates the arc path [M x1 y1 A r r 0 0 sweep x2 y2]
    with sweep flag 1 exactly when the tangent turns by a negative angle;
    the U/bent/L-shape builder does so when the projected end points differ
    in both rounded coordinates, and allocates a line segment between them
    when they share a rounded x or y.  In each case the element is
    appended when the rebar is or becomes visible. *)
Theorem curved_edge_arc σ rebars_svg rebar view_plane edge p1 p2 visible l :
  wf σ -> rebars_svg < length σ ->
  Edge.geomType edge = "Circle" ->
  edge_points edge view_plane = Ok (p1, p2) ->
  let radius := (Rebar.Rounding rebar * Rebar.Diameter rebar)%Q in
  let arc :=
    arc_node (Py.round (FreeCAD.x p1)) (Py.round (FreeCAD.y p1))
      (Py.round radius) (turns_negative edge view_plane)
      (Py.round (FreeCAD.x p2)) (Py.round (FreeCAD.y p2)) in
  let arc_new :=
    negb (corner_in σ rebars_svg edge radius view_plane p1 p2) in
  let line_new := negb (line_in σ rebars_svg p1 p2) in
  let drawn (element : Node) (visible' : bool) :=
    Ok (visible',
        σ ++ (if visible' then
                alter (add_child (length σ + length l)) 0 (l ++ [element])
              else l ++ [element])) in
  stirrup_edge rebar view_plane rebars_svg (length σ + 0) edge visible
    (σ ++ l)
  = drawn arc (visible || arc_new)
  /\ ushape_edge rebar view_plane rebars_svg (length σ + 0) edge visible
       (σ ++ l)
     = if same_rounded (FreeCAD.x p1) (FreeCAD.x p2)
          || same_rounded (FreeCAD.y p1) (FreeCAD.y p2)
       then drawn (line_node p1 p2) (visible || line_new)
       else drawn arc (visible || arc_new).
Proof.
  intros Hwf Hsvg Hcircle Hpts radius arc arc_new line_new drawn.
  unfold drawn, arc, arc_new, line_new, radius.
  rewrite <- corner_node_arc. split.
  - rewrite stirrup_edge_run by done. unfold stirrup_item, emit.
    rewrite Hcircle, Hpts. reflexivity.
  - rewrite ushape_edge_run by done. unfold ushape_item, emit.
    rewrite Hcircle, Hpts. cbn [String.eqb Ascii.eqb Bool.eqb].
    by destruct (same_rounded _ _ || same_rounded _ _).
Qed.

End EdgeForms.

(** The short edge of the example as the last edge of a U-shape rebar that
    is visible already. *)
Lemma degenerate_edge_not_tested_witness :
  exists p1 : Vector,
    ushape_edge (E := Example.kernel) Example.stub Example.top 0%nat 2%nat
      (Example.line (Vec 0 0 0) (Vec (1 # 5) 0 0)) true Example.accumulated
    = Ok (true,
          let marker :=
            point_node (E := Example.kernel) p1
              (SVG_POINT_DIA_FACTOR (External := Example.kernel)
               * Rebar.Diameter Example.stub)%Q in
          if true then
            alter (add_child (length Example.accumulated)) 2%nat
              (Example.accumulated ++ [marker])
          else Example.accumulated ++ [marker])
    /\ forall other_svg,
         ushape_edge (E := Example.kernel) Example.stub Example.top other_svg
           2%nat (Example.line (Vec 0 0 0) (Vec (1 # 5) 0 0)) true
           Example.accumulated
         = ushape_edge (E := Example.kernel) Example.stub Example.top 0%nat
             2%nat (Example.line (Vec 0 0 0) (Vec (1 # 5) 0 0)) true
             Example.accumulated.
Proof.
  eexists.
  eapply (degenerate_edge_not_tested (E := Example.kernel)
            Example.accumulated 0%nat 2%nat Example.stub Example.top
            (Example.line (Vec 0 0 0) (Vec (1 # 5) 0 0)) _ _ true).
  - reflexivity.
  - vm_compute. reflexivity.
  - vm_compute. reflexivity.
Defined.

(** The arc of the hook of the example, as the next edge of a stirrup and
    of a U-shape rebar that are not visible yet. *)
Lemma curved_edge_arc_witness :
  exists p1 p2,
    let σ := Example.accumulated in
    let l := [fragment Example.hook] in
    let edge := Example.arc (Vec 100 0 0) (Vec 120 (-20) 0) in
    let radius :=
      (Rebar.Rounding Example.hook * Rebar.Diameter Example.hook)%Q in
    let arc :=
      arc_node (Py.round (FreeCAD.x p1)) (Py.round (FreeCAD.y p1))
        (Py.round radius)
        (turns_negative (E := Example.kernel) edge Example.top)
        (Py.round (FreeCAD.x p2)) (Py.round (FreeCAD.y p2)) in
    let arc_new :=
      negb (corner_in (E := Example.kernel) σ 0%nat edge radius Example.top
              p1 p2) in
    let line_new := negb (line_in σ 0%nat p1 p2) in
    let drawn (element : Node) (visible' : bool) :=
      Ok (visible',
          σ ++ (if visible' then
                  alter (add_child (length σ + length l)%nat) 0%nat
                    (l ++ [element])
                else l ++ [element])) in
    stirrup_edge (E := Example.kernel) Example.hook Example.top 0%nat
      (length σ + 0)%nat edge false (σ ++ l)
    = drawn arc (false || arc_new)
    /\ ushape_edge (E := Example.kernel) Example.hook Example.top 0%nat
         (length σ + 0)%nat edge false (σ ++ l)
       = if same_rounded (FreeCAD.x p1) (FreeCAD.x p2)
            || same_rounded (FreeCAD.y p1) (FreeCAD.y p2)
         then drawn (line_node p1 p2) (false || line_new)
         else drawn arc (false || arc_new).
Proof.
  eexists _, _.
  eapply (curved_edge_arc (E := Example.kernel) Example.accumulated 0%nat
            Example.hook Example.top
            (Example.arc (Vec 100 0 0) (Vec 120 (-20) 0)) _ _ false
            [fragment Example.hook]).
  - apply wf_check. reflexivity.
  - simpl. lia.
  - reflexivity.
  - vm_compute. reflexivity.
Defined.

(** C4, as stated, fails for the U/bent/L-shape builder: the only edge of
    the bent bar of the example is an arc from (0, 0) to (20, 0); the
    fragment holds a line for it, no arc path. *)
Lemma level_arc_drawn_as_line :
  face_on (E := Example.kernel) Example.bent Example.top = true
  /\ map Edge.geomType
       (sorted_fillet_edges (E := Example.kernel)
          (Wire.mk [Example.arc (Vec 0 0 0) (Vec 20 0 0)]
             [Vec 0 0 0; Vec 20 0 0] Example.identity)
          Example.bent)
     = ["Circle"]
  /\ match getUShapeRebarSVGData (E := Example.kernel) Example.bent
             Example.top 0%nat Example.accumulated with
     | Ok ((fragment, visible), σ') =>
         to_xml (length σ') σ' fragment
         = Some (XElem "g" [("id", "bent")] None
                   [XElem "line"
                      [("x1", "0"); ("y1", "0"); ("x2", "20"); ("y2", "0");
                       ("style", "stroke:#000000")] None []])
     | Raise _ => False
     end.
Proof. vm_compute. repeat split; reflexivity. Qed.

(** ** Round corners and the containment test *)

Section RoundCorner.
Context `{E : External}.
Local Open Scope nat_scope.

Lemma iter_child f σ r n c :
  σ !! r = Some n -> In c (children n) -> In c (iter (S f) σ r).
Proof.
  intros Hr Hc. simpl. rewrite Hr. apply in_flat_map. exists c.
  split; [done|]. by left.
Qed.

Lemma iter_descend f σ r p n c :
  In p (iter f σ r) -> σ !! p = Some n -> In c (children n) ->
  In c (iter (S f) σ r).
Proof.
  revert r. induction f as [|f IH]; intros r Hp Hn Hc; [done|].
  cbn [iter] in Hp. destruct (σ !! r) as [nr|] eqn:Hr; [|done].
  apply in_flat_map in Hp as (d & Hd & Hp).
  change (In c (match σ !! r with
                | Some n0 => flat_map (fun c0 => c0 :: iter (S f) σ c0)
                               (children n0)
                | None => []
                end)).
  rewrite Hr. apply in_flat_map. exists d. split; [done|]. right.
  destruct Hp as [->|Hp]; [by eapply iter_child|by apply IH].
Qed.

(** Queried with the edge it was written for, the path written by
    [getRoundCornerSVG] and appended below [svg] is found. *)
Lemma round_corner_found σ svg parent edge radius view_plane p1 p2 :
  parent < length σ ->
  (parent = svg \/ In parent (iter (length σ) σ svg)) ->
  corner_in
    (alter (add_child (length σ)) parent
       (σ ++ [corner_node edge radius view_plane p1 p2]))
    svg edge radius view_plane p1 p2
  = true.
Proof.
  intros Hparent Hbelow. unfold corner_in. apply orb_true_iff. left.
  apply bool_decide_eq_true.
  set (σ' := alter _ _ _).
  assert (grows σ σ') as Hg.
  { eapply grows_trans; [apply grows_app|apply grows_add_child]. }
  destruct (lookup_lt_is_Some_2 σ parent Hparent) as [n Hn].
  assert (σ' !! parent = Some
            (add_child (length σ) n)) as Hp'.
  { unfold σ'. rewrite list_lookup_alter_eq.
    by rewrite (lookup_app_l_Some _ _ _ _ Hn). }
  assert (length σ' = S (length σ)) as Hlen.
  { unfold σ'. rewrite length_alter, length_app. simpl. lia. }
  apply (find_in_Some σ' svg "path" _ (length σ)).
  - rewrite Hlen. destruct Hbelow as [->|Hin].
    + eapply iter_child; [exact Hp'|]. simpl. apply in_or_app. right.
      by left.
    + eapply iter_descend; [|exact Hp'|].
      * by apply (iter_grows _ σ σ').
      * simpl. apply in_or_app. right. by left.
  - unfold matches, σ'.
    rewrite list_lookup_alter_ne by lia.
    rewrite lookup_app_r, Nat.sub_diag by lia. simpl.
    by rewrite bool_decide_eq_true_2.
Qed.

(** Whether the letter [e] occurs in a string. *)
Fixpoint has_e (s : string) : bool :=
  match s with
  | EmptyString => false
  | String c s' => Ascii.eqb c "e" || has_e s'
  end.

Lemma has_e_app s t : has_e (s +:+ t) = has_e s || has_e t.
Proof.
  induction s as [|c s IH]; [done|]. simpl. rewrite IH.
  by rewrite orb_assoc.
Qed.

Lemma has_e_uint d : has_e (NilEmpty.string_of_uint d) = false.
Proof. induction d; simpl; done. Qed.

Lemma has_e_str_int n : has_e (Py.str_int n) = false.
Proof.
  unfold Py.str_int, NilZero.string_of_int, NilZero.string_of_uint.
  destruct (Z.to_int n) as [d|d]; destruct d; simpl;
    rewrite ?has_e_uint; done.
Qed.

(** The second query of [isRoundCornerInSVG] formats [not flag_sweep], a
    [bool], and so asks for a [d] that [getRoundCornerSVG] never writes. *)
Lemma reversed_query_never_written edge radius view_plane p1 p2
    edge' radius' view_plane' q1 q2 :
  corner_d_reversed edge radius view_plane p1 p2
  <> corner_d edge' radius' view_plane' q1 q2.
Proof.
  intros Heq. apply (f_equal has_e) in Heq. revert Heq.
  unfold corner_d_reversed, corner_d, round_corner_d, Py.format.
  rewrite !has_e_app, !has_e_str_int.
  destruct (Py.not_int _); simpl; done.
Qed.

End RoundCorner.

(** C1 on the code: the arc of the example from (100, 0) to (120, 20) with
    sweep flag 1, and the same arc written from its other end, with sweep
    flag 0.  The stored path is found when it is queried with the edge it
    was written for, and missed when it is queried with the edge in the
    other order: the second query asks for the flag [False]. *)
Lemma reversed_round_corner_missed :
  let forward := Example.arc (Vec 100 0 0) (Vec 120 (-20) 0) in
  let backward := Example.arc_back (Vec 120 (-20) 0) (Vec 100 0 0) in
  let program : M (bool * bool) :=
    let* rebars_svg := Element "g" [("id", "Rebars")] in
    let* path := getRoundCornerSVG (E := Example.kernel) backward 16
                   Example.top in
    do append rebars_svg path in
    let* same := isRoundCornerInSVG (E := Example.kernel) backward 16
                   Example.top rebars_svg in
    let* other := isRoundCornerInSVG (E := Example.kernel) forward 16
                    Example.top rebars_svg in
    ElementTree.ret (same, other) in
  match program [] with
  | Ok ((same, other), σ) =>
      same = true /\ other = false
      /\ (σ !! 1%nat ≫= fun n => attr_get "d" (attrib n))
         = Some "M120 20 A16 16 0 0 0 100 0"
  | Raise _ => False
  end
  /\ corner_d (E := Example.kernel) forward 16 Example.top
       (Vec 100 0 0) (Vec 120 20 0)
     = "M100 0 A16 16 0 0 1 120 20"
  /\ corner_d_reversed (E := Example.kernel) forward 16 Example.top
       (Vec 100 0 0) (Vec 120 20 0)
     = "M120 20 A16 16 0 0 False 100 0".
Proof. vm_compute. repeat split; reflexivity. Qed.

(** ** The accumulated SVG during the pass over the rebars *)

Section Accumulated.
Context `{E : External}.
Local Open Scope nat_scope.

(** A call of one of the shape builders on the accumulated SVG. *)
Inductive builder_call (view_plane : Plane) (rebars_svg : ref)
    : Store -> Store -> Prop :=
| call_stirrup rebar result σ σ' :
    getStirrupSVGData rebar view_plane rebars_svg σ = Ok (result, σ') ->
    builder_call view_plane rebars_svg σ σ'
| call_ushape rebar result σ σ' :
    getUShapeRebarSVGData rebar view_plane rebars_svg σ = Ok (result, σ') ->
    builder_call view_plane rebars_svg σ σ'
| call_straight rebar hx hy vx vy result σ σ' :
    getStraightRebarSVGData rebar view_plane hx hy vx vy rebars_svg σ
      = Ok (result, σ') ->
    builder_call view_plane rebars_svg σ σ'.

(** What the pass over the rebars (source lines 635-718) does between two
    observations of the store: it opens a category group, calls a builder,
    parses an exported drawing, or appends a fragment to a group. *)
Inductive pass_step (view_plane : Plane) (rebars_svg : ref)
    : Store -> Store -> Prop :=
| step_group id group σ σ' :
    category_group rebars_svg id σ = Ok (group, σ') ->
    pass_step view_plane rebars_svg σ σ'
| step_builder σ σ' :
    builder_call view_plane rebars_svg σ σ' ->
    pass_step view_plane rebars_svg σ σ'
| step_exported s exported σ σ' :
    fromstring s σ = Ok (exported, σ') ->
    pass_step view_plane rebars_svg σ σ'
| step_append group fragment σ σ' :
    append group fragment σ = Ok (tt, σ') ->
    pass_step view_plane rebars_svg σ σ'.

(** The builders only read: what they return is the store of the call
    followed by the elements they allocated. *)
Definition builders_read_only (view_plane : Plane) (rebars_svg : ref)
    : Prop :=
  forall σ σ',
    builder_call view_plane rebars_svg σ σ' ->
    σ' = σ ++ drop (length σ) σ'.

(** From any store of the pass to any later one, every element keeps its
    tag, attributes and text and its children in front of the new ones,
    and whatever is below [rebars_svg] stays below it. *)
Definition only_grows (view_plane : Plane) (rebars_svg : ref) : Prop :=
  forall σ σ',
    rtc (pass_step view_plane rebars_svg) σ σ' ->
    grows σ σ'
    /\ incl (iter (length σ) σ rebars_svg) (iter (length σ') σ' rebars_svg).

Lemma builders_only_read view_plane rebars_svg :
  builders_read_only view_plane rebars_svg.
Proof.
  intros σ σ' [rebar result σ1 σ2 H|rebar result σ1 σ2 H
              |rebar hx hy vx vy result σ1 σ2 H].
  - apply (local_app (fun _ => True) _ _ _ _
             (fun k => local_getStirrupSVGData k _ _ _) H).
  - apply (local_app (fun _ => True) _ _ _ _
             (fun k => local_getUShapeRebarSVGData k _ _ _) H).
  - apply (local_app (fun _ => True) _ _ _ _
             (fun k => local_getStraightRebarSVGData k _ _ _ _ _ _ _) H).
Qed.

Lemma pass_step_grows view_plane rebars_svg σ σ' :
  pass_step view_plane rebars_svg σ σ' -> grows σ σ'.
Proof.
  intros [id group σ1 σ2 H|σ1 σ2 H|s exported σ1 σ2 H|group fragment σ1 σ2 H].
  - by eapply mono_category_group.
  - rewrite (builders_only_read _ _ _ _ H). apply grows_app.
  - by eapply mono_fromstring.
  - by eapply mono_append.
Qed.

Lemma steps_only_grow view_plane rebars_svg :
  only_grows view_plane rebars_svg.
Proof.
  intros σ σ' Hsteps.
  assert (grows σ σ') as Hg.
  { induction Hsteps as [|σ1 σ2 σ3 Hstep _ IH]; [apply grows_refl|].
    eapply grows_trans; [by eapply pass_step_grows|exact IH]. }
  split; [exact Hg|]. intros c Hc.
  apply (iter_fuel_mono (length σ)); [by apply grows_length|].
  by apply (iter_grows _ σ).
Qed.

(** A loop whose turns are sequences of steps is a sequence of steps. *)
Lemma for_each_steps {A S} (R : relation Store) (l : list A)
    (body : A -> S -> M S) s σ s' σ' :
  (forall a s σ s' σ', body a s σ = Ok (s', σ') -> rtc R σ σ') ->
  for_each l body s σ = Ok (s', σ') -> rtc R σ σ'.
Proof.
  intros Hbody. revert s σ. induction l as [|a l IH]; intros s σ Hrun.
  - injection Hrun as _ <-. done.
  - simpl in Hrun. inv_bind Hrun.
    etrans; [by eapply Hbody|by eapply IH].
Qed.

Lemma shape_step_steps builder view_plane rebars_svg group rebar σ σ' :
  (forall r σ result σ',
     builder r view_plane rebars_svg σ = Ok (result, σ') ->
     builder_call view_plane rebars_svg σ σ') ->
  shape_step builder view_plane rebars_svg group rebar tt σ = Ok (tt, σ') ->
  rtc (pass_step view_plane rebars_svg) σ σ'.
Proof.
  intros Hb Hrun. unfold shape_step in Hrun. inv_bind Hrun.
  destruct a as [fragment_svg visible].
  eapply rtc_l; [apply step_builder; by eapply Hb|].
  destruct visible.
  - inv_bind Hrun. injection Hrun as <-. destruct a.
    eapply rtc_l; [by eapply step_append|done].
  - by injection Hrun as <-.
Qed.

Lemma straight_step_steps view_plane hx vy rebars_svg group rebar offsets σ
    offsets' σ' :
  straight_step view_plane hx vy rebars_svg group rebar offsets σ
    = Ok (offsets', σ') ->
  rtc (pass_step view_plane rebars_svg) σ σ'.
Proof.
  intros Hrun. unfold straight_step in Hrun. inv_bind Hrun.
  eapply rtc_l; [apply step_builder; by eapply call_straight|].
  destruct (visibility a).
  - inv_bind Hrun. injection Hrun as _ <-. destruct a0.
    eapply rtc_l; [by eapply step_append|done].
  - by injection Hrun as _ <-.
Qed.

Lemma exported_step_steps view_plane rebars_svg group rebar σ σ' :
  exported_step view_plane group rebar tt σ = Ok (tt, σ') ->
  rtc (pass_step view_plane rebars_svg) σ σ'.
Proof.
  intros Hrun. unfold exported_step in Hrun. do 2 inv_bind Hrun.
  injection Hrun as <-. destruct a0.
  eapply rtc_l; [by eapply step_exported|].
  eapply rtc_l; [by eapply step_append|done].
Qed.

(** C9: the pass over the rebars is a sequence of steps that starts from
    the store in which [rebars_svg] has just been created and appended to
    the drawing; the builders called on the way return the store they
    were given followed by new elements, and from any store of the
    sequence to any later one the elements, and in particular those below
    [rebars_svg], are kept. *)
Theorem rebars_svg_only_grows c view_plane ext drawing σ0 rebars_svg σ_end :
  rebars_pass c view_plane ext drawing σ0 = Ok (rebars_svg, σ_end) ->
  rebars_svg = length σ0
  /\ rtc (pass_step view_plane rebars_svg)
       (alter (add_child (length σ0)) drawing
          (σ0 ++ [mkNode "g" [("id", "Rebars")] None []]))
       σ_end
  /\ builders_read_only view_plane rebars_svg
  /\ only_grows view_plane rebars_svg.
Proof.
  intros Hrun. unfold rebars_pass in Hrun.
  unfold ElementTree.bind at 1, Element at 1 in Hrun.
  unfold ElementTree.bind at 1, append at 1 in Hrun.
  set (svg := length σ0) in *. set (σ1 := alter _ _ _) in *.
  repeat
    match type of Hrun with
    | ElementTree.bind (category_group _ _) _ _ = _ =>
        let H := fresh "Hgroup" in
        apply bind_Ok in Hrun as (? & ? & H & Hrun);
        apply (step_group view_plane) in H
    | ElementTree.bind (for_each _ _ _) _ _ = _ =>
        let H := fresh "Hloop" in
        apply bind_Ok in Hrun as (? & ? & H & Hrun)
    end.
  injection Hrun as <- <-.
  split; [done|]. split; [|split].
  - apply (for_each_steps (pass_step view_plane svg)) in Hloop.
    2:{ intros a [] σ [] σ'. apply shape_step_steps.
        intros. by eapply call_stirrup. }
    apply (for_each_steps (pass_step view_plane svg)) in Hloop0.
    2:{ intros a [] σ [] σ'. apply shape_step_steps.
        intros. by eapply call_ushape. }
    apply (for_each_steps (pass_step view_plane svg)) in Hloop1.
    2:{ intros a [] σ [] σ'. apply shape_step_steps.
        intros. by eapply call_ushape. }
    apply (for_each_steps (pass_step view_plane svg)) in Hloop2.
    2:{ intros a [] σ [] σ'. apply shape_step_steps.
        intros. by eapply call_ushape. }
    apply (for_each_steps (pass_step view_plane svg)) in Hloop3.
    2:{ intros a s σ s' σ'. apply straight_step_steps. }
    apply (for_each_steps (pass_step view_plane svg)) in Hloop4.
    2:{ intros a [] σ [] σ'. apply exported_step_steps. }
    apply (for_each_steps (pass_step view_plane svg)) in Hloop5.
    2:{ intros a [] σ [] σ'. apply exported_step_steps. }
    repeat
      match goal with
      | H : pass_step _ _ ?a ?b |- rtc _ ?a _ => eapply rtc_l; [exact H|]
      | H : rtc _ ?a ?b |- rtc _ ?a _ => etrans; [exact H|]
      end.
    done.
  - apply builders_only_read.
  - apply steps_only_grow.
Qed.

End Accumulated.

(** The pass over the two bars of the example, from a store that holds the
    drawing group only. *)
Lemma rebars_svg_only_grows_witness :
  let σ0 := [mkNode "g" [("id", "reinforcement_drawing")] None []] in
  exists rebars_svg σ_end,
    rebars_pass (E := Example.kernel)
      (classify [Example.bar1; Example.bar2]) Example.top
      (mkExtent 0 0 200 300) 0%nat σ0
    = Ok (rebars_svg, σ_end)
    /\ rebars_svg = length σ0
    /\ rtc (pass_step (E := Example.kernel) Example.top rebars_svg)
         (alter (add_child (length σ0)) 0%nat
            (σ0 ++ [mkNode "g" [("id", "Rebars")] None []]))
         σ_end
    /\ builders_read_only (E := Example.kernel) Example.top rebars_svg
    /\ only_grows (E := Example.kernel) Example.top rebars_svg.
Proof.
  intros σ0. eexists _, _. split.
  - vm_compute. reflexivity.
  - eapply (rebars_svg_only_grows (E := Example.kernel)
              (classify [Example.bar1; Example.bar2]) Example.top
              (mkExtent 0 0 200 300) 0%nat σ0).
    vm_compute. reflexivity.
Defined.

(** ** Identical straight rebars *)

Section IdenticalStraight.
Context `{E : External}.
Local Open Scope nat_scope.

(** The projected end points of a wire (its first two vertices). *)
Definition wire_segment (wire : Wire.t) (view_plane : Plane)
    : result (Vector * Vector) :=
  match py_index (Wire.Vertexes wire) 0 with
  | Raise e => Raise e
  | Ok v0 =>
      match py_index (Wire.Vertexes wire) 1 with
      | Raise e => Raise e
      | Ok v1 =>
          Ok (getProjectionToSVGPlane v0 view_plane,
              getProjectionToSVGPlane v1 view_plane)
      end
  end.

(** The segments of the placed copies of the base wire (lines 521-525). *)
Fixpoint placed_segments (basewire : Wire.t) (view_plane : Plane)
    (placements : list FreeCAD.Placement)
    : result (list (Vector * Vector)) :=
  match placements with
  | [] => Ok []
  | placement :: placements' =>
      match wire_segment (placed_wire basewire placement) view_plane with
      | Raise e => Raise e
      | Ok segment =>
          match placed_segments basewire view_plane placements' with
          | Raise e => Raise e
          | Ok segments => Ok (segment :: segments)
          end
      end
  end.

(** The projected segments the straight builder examines for a rebar: the
    base wire when the rebar is seen face-on, one segment for each
    placement otherwise. *)
Definition straight_segments (rebar : Rebar.t) (view_plane : Plane)
    : result (list (Vector * Vector)) :=
  match py_index (Shape.Wires (BaseObject.Shape (Rebar.Base rebar))) 0 with
  | Raise e => Raise e
  | Ok wire0 =>
      if face_on rebar view_plane then
        match wire_segment wire0 view_plane with
        | Raise e => Raise e
        | Ok segment => Ok [segment]
        end
      else placed_segments wire0 view_plane (Rebar.PlacementList rebar)
  end.

Lemma find_in_leaf σ r n t preds :
  σ !! r = Some n -> children n = [] -> find_in σ r t preds = None.
Proof.
  intros Hr Hn. unfold find_in.
  destruct (length σ) as [|f]; [done|]. simpl. by rewrite Hr, Hn.
Qed.

Lemma segment_in_leaf σ r n p1 p2 :
  σ !! r = Some n -> children n = [] -> segment_in σ r p1 p2 = false.
Proof.
  intros Hr Hn. unfold segment_in, point_in, line_in.
  rewrite !(find_in_leaf σ r n) by done.
  by destruct (degenerate p1 p2).
Qed.

Lemma segment_in_app σ l svg p1 p2 :
  wf σ -> svg < length σ ->
  segment_in (σ ++ l) svg p1 p2 = segment_in σ svg p1 p2.
Proof.
  intros Hwf Hsvg. unfold segment_in.
  by rewrite point_in_app, line_in_app.
Qed.

Lemma run_or_else_lines {B} p1 p2 svg own (f : bool -> M B) σ :
  ElementTree.bind
    (or_else (isLineInSVG p1 p2 svg) (isLineInSVG p1 p2 own)) f σ
  = f (line_in σ svg p1 p2 || line_in σ own p1 p2) σ.
Proof.
  unfold or_else. run. destruct (line_in σ svg p1 p2); run; done.
Qed.

Lemma run_or_else_points {B} p svg own (f : bool -> M B) σ :
  ElementTree.bind
    (or_else (isPointInSVG p svg) (isPointInSVG p own)) f σ
  = f (point_in σ svg p || point_in σ own p) σ.
Proof.
  unfold or_else. run. destruct (point_in σ svg p); run; done.
Qed.

(** One turn of the loop over the placements, on any store: the element of
    the segment is allocated, and appended when the rebar is visible or
    the segment is found neither in the accumulated SVG nor in the
    fragment. *)
Lemma straight_placement_run basewire rebar view_plane svg own placement
    visible σ p1 p2 :
  wire_segment (placed_wire basewire placement) view_plane = Ok (p1, p2) ->
  straight_placement basewire rebar view_plane svg own placement visible σ
  = let σ1 := σ ++ [segment_node rebar p1 p2] in
    let found := segment_in σ1 svg p1 p2 || segment_in σ1 own p1 p2 in
    let visible' := if negb found then true else visible in
    Ok (visible',
        if visible' then alter (add_child (length σ)) own σ1 else σ1).
Proof.
  intros Hseg. unfold straight_placement, wire_segment in *.
  destruct (py_index (Wire.Vertexes _) 0) as [v0|]; [|done]. run.
  destruct (py_index (Wire.Vertexes _) 1) as [v1|]; [|done]. run.
  injection Hseg as <- <-.
  set (p1 := getProjectionToSVGPlane v0 view_plane).
  set (p2 := getProjectionToSVGPlane v1 view_plane).
  unfold segment_node, segment_in, degenerate.
  destruct (same_rounded (FreeCAD.x p1) (FreeCAD.x p2)
            && same_rounded (FreeCAD.y p1) (FreeCAD.y p2)).
  - rewrite run_assoc. unfold getPointSVG.
    unfold ElementTree.bind at 1, Element at 1.
    rewrite run_assoc, run_or_else_points, run_ret. cbv zeta.
    destruct (if negb _ then true else visible); [|done].
    by unfold ElementTree.bind, append, ElementTree.ret.
  - rewrite run_assoc. unfold getLineSVG.
    unfold ElementTree.bind at 1, Element at 1.
    rewrite run_assoc, run_or_else_lines, run_ret. cbv zeta.
    destruct (if negb _ then true else visible); [|done].
    by unfold ElementTree.bind, append, ElementTree.ret.
Qed.

(** What a query for the segment asks for: the tag and the attributes. *)
Definition segment_query (p1 p2 : Vector) : string * Attrib :=
  if degenerate p1 p2 then
    ("circle",
     [("cx", rounded (FreeCAD.x p1)); ("cy", rounded (FreeCAD.y p1))])
  else
    ("line",
     [("x1", rounded (FreeCAD.x p1)); ("y1", rounded (FreeCAD.y p1));
      ("x2", rounded (FreeCAD.x p2)); ("y2", rounded (FreeCAD.y p2))]).

(** An element that answers the query for the segment is a child of
    [parent]. *)
Definition drawn (σ : Store) (parent : ref) (p1 p2 : Vector) : Prop :=
  exists n c,
    σ !! parent = Some n /\ In c (children n)
    /\ matches σ (segment_query p1 p2).1 (segment_query p1 p2).2 c = true.

Lemma matches_grows σ σ' t preds c :
  grows σ σ' -> matches σ t preds c = true -> matches σ' t preds c = true.
Proof.
  intros Hg. unfold matches. destruct (σ !! c) as [n|] eqn:Hc; [|done].
  destruct (Hg _ _ Hc) as (n' & -> & -> & -> & _). done.
Qed.

Lemma drawn_grows σ σ' parent p1 p2 :
  grows σ σ' -> drawn σ parent p1 p2 -> drawn σ' parent p1 p2.
Proof.
  intros Hg (n & c & Hn & Hc & Hm).
  destruct (Hg _ _ Hn) as (n' & Hn' & _ & _ & _ & [k Hk]).
  exists n', c. split; [done|].
  split; [rewrite Hk; apply in_or_app; by left|].
  by eapply matches_grows.
Qed.

Lemma find_in_grows σ σ' r t preds :
  grows σ σ' ->
  is_Some (find_in σ r t preds) -> is_Some (find_in σ' r t preds).
Proof.
  intros Hg [c Hc]. unfold find_in in Hc.
  apply find_some in Hc as [Hin Hm].
  apply (find_in_Some _ _ _ _ c).
  - apply (iter_fuel_mono (length σ)); [by apply grows_length|].
    by apply (iter_grows _ σ).
  - by eapply matches_grows.
Qed.

(** What the containment test finds, it finds in every later store. *)
Lemma segment_in_grows σ σ' svg p1 p2 :
  grows σ σ' ->
  segment_in σ svg p1 p2 = true -> segment_in σ' svg p1 p2 = true.
Proof.
  intros Hg. unfold segment_in, point_in, line_in.
  destruct (degenerate p1 p2).
  - rewrite !bool_decide_eq_true. by apply find_in_grows.
  - rewrite !orb_true_iff, !bool_decide_eq_true.
    intros [H|H]; [left|right]; by eapply find_in_grows.
Qed.

Lemma matches_segment_node σ c rebar p1 p2 :
  σ !! c = Some (segment_node rebar p1 p2) ->
  matches σ (segment_query p1 p2).1 (segment_query p1 p2).2 c = true.
Proof.
  intros Hc. unfold matches, segment_query. rewrite Hc.
  unfold segment_node. destruct (degenerate p1 p2); simpl;
    rewrite ?bool_decide_eq_true_2; done.
Qed.

(** What is drawn in a child of an element below [svg] is found by the
    containment test. *)
Lemma drawn_found σ svg parent p1 p2 :
  In parent (iter (Nat.pred (length σ)) σ svg) ->
  drawn σ parent p1 p2 -> segment_in σ svg p1 p2 = true.
Proof.
  intros Hparent (n & c & Hn & Hc & Hm).
  assert (In c (iter (length σ) σ svg)) as Hin.
  { apply (iter_fuel_mono (S (Nat.pred (length σ)))).
    - apply lookup_lt_Some in Hn. lia.
    - by eapply iter_descend. }
  unfold segment_in, point_in, line_in. unfold segment_query in Hm.
  destruct (degenerate p1 p2); simpl in Hm.
  - apply bool_decide_eq_true. by eapply find_in_Some.
  - apply orb_true_iff. left. apply bool_decide_eq_true.
    by eapply find_in_Some.
Qed.

Lemma drawn_new σ own rebar p1 p2 :
  own < length σ ->
  drawn (alter (add_child (length σ)) own (σ ++ [segment_node rebar p1 p2]))
    own p1 p2.
Proof.
  intros Hown. destruct (lookup_lt_is_Some_2 σ own Hown) as [n Hn].
  exists (add_child (length σ) n), (length σ). split; [|split].
  - rewrite list_lookup_alter_eq. by rewrite (lookup_app_l_Some _ _ _ _ Hn).
  - simpl. apply in_or_app. right. by left.
  - apply (matches_segment_node _ _ rebar).
    rewrite list_lookup_alter_ne by lia.
    rewrite lookup_app_r by lia. by rewrite Nat.sub_diag.
Qed.

(** Once the rebar is visible, every later placement is drawn in the
    fragment. *)
Lemma placements_visible basewire rebar view_plane rebars_svg own placements :
  forall segments σ visible σ',
    own < length σ ->
    placed_segments basewire view_plane placements = Ok segments ->
    for_each placements
      (straight_placement basewire rebar view_plane rebars_svg own) true σ
      = Ok (visible, σ') ->
    visible = true /\ grows σ σ'
    /\ Forall (fun s => drawn σ' own s.1 s.2) segments.
Proof.
  induction placements as [|placement placements IH];
    intros segments σ visible σ' Hown Hsegs Hrun.
  - injection Hsegs as <-. injection Hrun as <- <-.
    split; [done|]. split; [apply grows_refl|done].
  - simpl in Hsegs.
    destruct (wire_segment _ _) as [[p1 p2]|] eqn:Hseg; [|done].
    destruct (placed_segments _ _ _) as [rest|] eqn:Hrest; [|done].
    injection Hsegs as <-. simpl in Hrun. inv_bind Hrun.
    rewrite (straight_placement_run _ _ _ _ _ _ _ _ _ _ Hseg) in Hrun0.
    cbv zeta in Hrun0.
    assert (forall b : bool, (if negb b then true else true) = true) as Htrue
      by (by intros []).
    rewrite Htrue in Hrun0. injection Hrun0 as <- <-.
    assert (own < length (alter (add_child (length σ)) own
                            (σ ++ [segment_node rebar p1 p2]))) as Hown'
      by (rewrite length_alter, length_app; lia).
    destruct (IH _ _ _ _ Hown' eq_refl Hrun) as (-> & Hg & Hall).
    split; [done|]. split.
    + eapply grows_trans; [apply grows_app|].
      eapply grows_trans; [apply grows_add_child|exact Hg].
    + constructor; [|done]. simpl.
      eapply drawn_grows; [exact Hg|]. by apply drawn_new.
Qed.

(** The loop over the placements on a rebar that is not visible yet and
    whose fragment, at [length σ], is empty: when some segment is not in
    the accumulated SVG the rebar ends visible, and every segment is in
    the accumulated SVG of the start or drawn in the fragment. *)
Lemma placements_some_new basewire rebar view_plane rebars_svg placements :
  forall segments σ l visible σ',
    wf σ -> rebars_svg < length σ ->
    (exists junk, l = fragment rebar :: junk) ->
    placed_segments basewire view_plane placements = Ok segments ->
    Exists (fun s => segment_in σ rebars_svg s.1 s.2 = false) segments ->
    for_each placements
      (straight_placement basewire rebar view_plane rebars_svg (length σ))
      false (σ ++ l)
      = Ok (visible, σ') ->
    visible = true /\ grows (σ ++ l) σ' /\ length (σ ++ l) < length σ'
    /\ Forall (fun s => segment_in σ rebars_svg s.1 s.2 = true
                        \/ drawn σ' (length σ) s.1 s.2) segments.
Proof.
  induction placements as [|placement placements IH];
    intros segments σ l visible σ' Hwf Hsvg [junk ->] Hsegs Hnew Hrun.
  - injection Hsegs as <-. by apply Exists_nil in Hnew.
  - simpl in Hsegs.
    destruct (wire_segment _ _) as [[p1 p2]|] eqn:Hseg; [|done].
    destruct (placed_segments _ _ _) as [rest|] eqn:Hrest; [|done].
    injection Hsegs as <-. simpl in Hrun. inv_bind Hrun.
    rewrite (straight_placement_run _ _ _ _ _ _ _ _ _ _ Hseg) in Hrun0.
    cbv zeta in Hrun0.
    set (τ := σ ++ fragment rebar :: junk) in *.
    assert (length τ = length σ + S (length junk)) as Hτ
      by (unfold τ; rewrite length_app; simpl; lia).
    assert (segment_in (τ ++ [segment_node rebar p1 p2]) rebars_svg p1 p2
            = segment_in σ rebars_svg p1 p2) as H1.
    { unfold τ. by rewrite <- app_assoc, segment_in_app. }
    assert (segment_in (τ ++ [segment_node rebar p1 p2]) (length σ) p1 p2
            = false) as H2.
    { apply (segment_in_leaf _ _ (fragment rebar)); [|done].
      unfold τ. rewrite <- app_assoc, lookup_app_r by lia.
      by rewrite Nat.sub_diag. }
    rewrite H1, H2, orb_false_r in Hrun0.
    destruct (segment_in σ rebars_svg p1 p2) eqn:Hfound;
      cbn [negb] in Hrun0; injection Hrun0 as <- <-.
    + apply Exists_cons in Hnew as [Hhead|Hnew];
        [simpl in Hhead; congruence|].
      assert (τ ++ [segment_node rebar p1 p2]
              = σ ++ fragment rebar :: junk ++ [segment_node rebar p1 p2])
        as Heq by (unfold τ; by rewrite <- app_assoc).
      rewrite Heq in Hrun.
      destruct (IH rest σ _ _ _ Hwf Hsvg
                  (ex_intro _ (junk ++ [segment_node rebar p1 p2]) eq_refl)
                  eq_refl Hnew Hrun) as (-> & Hg & Hlen & Hall).
      rewrite <- Heq in Hg, Hlen.
      split; [done|].
      split; [eapply grows_trans; [apply grows_app|exact Hg]|].
      split; [rewrite length_app in Hlen; simpl in Hlen; lia|].
      constructor; [by left|done].
    + assert (length σ < length (alter (add_child (length τ)) (length σ)
                                   (τ ++ [segment_node rebar p1 p2])))
        as Hown by (rewrite length_alter, length_app; lia).
      destruct (placements_visible _ _ _ _ _ _ _ _ _ _ Hown Hrest Hrun)
        as (-> & Hg & Hall).
      split; [done|].
      split.
      { eapply grows_trans; [apply grows_app|].
        eapply grows_trans; [apply grows_add_child|exact Hg]. }
      split.
      { apply grows_length in Hg. rewrite length_alter, length_app in Hg.
        simpl in Hg. lia. }
      constructor.
      * right. simpl. eapply drawn_grows; [exact Hg|].
        apply drawn_new. lia.
      * eapply Forall_impl; [exact Hall|]. intros s Hs. by right.
Qed.

(** While every segment is found in the accumulated SVG, the rebar stays
    hidden and nothing is appended. *)
Lemma placements_hidden basewire rebar view_plane rebars_svg own placements :
  forall segments σ,
    placed_segments basewire view_plane placements = Ok segments ->
    (forall σ', grows σ σ' ->
       Forall (fun s => segment_in σ' rebars_svg s.1 s.2 = true) segments) ->
    for_each placements
      (straight_placement basewire rebar view_plane rebars_svg own) false σ
    = Ok (false, σ ++ map (fun s => segment_node rebar s.1 s.2) segments).
Proof.
  induction placements as [|placement placements IH];
    intros segments σ Hsegs Hfound.
  - injection Hsegs as <-. simpl. by rewrite app_nil_r.
  - simpl in Hsegs.
    destruct (wire_segment _ _) as [[p1 p2]|] eqn:Hseg; [|done].
    destruct (placed_segments _ _ _) as [rest|] eqn:Hrest; [|done].
    injection Hsegs as <-. simpl.
    unfold ElementTree.bind at 1.
    rewrite (straight_placement_run _ _ _ _ _ _ _ _ _ _ Hseg). cbv zeta.
    pose proof (Hfound _ (grows_app σ [segment_node rebar p1 p2])) as Hall.
    apply Forall_cons in Hall as [Hhead _]. simpl in Hhead.
    rewrite Hhead. simpl.
    rewrite (IH rest); [by rewrite <- app_assoc|done|].
    intros σ' Hg.
    pose proof (Hfound σ' (grows_trans _ _ _ (grows_app _ _) Hg)) as Hall.
    by apply Forall_cons in Hall as [_ ?].
Qed.

Lemma straight_segments_face_on rebar view_plane segments :
  face_on rebar view_plane = true ->
  straight_segments rebar view_plane = Ok segments ->
  exists p1 p2,
    segments = [(p1, p2)]
    /\ straight_points rebar view_plane = Ok (p1, p2).
Proof.
  intros Hface Hsegs. unfold straight_segments, straight_points in *.
  rewrite Hface in Hsegs. unfold wire_segment in Hsegs.
  destruct (py_index (Shape.Wires _) 0) as [wire0|]; [|done].
  destruct (py_index (Wire.Vertexes wire0) 0) as [v0|]; [|done].
  destruct (py_index (Wire.Vertexes wire0) 1) as [v1|]; [|done].
  injection Hsegs as <-. by eexists _, _.
Qed.

(** The straight builder on a rebar one of whose segments is new: the
    rebar is visible, and every segment is in the accumulated SVG of the
    call or drawn in the fragment. *)
Lemma first_rebar_drawn σ rebars_svg rebar view_plane hx hy vx vy
    segments d σ' :
  wf σ -> rebars_svg < length σ ->
  straight_segments rebar view_plane = Ok segments ->
  Exists (fun s => segment_in σ rebars_svg s.1 s.2 = false) segments ->
  getStraightRebarSVGData rebar view_plane hx hy vx vy rebars_svg σ
    = Ok (d, σ') ->
  visibility d = true /\ svg d = length σ /\ length σ + 2 <= length σ'
  /\ grows σ σ'
  /\ Forall (fun s => segment_in σ rebars_svg s.1 s.2 = true
                      \/ drawn σ' (length σ) s.1 s.2) segments.
Proof.
  intros Hwf Hsvg Hsegs Hnew Hrun.
  destruct (face_on rebar view_plane) eqn:Hface.
  - destruct (straight_segments_face_on _ _ _ Hface Hsegs)
      as (p1 & p2 & -> & Hpts).
    apply Exists_cons in Hnew as [Hnew|Hnew];
      [|by apply Exists_nil in Hnew].
    rewrite (getStraightRebarSVGData_face_on _ _ _ _ _ _ _ _ _ _ Hface Hpts)
      in Hrun.
    rewrite segment_in_app in Hrun by done. simpl in Hnew.
    rewrite Hnew in Hrun.
    destruct (dimension_nodes _ _ _ _ _ _ _ _) as [nodes|]; [|done].
    injection Hrun as <- <-. simpl.
    split; [done|]. split; [done|].
    split; [rewrite length_app; simpl; lia|].
    split; [apply grows_app|].
    constructor; [|done]. right. simpl.
    eexists _, (length σ + 1). split; [|split].
    + rewrite lookup_app_r by lia. rewrite Nat.sub_diag. reflexivity.
    + simpl. by left.
    + apply (matches_segment_node _ _ rebar).
      rewrite lookup_app_r by lia.
      by replace (length σ + 1 - length σ) with 1 by lia.
  - unfold straight_segments in Hsegs.
    unfold getStraightRebarSVGData in Hrun.
    rewrite Hface in Hsegs, Hrun.
    rewrite <- (app_nil_r σ) in Hrun at 1. revert Hrun. run.
    destruct (py_index (Shape.Wires _) 0) as [basewire|]; [|done]. run.
    cbn [app length]. rewrite !Nat.add_0_r. intros Hrun.
    apply bind_Ok in Hrun as (v & σ1 & Hloop & Hret).
    change (mkNode "g" [("id", Rebar.Name rebar)] None [])
      with (fragment rebar) in *.
    destruct (placements_some_new _ _ _ _ _ _ _ _ _ _ Hwf Hsvg
                (ex_intro _ [] eq_refl) Hsegs Hnew Hloop)
      as (-> & Hg & Hlen & Hall).
    injection Hret as <- <-. simpl.
    split; [done|]. split; [done|].
    split; [rewrite length_app in Hlen; simpl in Hlen; lia|].
    split; [eapply grows_trans; [apply grows_app|exact Hg]|done].
Qed.

(** The straight builder on a rebar all of whose segments are found in the
    accumulated SVG: it returns, the rebar is hidden, and the elements it
    allocated are left unattached. *)
Lemma second_rebar_hidden σ rebars_svg rebar view_plane hx hy vx vy
    segments :
  straight_segments rebar view_plane = Ok segments ->
  (forall σ', grows σ σ' ->
     Forall (fun s => segment_in σ' rebars_svg s.1 s.2 = true) segments) ->
  getStraightRebarSVGData rebar view_plane hx hy vx vy rebars_svg σ
  = Ok (mkStraightData (length σ) false hy vx,
        σ ++ fragment rebar
             :: map (fun s => segment_node rebar s.1 s.2) segments).
Proof.
  intros Hsegs Hfound.
  destruct (face_on rebar view_plane) eqn:Hface.
  - destruct (straight_segments_face_on _ _ _ Hface Hsegs)
      as (p1 & p2 & -> & Hpts).
    rewrite (getStraightRebarSVGData_face_on _ _ _ _ _ _ _ _ _ _ Hface Hpts).
    pose proof (Hfound _ (grows_app σ [fragment rebar;
                                        segment_node rebar p1 p2])) as Hall.
    apply Forall_cons in Hall as [Hhead _]. simpl in Hhead.
    by rewrite Hhead.
  - unfold straight_segments in Hsegs. unfold getStraightRebarSVGData.
    rewrite Hface in *.
    rewrite <- (app_nil_r σ) at 1. run.
    destruct (py_index (Shape.Wires _) 0) as [basewire|]; [|done]. run.
    cbn [app length]. rewrite !Nat.add_0_r.
    unfold ElementTree.bind.
    rewrite (placements_hidden _ _ _ _ _ _ _ _ Hsegs).
    + unfold ElementTree.ret. by rewrite <- app_assoc.
    + intros σ' Hg. apply Hfound.
      eapply grows_trans; [apply grows_app|exact Hg].
Qed.

Lemma for_each_app {A S} (l1 l2 : list A) (body : A -> S -> M S) s σ :
  for_each (l1 ++ l2) body s σ
  = ElementTree.bind (for_each l1 body s)
      (fun s' => for_each l2 body s') σ.
Proof.
  revert s σ. induction l1 as [|a l1 IH]; intros s σ; [done|].
  simpl. unfold ElementTree.bind in *.
  destruct (body a s σ) as [[s1 σ1]|e]; [|done]. apply IH.
Qed.

(** The fragment of a visible rebar, once appended to its group, is below
    [rebars_svg] in every later store. *)
Lemma fragment_below σ σ1 σ' rebars_svg group :
  group < length σ ->
  (group = rebars_svg \/ In group (iter (length σ) σ rebars_svg)) ->
  grows σ σ1 -> length σ + 2 <= length σ1 ->
  grows (alter (add_child (length σ)) group σ1) σ' ->
  In (length σ) (iter (Nat.pred (length σ')) σ' rebars_svg).
Proof.
  intros Hgroup Hbelow Hg Hlen Hg'.
  apply (iter_fuel_mono (S (length σ))).
  { apply grows_length in Hg'. rewrite length_alter in Hg'. lia. }
  apply (iter_grows _ _ _ _ _ Hg').
  destruct (lookup_lt_is_Some_2 σ1 group) as [g Hgr].
  { apply grows_length in Hg. lia. }
  assert (alter (add_child (length σ)) group σ1 !! group
          = Some (add_child (length σ) g)) as Hgr'.
  { by rewrite list_lookup_alter_eq, Hgr. }
  assert (In (length σ) (children (add_child (length σ) g))) as Hin.
  { simpl. apply in_or_app. right. by left. }
  destruct Hbelow as [<-|Hbelow].
  - by eapply iter_child.
  - eapply iter_descend; [|exact Hgr'|exact Hin].
    apply (iter_grows _ σ); [|done].
    eapply grows_trans; [exact Hg|apply grows_add_child].
Qed.

(** C3, as the code has it: in the loop over the straight rebars, take two
    rebars with the same projected segments, the second processed after
    the first with any rebars between them, where at least one of the
    segments is not yet in the accumulated SVG when the first rebar is
    reached, and where the loop returns up to the second rebar.  The first
    call returns [visibility = true] and the fragment it returns is a
    child of the straight-rebar group; the call for the second rebar
    returns, with [visibility = false], and its turn of the loop leaves
    every element of the drawing as it was: the elements it allocated are
    appended to nothing. *)
Theorem identical_straight_rebars view_plane hx vy rebars_svg group
    first between second segments offsets σ offsets' σ' :
  wf σ -> rebars_svg < length σ -> group < length σ ->
  (group = rebars_svg \/ In group (iter (length σ) σ rebars_svg)) ->
  straight_segments first view_plane = Ok segments ->
  straight_segments second view_plane = Ok segments ->
  Exists (fun s => segment_in σ rebars_svg s.1 s.2 = false) segments ->
  for_each (first :: between)
    (straight_step view_plane hx vy rebars_svg group) offsets σ
    = Ok (offsets', σ') ->
  (exists data σ1 g,
     getStraightRebarSVGData first view_plane hx offsets.1 offsets.2 vy
       rebars_svg σ = Ok (data, σ1)
     /\ visibility data = true
     /\ σ' !! group = Some g /\ In (svg data) (children g))
  /\ let hidden :=
       σ' ++ fragment second
             :: map (fun s => segment_node second s.1 s.2) segments in
     getStraightRebarSVGData second view_plane hx offsets'.1 offsets'.2 vy
       rebars_svg σ'
     = Ok (mkStraightData (length σ') false offsets'.1 offsets'.2, hidden)
     /\ for_each (first :: between ++ [second])
          (straight_step view_plane hx vy rebars_svg group) offsets σ
        = Ok (offsets', hidden).
Proof.
  intros Hwf Hsvg Hgroup Hbelow Hfirst Hsecond Hnew Hrun.
  pose proof Hrun as Hloop. simpl in Hloop.
  apply bind_Ok in Hloop as (o1 & σ1' & Hstep & Hloop).
  unfold straight_step in Hstep.
  apply bind_Ok in Hstep as (data & σ1 & Hcall & Hstep).
  destruct (first_rebar_drawn _ _ _ _ _ _ _ _ _ _ _ Hwf Hsvg Hfirst Hnew
              Hcall) as (Hvisible & Hfragment & Hlen & Hg & Hdrawn).
  rewrite Hvisible, Hfragment in Hstep.
  unfold ElementTree.bind, append, ElementTree.ret in Hstep.
  injection Hstep as <- <-.
  assert (grows (alter (add_child (length σ)) group σ1) σ') as Hg'.
  { eapply (mono_for_each between); [|exact Hloop].
    intros a s. apply mono_straight_step. }
  assert (forall τ, grows σ' τ ->
            Forall (fun s => segment_in τ rebars_svg s.1 s.2 = true)
              segments) as Hfound.
  { intros τ Hτ. eapply Forall_impl; [exact Hdrawn|].
    intros s [Hs|Hs]; simpl in Hs.
    - apply (segment_in_grows σ); [|done].
      eapply grows_trans; [exact Hg|].
      eapply grows_trans; [apply grows_add_child|].
      eapply grows_trans; [exact Hg'|exact Hτ].
    - apply (drawn_found _ _ (length σ)).
      + eapply fragment_below;
          [exact Hgroup|exact Hbelow|exact Hg|exact Hlen|].
        eapply grows_trans; [exact Hg'|exact Hτ].
      + eapply drawn_grows; [|exact Hs].
        eapply grows_trans; [apply grows_add_child|].
        eapply grows_trans; [exact Hg'|exact Hτ]. }
  pose proof (second_rebar_hidden σ' rebars_svg second view_plane hx
                offsets'.1 offsets'.2 vy _ Hsecond Hfound) as Hhidden.
  split.
  - destruct (lookup_lt_is_Some_2 σ1 group) as [g Hgr].
    { apply grows_length in Hg. lia. }
    destruct (Hg' group (add_child (length σ) g))
      as (g' & Hg'' & _ & _ & _ & [k Hk]).
    { by rewrite list_lookup_alter_eq, Hgr. }
    exists data, σ1, g'. split; [done|]. split; [done|]. split; [done|].
    rewrite Hk, Hfragment. simpl. apply in_or_app. left.
    apply in_or_app. right. by left.
  - cbv zeta. split; [exact Hhidden|].
    change (first :: between ++ [second])
      with ((first :: between) ++ [second]).
    rewrite for_each_app. unfold ElementTree.bind at 1. rewrite Hrun.
    simpl. unfold ElementTree.bind at 1, straight_step at 1.
    unfold ElementTree.bind at 1.
    destruct offsets' as [hy' vx']. simpl in Hhidden. simpl fst. simpl snd.
    rewrite Hhidden. done.
Qed.

End IdenticalStraight.


(** * Further properties of the module *)

(** ** Comparisons and extrema of Python floats *)

Section PyFacts.

Lemma Py_lt_spec (a b : Q) : Py.lt a b = true <-> (a < b)%Q.
Proof.
  unfold Py.lt. rewrite negb_true_iff.
  destruct (Qle_bool b a) eqn:H.
  - apply Qle_bool_iff in H. split; [done|]. intros. lra.
  - split; [|done]. intros _.
    destruct (Qlt_le_dec a b) as [|Hle]; [done|].
    apply Qle_bool_iff in Hle. congruence.
Qed.

Lemma Py_lt_false (a b : Q) : Py.lt a b = false <-> (b <= a)%Q.
Proof.
  unfold Py.lt. rewrite negb_false_iff. apply Qle_bool_iff.
Qed.

Lemma Py_eq_spec (a b : Q) : Py.eq a b = true <-> (a == b)%Q.
Proof. apply Qeq_bool_iff. Qed.

Lemma Py_min_le_l (a b : Q) : (Py.min a b <= a)%Q.
Proof.
  unfold Py.min. destruct (Py.lt b a) eqn:H; [|lra].
  apply Py_lt_spec in H. lra.
Qed.

Lemma Py_min_le_r (a b : Q) : (Py.min a b <= b)%Q.
Proof.
  unfold Py.min. destruct (Py.lt b a) eqn:H; [lra|].
  by apply Py_lt_false in H.
Qed.

Lemma Py_max_ge_l (a b : Q) : (a <= Py.max a b)%Q.
Proof.
  unfold Py.max. destruct (Py.lt a b) eqn:H; [|lra].
  apply Py_lt_spec in H. lra.
Qed.

Lemma Py_max_ge_r (a b : Q) : (b <= Py.max a b)%Q.
Proof.
  unfold Py.max. destruct (Py.lt a b) eqn:H; [lra|].
  by apply Py_lt_false in H.
Qed.

Lemma Py_min_cases (a b : Q) : Py.min a b = a \/ Py.min a b = b.
Proof. unfold Py.min. destruct (Py.lt b a); auto. Qed.

Lemma Py_max_cases (a b : Q) : Py.max a b = a \/ Py.max a b = b.
Proof. unfold Py.max. destruct (Py.lt a b); auto. Qed.

End PyFacts.

Section AbsFacts.

Lemma Py_eq_sub (a b : Q) : Py.eq (b - a) 0 = Py.eq a b.
Proof.
  apply eq_true_iff_eq. rewrite !Py_eq_spec. split; intros; lra.
Qed.

Lemma Qabs_zero (a : Q) : (a == 0)%Q -> (Qabs a == 0)%Q.
Proof. intros H. rewrite H. reflexivity. Qed.

Lemma Qabs_le_zero (a : Q) : (Qabs a <= 0)%Q -> (a == 0)%Q.
Proof.
  intros H. pose proof (Qabs_nonneg a) as Hn.
  pose proof (Qle_Qabs a) as H1. pose proof (Qle_Qabs (- a)) as H2.
  rewrite Qabs_opp in H2. lra.
Qed.

End AbsFacts.

(** ** Rounding to a double *)

Section DoubleFacts.

Lemma Py_round_floor (q : Q) : Qfloor q <= Py.round q.
Proof.
  unfold Py.round. destruct (Qcompare _ _); [destruct (Z.even _)| |]; lia.
Qed.

Lemma Py_round_ceiling (q : Q) : Py.round q <= Qfloor q + 1.
Proof.
  unfold Py.round. destruct (Qcompare _ _); [destruct (Z.even _)| |]; lia.
Qed.

Lemma Py_round_Z (n : Z) : Py.round (inject_Z n) = n.
Proof.
  unfold Py.round. rewrite Qfloor_Z.
  destruct (Qcompare _ _) eqn:Hc; [| done |].
  - apply Qeq_alt in Hc. lra.
  - apply Qgt_alt in Hc. lra.
Qed.

Lemma Py_round_le (a b : Q) : (a <= b)%Q -> Py.round a <= Py.round b.
Proof.
  intros Hab. pose proof (Qfloor_resp_le _ _ Hab) as Hf.
  destruct (Z.eq_dec (Qfloor a) (Qfloor b)) as [Heq|Hne].
  - unfold Py.round. rewrite Heq.
    destruct (Qcompare (a - _) _) eqn:Ha;
      destruct (Qcompare (b - _) _) eqn:Hb;
      try (destruct (Z.even _)); try lia.
    + apply Qeq_alt in Ha. apply Qlt_alt in Hb. lra.
    + apply Qgt_alt in Ha. apply Qeq_alt in Hb. lra.
    + apply Qgt_alt in Ha. apply Qlt_alt in Hb. lra.
  - pose proof (Py_round_ceiling a). pose proof (Py_round_floor b). lia.
Qed.

Lemma pow2_pos (e : Z) : (0 < 2 ^ e)%Q.
Proof. by apply Qpower_0_lt. Qed.

Lemma pow2_add (a b : Z) : (2 ^ (a + b) == 2 ^ a * 2 ^ b)%Q.
Proof. by apply Qpower_plus. Qed.

Lemma pow2_le (a b : Z) : a <= b -> (2 ^ a <= 2 ^ b)%Q.
Proof. intros H. by apply Qpower_le_compat_l. Qed.

Lemma pow2_Z (n : Z) : 0 <= n -> (2 ^ n == inject_Z (2 ^ n))%Q.
Proof. intros H. symmetry. by apply (Zpower_Qpower 2). Qed.

Lemma pow2_log2 (n : Z) :
  0 < n ->
  (2 ^ Z.log2 n <= inject_Z n)%Q /\ (inject_Z n < 2 * 2 ^ Z.log2 n)%Q.
Proof.
  intros Hn. destruct (Z.log2_spec n Hn) as [Hlo Hhi].
  pose proof (Z.log2_nonneg n) as Hk.
  rewrite pow2_Z by done. split.
  - by rewrite <- Zle_Qle.
  - change 2%Q with (inject_Z 2). rewrite <- inject_Z_mult, <- Zlt_Qlt.
    by rewrite Z.pow_succ_r in Hhi.
Qed.

Lemma quotient_bracket (x D N A B P : Q) :
  (0 < P)%Q -> (0 < B)%Q -> (0 <= x)%Q ->
  (A <= N)%Q -> (N < 2 * A)%Q -> (B <= D)%Q -> (D < 2 * B)%Q ->
  (A == P * B)%Q -> (x * D == N)%Q ->
  (x < 2 * P)%Q /\ (P < 2 * x)%Q.
Proof.
  intros HP HB Hx Hn1 Hn2 Hd1 Hd2 Hk HN.
  assert (0 < D)%Q as HD by lra. split.
  - apply Qnot_le_lt. intros Hle.
    assert (2 * P * B <= x * D)%Q.
    { apply Qle_trans with (2 * P * D)%Q.
      - apply Qmult_le_l; [lra|done].
      - apply Qmult_le_r; done. }
    lra.
  - apply Qnot_le_lt. intros Hle.
    assert (2 * x * D < P * (2 * B))%Q.
    { apply Qle_lt_trans with (P * D)%Q.
      - apply Qmult_le_r; done.
      - apply Qmult_lt_l; done. }
    lra.
Qed.

(** [ilog2] brackets the magnitude of its argument between two
    successive powers of 2. *)
Lemma ilog2_spec (q : Q) :
  ~ (q == 0)%Q ->
  (2 ^ Py.ilog2 q <= Qabs q)%Q /\ (Qabs q < 2 ^ (Py.ilog2 q + 1))%Q.
Proof.
  intros Hq. unfold Py.ilog2.
  set (n := Z.abs (Qnum q)). set (d := Zpos (Qden q)).
  set (k := Z.log2 n - Z.log2 d).
  assert (0 < n) as Hn.
  { unfold n. destruct q as [[|p|p] dq]; simpl; try lia.
    exfalso. apply Hq. reflexivity. }
  assert (0 < d) as Hd by (unfold d; lia).
  destruct (pow2_log2 n Hn) as [Hn1 Hn2].
  destruct (pow2_log2 d Hd) as [Hd1 Hd2].
  assert (2 ^ Z.log2 n == 2 ^ k * 2 ^ Z.log2 d)%Q as Hk.
  { rewrite <- pow2_add. unfold k.
    by replace (Z.log2 n - Z.log2 d + Z.log2 d) with (Z.log2 n) by lia. }
  assert (Qabs q * inject_Z d == inject_Z n)%Q as Hx.
  { destruct q as [nq dq]. unfold n, d. simpl.
    rewrite (Qmake_Qdiv (Z.abs nq) dq). field.
    intros H. unfold Qeq in H. simpl in H. lia. }
  destruct (quotient_bracket _ _ _ _ _ _ (pow2_pos k)
              (pow2_pos (Z.log2 d)) (Qabs_nonneg q) Hn1 Hn2 Hd1 Hd2 Hk Hx)
    as [Hup Hlow].
  assert (2 ^ (k + 1) == 2 * 2 ^ k)%Q as Hk1.
  { rewrite pow2_add. change (2 ^ 1)%Q with 2%Q. ring. }
  assert (2 ^ k == 2 * 2 ^ (k - 1))%Q as Hk0.
  { replace k with (k - 1 + 1) at 1 by lia.
    rewrite pow2_add. change (2 ^ 1)%Q with 2%Q. ring. }
  destruct (Qle_bool (2 ^ k) (Qabs q)) eqn:Hle.
  - apply Qle_bool_iff in Hle. split; [done|]. by rewrite Hk1.
  - assert (Qabs q < 2 ^ k)%Q as Hlt.
    { apply Qnot_le_lt. intros H. apply Qle_bool_iff in H. congruence. }
    replace (k - 1 + 1) with k by lia. split; [|done].
    rewrite Hk0 in Hlow. lra.
Qed.

Lemma ilog2_le (x y : Q) :
  (0 < x)%Q -> (x <= y)%Q -> Py.ilog2 x <= Py.ilog2 y.
Proof.
  intros Hx Hxy.
  destruct (ilog2_spec x) as [Hlo _]; [lra|].
  destruct (ilog2_spec y) as [_ Hhi]; [lra|].
  rewrite Qabs_pos in Hlo, Hhi by lra.
  assert (Py.ilog2 x < Py.ilog2 y + 1); [|lia].
  apply (Qpower_lt_compat_l_inv 2); [lra|done].
Qed.

Lemma Qdiv_le (a b p : Q) : (0 < p)%Q -> (a <= b)%Q -> (a / p <= b / p)%Q.
Proof.
  intros Hp Hab. apply Qmult_le_compat_r; [done|].
  apply Qlt_le_weak. by apply Qinv_lt_0_compat.
Qed.

Lemma double_positive (q : Q) :
  (0 < q)%Q ->
  Py.double q
  = (inject_Z (Py.round (q / 2 ^ Py.ulp_exponent q))
     * 2 ^ Py.ulp_exponent q)%Q.
Proof.
  intros Hq. unfold Py.double.
  destruct (Qeq_bool q 0) eqn:H0; [|done].
  apply Qeq_bool_iff in H0. lra.
Qed.

(** A positive number does not round below the power of 2 under it... *)
Lemma double_ge_pow2 (q : Q) :
  (0 < q)%Q -> Py.ulp_exponent q = Py.ilog2 q - 52 ->
  (2 ^ Py.ilog2 q <= Py.double q)%Q.
Proof.
  intros Hq He. rewrite double_positive by done. rewrite He.
  destruct (ilog2_spec q) as [Hlo _]; [lra|].
  rewrite Qabs_pos in Hlo by lra.
  set (k := Py.ilog2 q) in *.
  assert (2 ^ k == inject_Z (2 ^ 52) * 2 ^ (k - 52))%Q as Hk.
  { rewrite <- pow2_Z by done. rewrite <- pow2_add.
    by replace (52 + (k - 52)) with k by lia. }
  rewrite Hk. apply Qmult_le_compat_r; [|apply Qlt_le_weak, pow2_pos].
  rewrite <- Zle_Qle. rewrite <- (Py_round_Z (2 ^ 52)) at 1.
  apply Py_round_le. apply Qle_shift_div_l; [apply pow2_pos|].
  by rewrite <- Hk.
Qed.

(** ... nor above a power of 2 over it. *)
Lemma double_le_pow2 (q : Q) (m : Z) :
  (0 < q)%Q -> (q <= 2 ^ m)%Q -> Py.ulp_exponent q <= m ->
  (Py.double q <= 2 ^ m)%Q.
Proof.
  intros Hq Hm He. rewrite double_positive by done.
  set (e := Py.ulp_exponent q) in *.
  assert (2 ^ m == inject_Z (2 ^ (m - e)) * 2 ^ e)%Q as Hk.
  { rewrite <- pow2_Z by lia. rewrite <- pow2_add.
    by replace (m - e + e) with m by lia. }
  rewrite Hk. apply Qmult_le_compat_r; [|apply Qlt_le_weak, pow2_pos].
  rewrite <- Zle_Qle. rewrite <- (Py_round_Z (2 ^ (m - e))) at 1.
  apply Py_round_le. apply Qle_shift_div_r; [apply pow2_pos|].
  by rewrite <- Hk.
Qed.

(** Rounding to a double keeps the sign... *)
Lemma double_nonneg (q : Q) : (0 <= q)%Q -> (0 <= Py.double q)%Q.
Proof.
  intros Hq. unfold Py.double. destruct (Qeq_bool q 0); [done|].
  apply Qmult_le_0_compat; [|apply Qlt_le_weak, pow2_pos].
  change 0%Q with (inject_Z 0). rewrite <- Zle_Qle.
  rewrite <- (Py_round_Z 0). apply Py_round_le.
  apply Qle_shift_div_l; [apply pow2_pos|].
  change (inject_Z 0) with 0%Q. by rewrite Qmult_0_l.
Qed.

(** ... and the order of positive numbers. *)
Lemma double_le (x y : Q) :
  (0 < x)%Q -> (x <= y)%Q -> (Py.double x <= Py.double y)%Q.
Proof.
  intros Hx Hxy. assert (0 < y)%Q as Hy by lra.
  pose proof (ilog2_le x y Hx Hxy) as Hk.
  destruct (Z.eq_dec (Py.ulp_exponent x) (Py.ulp_exponent y)) as [He|He].
  - rewrite !double_positive by done. rewrite He.
    apply Qmult_le_compat_r; [|apply Qlt_le_weak, pow2_pos].
    rewrite <- Zle_Qle. apply Py_round_le.
    apply Qdiv_le; [apply pow2_pos|done].
  - unfold Py.ulp_exponent in He.
    assert (Py.ulp_exponent y = Py.ilog2 y - 52
            /\ Py.ulp_exponent x <= Py.ilog2 y
            /\ Py.ilog2 x + 1 <= Py.ilog2 y) as (Hey & Hex & Hlt)
      by (unfold Py.ulp_exponent; lia).
    apply Qle_trans with (2 ^ Py.ilog2 y)%Q.
    + apply double_le_pow2; [done| |done].
      destruct (ilog2_spec x) as [_ Hhi]; [lra|].
      rewrite Qabs_pos in Hhi by lra.
      apply Qle_trans with (2 ^ (Py.ilog2 x + 1))%Q; [lra|].
      by apply pow2_le.
    + by apply double_ge_pow2.
Qed.

End DoubleFacts.

(** ** The dimension of a segment *)

Section Dimensions.
Context `{E : External}.
Local Open Scope nat_scope.

Lemma getLineDimensionsData_run p1 p2 t hx hy vx vy σ :
  getLineDimensionsData p1 p2 t hx hy vx vy σ
  = match dimension_nodes p1 p2 t hx hy vx vy (length σ) with
    | Raise e => Raise e
    | Ok nodes => Ok ((length σ, dimension_horizontal p1 p2), σ ++ nodes)
    end.
Proof.
  pose proof (getLineDimensionsData_app p1 p2 t hx hy vx vy σ []) as H.
  rewrite app_nil_r in H. simpl in H. by rewrite Nat.add_0_r in H.
Qed.

(** [p1.x == p2.x and p1.y == p2.y] *)
Definition coincident (p1 p2 : Vector) : bool :=
  Py.eq (FreeCAD.x p1) (FreeCAD.x p2) && Py.eq (FreeCAD.y p1) (FreeCAD.y p2).

(** The divisor of the branch that [getLineDimensionsData] takes is zero
    exactly when the two points coincide. *)
Lemma dimension_nodes_coincident p1 p2 t hx hy vx vy base :
  if coincident p1 p2 then
    dimension_nodes p1 p2 t hx hy vx vy base = Raise Py.ZeroDivisionError
  else
    exists leader label,
      dimension_nodes p1 p2 t hx hy vx vy base
      = Ok [mkNode "g" [] None [base + 1; base + 2]; leader; label]
      /\ tag leader = "path" /\ tag label = "text".
Proof.
  unfold coincident, dimension_nodes, dimension_horizontal, py_div.
  rewrite !Py_eq_sub.
  destruct (Py.eq (FreeCAD.x p1) (FreeCAD.x p2)) eqn:Hx;
    destruct (Py.eq (FreeCAD.y p1) (FreeCAD.y p2)) eqn:Hy; cbn [andb];
    destruct (Py.lt _ _) eqn:Hlt; cbn [negb];
    try apply Py_eq_spec in Hx; try apply Py_eq_spec in Hy;
    try apply Py_lt_spec in Hlt; try apply Py_lt_false in Hlt;
    unfold Py.abs in Hlt;
    try (by eexists _, _);
    try reflexivity; exfalso.
  - pose proof (Qabs_nonneg (FreeCAD.y p2 - FreeCAD.y p1)).
    assert (FreeCAD.x p2 - FreeCAD.x p1 == 0)%Q as H0 by lra.
    apply Qabs_zero in H0. lra.
  - assert (FreeCAD.y p2 - FreeCAD.y p1 == 0)%Q as H0 by lra.
    apply Qabs_zero in H0.
    assert (Qabs (FreeCAD.x p2 - FreeCAD.x p1) <= 0)%Q as H1 by lra.
    apply Qabs_le_zero in H1.
    assert (~ FreeCAD.x p1 == FreeCAD.x p2)%Q as Hne
      by (intros Heq; apply Py_eq_spec in Heq; congruence).
    apply Hne. lra.
Qed.

(** X1: [getLineDimensionsData] raises [ZeroDivisionError] exactly when the
    two points have the same x and the same y; on any other pair it
    returns the dimension group, allocated first, with two children: the
    leader path and the label. *)
Theorem dimension_fails_on_coincident_points p1 p2 t hx hy vx vy σ :
  if coincident p1 p2 then
    getLineDimensionsData p1 p2 t hx hy vx vy σ
    = Raise Py.ZeroDivisionError
  else
    exists leader label,
      getLineDimensionsData p1 p2 t hx hy vx vy σ
      = Ok ((length σ, dimension_horizontal p1 p2),
            σ ++ [mkNode "g" [] None [length σ + 1; length σ + 2];
                  leader; label])
      /\ tag leader = "path" /\ tag label = "text".
Proof.
  rewrite getLineDimensionsData_run.
  pose proof (dimension_nodes_coincident p1 p2 t hx hy vx vy (length σ))
    as H.
  destruct (coincident p1 p2).
  - by rewrite H.
  - destruct H as (leader & label & -> & ? & ?). by exists leader, label.
Qed.

End Dimensions.

(** ** A straight rebar of no length *)

Section ZeroLength.
Context `{E : External}.
Local Open Scope nat_scope.

Lemma Py_round_wd (a b : Q) : (a == b)%Q -> Py.round a = Py.round b.
Proof.
  intros H. unfold Py.round. rewrite (Qfloor_comp _ _ H).
  assert (a - inject_Z (Qfloor b) == b - inject_Z (Qfloor b))%Q as H'
    by (rewrite H; reflexivity).
  by rewrite (Qcompare_comp _ _ H' _ _ (Qeq_refl (1 # 2))).
Qed.

Lemma coincident_degenerate p1 p2 :
  coincident p1 p2 = true -> degenerate p1 p2 = true.
Proof.
  unfold coincident, degenerate, same_rounded.
  intros [Hx Hy]%andb_true_iff.
  apply Py_eq_spec in Hx, Hy.
  rewrite (Py_round_wd _ _ Hx), (Py_round_wd _ _ Hy), !Z.eqb_refl. done.
Qed.

(** X2: a straight rebar seen face-on whose two projected end points
    coincide, at a point for which the accumulated SVG holds no marker
    yet, makes [getStraightRebarSVGData] raise [ZeroDivisionError]: the
    rebar is visible, so its dimension is computed. *)
Theorem straight_rebar_without_length_fails σ rebars_svg rebar view_plane
    hx hy vx vy p1 p2 :
  wf σ -> rebars_svg < length σ ->
  face_on rebar view_plane = true ->
  straight_points rebar view_plane = Ok (p1, p2) ->
  coincident p1 p2 = true ->
  point_in σ rebars_svg p1 = false ->
  getStraightRebarSVGData rebar view_plane hx hy vx vy rebars_svg σ
  = Raise Py.ZeroDivisionError.
Proof.
  intros Hwf Hsvg Hface Hpts Hsame Hnew.
  rewrite (getStraightRebarSVGData_face_on _ _ _ _ _ _ _ _ _ _ Hface Hpts).
  unfold segment_in. rewrite (coincident_degenerate _ _ Hsame).
  rewrite point_in_app, Hnew by done.
  pose proof (dimension_nodes_coincident p1 p2 (dimension_text rebar)
                hx hy vx vy (length σ + 2)) as H.
  rewrite Hsame in H. by rewrite H.
Qed.

End ZeroLength.

Module Samples.

(** A bar along the z axis: seen from the top its two ends project on the
    origin. *)
Definition upright : Rebar.t :=
  Example.rebar "upright" "StraightRebar" [Vec 0 0 0; Vec 0 0 100].

(** The view from the front. *)
Definition front : Plane :=
  WorkingPlane.mkPlane (Vec 0 0 0) (Vec 1 0 0) (Vec 0 0 (-1)) (Vec 0 (-1) 0).

(** A drawing that holds the group [Rebars] and in it one empty group. *)
Definition empty_drawing : Store :=
  [mkNode "g" [("id", "Rebars")] None [1%nat];
   mkNode "g" [("id", "StraightRebar")] None []].

(** A placement that moves a wire by [z] along the z axis. *)
Definition lifted (z : Q) : FreeCAD.Placement :=
  FreeCAD.mkPlacement (Vec 0 0 z) (FreeCAD.mkRotation 0 0 0 1).

(** A rebar of rounding 0 and three placements: the base wire, and two
    copies 20 lower. *)
Definition repeated (name shape : string) (pts : list Vector) : Rebar.t :=
  Rebar.mk name shape
    (BaseObject.mk "Wire" (Shape.mk [Example.wire pts]) Example.identity)
    (Shape.mk [Example.wire pts]) None 0 8 4
    [lifted 0; lifted (-20); lifted (-20)].

Definition cage : Rebar.t :=
  repeated "cage" "Stirrup" [Vec 0 0 0; Vec 100 0 0; Vec 100 (-50) 0].

Definition mat : Rebar.t :=
  repeated "mat" "StraightRebar" [Vec 0 0 0; Vec 100 0 0].

(** A bar with a leg that points away from the viewer in the front
    view. *)
Definition hairpin : Rebar.t :=
  Example.sharp "hairpin" "UShapeRebar"
    [Vec 0 0 0; Vec 100 0 0; Vec 100 50 0].

End Samples.

Lemma straight_rebar_without_length_fails_witness :
  getStraightRebarSVGData (E := Example.kernel) Samples.upright Example.top
    250 50 50 (-50) 0%nat Samples.empty_drawing
  = Raise Py.ZeroDivisionError.
Proof.
  eapply (straight_rebar_without_length_fails (E := Example.kernel)
            Samples.empty_drawing 0%nat Samples.upright Example.top
            250 50 50 (-50) (Vec 0 0 0) (Vec 0 0 0)).
  - apply wf_check. reflexivity.
  - simpl. lia.
  - reflexivity.
  - vm_compute. reflexivity.
  - reflexivity.
  - reflexivity.
Defined.

(** ** The line that stands for a stirrup seen from the side *)

Section StirrupPoints.
Context `{E : External}.


(** [lo] and [hi] bound the values of [f] on [l] and are among them. *)
Definition extreme_values (f : Vector -> Q) (l : list Vector) (lo hi : Q)
    : Prop :=
  Forall (fun p => (lo <= f p <= hi)%Q) l
  /\ Exists (fun p => f p = lo) l /\ Exists (fun p => f p = hi) l.

Lemma extreme_values_snoc f l lo hi p :
  extreme_values f l lo hi ->
  extreme_values f (l ++ [p]) (Py.min lo (f p)) (Py.max hi (f p)).
Proof.
  intros (Hall & Hlo & Hhi). split; [|split].
  - apply Forall_app. split.
    + eapply Forall_impl; [exact Hall|]. intros q [? ?]. simpl.
      pose proof (Py_min_le_l lo (f p)). pose proof (Py_max_ge_l hi (f p)).
      split; lra.
    + constructor; [|done].
      pose proof (Py_min_le_r lo (f p)). pose proof (Py_max_ge_r hi (f p)).
      split; lra.
  - apply Exists_app. destruct (Py_min_cases lo (f p)) as [->| ->].
    + by left.
    + right. by constructor.
  - apply Exists_app. destruct (Py_max_cases hi (f p)) as [->| ->].
    + by left.
    + right. by constructor.
Qed.


Lemma foldl_pointwise {A B} (f g : A -> B -> A) (l : list B) (a : A) :
  (forall a b, f a b = g a b) -> foldl f a l = foldl g a l.
Proof.
  intros H. revert a. induction l as [|b l IH]; intros a; [done|].
  simpl. by rewrite H, IH.
Qed.


End StirrupPoints.

(** ** Sorting the rebars by shape *)

Section Classification.

(** The rebars of [l] whose [RebarShape] is [shape], in the order of [l]. *)
Definition of_shape (shape : string) (l : list Rebar.t) : list Rebar.t :=
  List.filter (fun r => String.eqb (Rebar.RebarShape r) shape) l.

Definition named_shapes : list string :=
  ["Stirrup"; "BentShapeRebar"; "UShapeRebar"; "LShapeRebar";
   "StraightRebar"; "HelicalRebar"].

(** The rebars of [l] of any other shape. *)
Definition of_other_shape (l : list Rebar.t) : list Rebar.t :=
  List.filter
    (fun r => negb (existsb (String.eqb (Rebar.RebarShape r)) named_shapes))
    l.

Lemma classify_rebar_fields c r :
  let c' := classify_rebar c r in
  stirrups c' = stirrups c ++ of_shape "Stirrup" [r]
  /\ bent_rebars c' = bent_rebars c ++ of_shape "BentShapeRebar" [r]
  /\ u_rebars c' = u_rebars c ++ of_shape "UShapeRebar" [r]
  /\ l_rebars c' = l_rebars c ++ of_shape "LShapeRebar" [r]
  /\ straight_rebars c' = straight_rebars c ++ of_shape "StraightRebar" [r]
  /\ helical_rebars c' = helical_rebars c ++ of_shape "HelicalRebar" [r]
  /\ custom_rebars c' = custom_rebars c ++ of_other_shape [r].
Proof.
  unfold classify_rebar, of_shape, of_other_shape, named_shapes.
  cbn [List.filter existsb].
  repeat
    match goal with
    | |- context [String.eqb (Rebar.RebarShape r) ?s] =>
        let H := fresh "H" in
        destruct (String.eqb (Rebar.RebarShape r) s) eqn:H;
        [apply String.eqb_eq in H; rewrite H; cbn;
         rewrite ?app_nil_r; by repeat split|]
    end.
  destruct (String.eqb (Rebar.RebarShape r) "HelicalRebar") eqn:H6.
  - cbn. rewrite ?app_nil_r. by repeat split.
  - cbn. rewrite ?app_nil_r. by repeat split.
Qed.

Lemma classify_fold l c :
  let c' := foldl classify_rebar c l in
  stirrups c' = stirrups c ++ of_shape "Stirrup" l
  /\ bent_rebars c' = bent_rebars c ++ of_shape "BentShapeRebar" l
  /\ u_rebars c' = u_rebars c ++ of_shape "UShapeRebar" l
  /\ l_rebars c' = l_rebars c ++ of_shape "LShapeRebar" l
  /\ straight_rebars c' = straight_rebars c ++ of_shape "StraightRebar" l
  /\ helical_rebars c' = helical_rebars c ++ of_shape "HelicalRebar" l
  /\ custom_rebars c' = custom_rebars c ++ of_other_shape l.
Proof.
  revert c. induction l as [|r l IH]; intros c.
  - cbn. rewrite !app_nil_r. by repeat split.
  - cbn [foldl]. cbv zeta.
    destruct (IH (classify_rebar c r)) as (-> & -> & -> & -> & -> & -> & ->).
    destruct (classify_rebar_fields c r)
      as (-> & -> & -> & -> & -> & -> & ->).
    unfold of_shape, of_other_shape.
    rewrite <- !app_assoc.
    change (r :: l) with ([r] ++ l). rewrite !List.filter_app. by repeat split.
Qed.

(** X4: the loop that sorts the rebars puts in each of the six named lists
    exactly the rebars of that [RebarShape] and in the list of the custom
    rebars exactly those of any other shape, each list in the order of
    [rebars_list]; every rebar of [rebars_list] is in one of the lists. *)
Theorem classify_by_shape rebars_list :
  let c := classify rebars_list in
  stirrups c = of_shape "Stirrup" rebars_list
  /\ bent_rebars c = of_shape "BentShapeRebar" rebars_list
  /\ u_rebars c = of_shape "UShapeRebar" rebars_list
  /\ l_rebars c = of_shape "LShapeRebar" rebars_list
  /\ straight_rebars c = of_shape "StraightRebar" rebars_list
  /\ helical_rebars c = of_shape "HelicalRebar" rebars_list
  /\ custom_rebars c = of_other_shape rebars_list
  /\ Forall
       (fun r =>
          Exists (fun category => In r category)
            [stirrups c; bent_rebars c; u_rebars c; l_rebars c;
             straight_rebars c; helical_rebars c; custom_rebars c])
       rebars_list.
Proof.
  intros c. unfold c, classify.
  destruct (classify_fold rebars_list (mkClassified [] [] [] [] [] [] []))
    as (-> & -> & -> & -> & -> & -> & ->).
  cbn [stirrups bent_rebars u_rebars l_rebars straight_rebars helical_rebars
       custom_rebars app].
  do 7 (split; [done|]).
  apply List.Forall_forall. intros r Hr.
  unfold of_shape, of_other_shape, named_shapes.
  rewrite !Exists_cons. rewrite !List.filter_In. cbn [existsb].
  destruct (String.eqb (Rebar.RebarShape r) "Stirrup"); [by left|].
  destruct (String.eqb (Rebar.RebarShape r) "BentShapeRebar");
    [by right; left|].
  destruct (String.eqb (Rebar.RebarShape r) "UShapeRebar");
    [by right; right; left|].
  destruct (String.eqb (Rebar.RebarShape r) "LShapeRebar");
    [by right; right; right; left|].
  destruct (String.eqb (Rebar.RebarShape r) "StraightRebar");
    [by right; right; right; right; left|].
  destruct (String.eqb (Rebar.RebarShape r) "HelicalRebar");
    [by right; right; right; right; right; left|].
  by right; right; right; right; right; right; left.
Qed.

End Classification.

(** ** The frames of the named views *)

Section ViewFrames.
Context `{E : External}.

Definition inner (a b : Vector) : Q :=
  (FreeCAD.x a * FreeCAD.x b + FreeCAD.y a * FreeCAD.y b
   + FreeCAD.z a * FreeCAD.z b)%Q.

(** [u], [v] and [axis] are unit vectors at right angles to one another,
    and [axis] is the cross product of [v] and [u]: with [u] drawn to the
    right and [v] drawn downwards, as in SVG, [axis] points to the
    viewer. *)
Definition drawing_frame_of (p : Plane) : Prop :=
  WorkingPlane.position p = Vec 0 0 0
  /\ inner (WorkingPlane.u p) (WorkingPlane.u p) = 1%Q
  /\ inner (WorkingPlane.v p) (WorkingPlane.v p) = 1%Q
  /\ inner (WorkingPlane.axis p) (WorkingPlane.axis p) = 1%Q
  /\ inner (WorkingPlane.u p) (WorkingPlane.v p) = 0%Q
  /\ inner (WorkingPlane.u p) (WorkingPlane.axis p) = 0%Q
  /\ inner (WorkingPlane.v p) (WorkingPlane.axis p) = 0%Q
  /\ FreeCAD.cross (WorkingPlane.v p) (WorkingPlane.u p)
     = WorkingPlane.axis p.

(** X5: whatever the name, a plane returned by [getViewPlane] is such a
    frame. *)
Theorem getViewPlane_frame (view : string) :
  match (getViewPlane view).1 with
  | Some view_plane => drawing_frame_of view_plane
  | None => True
  end.
Proof.
  unfold getViewPlane.
  repeat
    match goal with
    | |- context [String.eqb view ?s] =>
        destruct (String.eqb view s);
        [vm_compute; repeat split; reflexivity|]
    end.
  done.
Qed.

End ViewFrames.

(** ** The extent of the drawing *)

Section DrawingExtent.
Context `{E : External}.

(** The extent is the least box around the points. *)
Definition extent_of (points : list Vector) (ext : Extent) : Prop :=
  extreme_values FreeCAD.x points (min_x ext) (max_x ext)
  /\ extreme_values FreeCAD.y points (min_y ext) (max_y ext).

Definition extent_step (view_plane : Plane) (bounding_box : FreeCAD.BoundBox)
    (ext : Extent) (pt : Z) : Extent :=
  let point :=
    getProjectionToSVGPlane (BoundBox_getPoint bounding_box pt) view_plane in
  mkExtent (Py.min (min_x ext) (FreeCAD.x point))
           (Py.min (min_y ext) (FreeCAD.y point))
           (Py.max (max_x ext) (FreeCAD.x point))
           (Py.max (max_y ext) (FreeCAD.y point)).

Lemma extent_fold view_plane bounding_box (done rest : list Z) ext :
  let corner pt :=
    getProjectionToSVGPlane (BoundBox_getPoint bounding_box pt) view_plane in
  extent_of (map corner done) ext ->
  extent_of (map corner (done ++ rest))
    (foldl (extent_step view_plane bounding_box) ext rest).
Proof.
  intros corner. revert done ext.
  induction rest as [|pt rest IH]; intros done ext H.
  - simpl. by rewrite app_nil_r.
  - simpl. replace (done ++ pt :: rest) with ((done ++ [pt]) ++ rest)
      by (by rewrite <- app_assoc).
    apply IH. destruct H as [Hx Hy]. rewrite map_app. split.
    + apply (extreme_values_snoc FreeCAD.x _ _ _ (corner pt) Hx).
    + apply (extreme_values_snoc FreeCAD.y _ _ _ (corner pt) Hy).
Qed.

Lemma extreme_values_ordered f l lo hi :
  extreme_values f l lo hi -> (lo <= hi)%Q.
Proof.
  intros (Hall & Hlo & _). apply Exists_exists in Hlo as (p & Hp & <-).
  rewrite Forall_forall in Hall. destruct (Hall p Hp). lra.
Qed.

Lemma Py_round_at_least (n : Z) (q : Q) :
  (inject_Z n <= q)%Q -> n <= Py.round q.
Proof.
  intros H. apply Qfloor_resp_le in H. rewrite Qfloor_Z in H.
  pose proof (Py_round_floor q). lia.
Qed.

(** A side of the frame, the float [hi - lo + 200] rounded, is at least
    200. *)
Lemma frame_side_at_least (lo hi : Q) :
  (lo <= hi)%Q -> 200 <= Py.round (Py.add (Py.sub hi lo) 200).
Proof.
  intros Hle. apply Py_round_at_least. unfold Py.add, Py.sub.
  assert (0 <= Py.double (hi - lo))%Q as Hside
    by (apply double_nonneg; lra).
  apply Qle_trans with (Py.double 200).
  - by vm_compute.
  - apply double_le; [done|lra].
Qed.

Lemma bounding_box_points_four view_plane :
  exists a b c d, bounding_box_points view_plane = [a; b; c; d].
Proof.
  unfold bounding_box_points.
  repeat match goal with
         | |- context [FreeCAD.eqb ?a ?b] => destruct (FreeCAD.eqb a b)
         end; by eexists _, _, _, _.
Qed.

(** The extent is always computed, and is the least box around the
    projections of the four corners that the view selects. *)
Lemma projected_extent_least_box structure rebars_list view_plane :
  let bounding_box :=
    Compound_BoundBox
      (map Rebar.Shape rebars_list ++ [Structure.Shape structure]) in
  let corners :=
    map (fun pt =>
           getProjectionToSVGPlane (BoundBox_getPoint bounding_box pt)
             view_plane)
      (bounding_box_points view_plane) in
  exists ext,
    projected_extent structure rebars_list view_plane = Ok ext
    /\ length corners = 4%nat
    /\ extent_of corners ext.
Proof.
  intros bounding_box corners. unfold projected_extent.
  fold bounding_box. unfold corners.
  destruct (bounding_box_points_four view_plane) as (a & b & c & d & ->).
  cbn [py_index lookup list_lookup drop map length].
  set (corner := fun pt =>
         getProjectionToSVGPlane (BoundBox_getPoint bounding_box pt)
           view_plane).
  eexists. split; [reflexivity|]. split; [done|].
  match goal with
  | |- context [foldl ?f ?i [b; c; d]] =>
      rewrite (foldl_pointwise f (extent_step view_plane bounding_box)
                 [b; c; d] i) by done
  end.
  apply (extent_fold view_plane bounding_box [a] [b; c; d]).
  split; (split; [|split]); repeat constructor; simpl; lra.
Qed.

(** X6: the extent of the drawing is always computed: it is the least box
    around the projections of the four corners of the bounding box that
    the view selects.  So its minima are not above its maxima, and the
    width and the height of the drawing, which add 200 to its sides, are
    at least 200. *)
Theorem projected_extent_is_a_box structure rebars_list view_plane :
  let bounding_box :=
    Compound_BoundBox
      (map Rebar.Shape rebars_list ++ [Structure.Shape structure]) in
  let corners :=
    map (fun pt =>
           getProjectionToSVGPlane (BoundBox_getPoint bounding_box pt)
             view_plane)
      (bounding_box_points view_plane) in
  exists ext,
    projected_extent structure rebars_list view_plane = Ok ext
    /\ length corners = 4%nat
    /\ extent_of corners ext
    /\ (min_x ext <= max_x ext)%Q /\ (min_y ext <= max_y ext)%Q
    /\ 200 <= Py.round (Py.add (Py.sub (max_x ext) (min_x ext)) 200)
    /\ 200 <= Py.round (Py.add (Py.sub (max_y ext) (min_y ext)) 200).
Proof.
  intros bounding_box corners.
  destruct (projected_extent_least_box structure rebars_list view_plane)
    as (ext & Hrun & Hlen & Hext).
  exists ext. split; [done|]. split; [done|]. split; [exact Hext|].
  destruct Hext as [Hx%extreme_values_ordered Hy%extreme_values_ordered].
  split; [done|]. split; [done|].
  split; by apply frame_side_at_least.
Qed.

End DrawingExtent.

(** ** The builders seen from the side, placement by placement *)

Section SideViews.
Context `{E : External}.
Local Open Scope nat_scope.

Abbreviation Item := (Node * bool)%type.

(** The results of [f] on the elements of a list, or the first exception. *)
Fixpoint gather {A B} (f : A -> result B) (l : list A) : result (list B) :=
  match l with
  | [] => Ok []
  | a :: l' =>
      match f a with
      | Raise e => Raise e
      | Ok b =>
          match gather f l' with
          | Raise e => Raise e
          | Ok bs => Ok (b :: bs)
          end
      end
  end.

(** How many elements at the head of the list satisfy [p]. *)
Fixpoint leading {A} (p : A -> bool) (l : list A) : nat :=
  match l with
  | a :: l' => if p a then S (leading p l') else 0
  | [] => 0
  end.

Lemma leading_le {A} (p : A -> bool) l : leading p l <= length l.
Proof. induction l as [|a l IH]; simpl; [lia|]. destruct (p a); lia. Qed.

Lemma leading_split {A} (p : A -> bool) l :
  Forall (fun a => p a = true) (take (leading p l) l)
  /\ match drop (leading p l) l with
     | [] => leading p l = length l
     | a :: _ => p a = false
     end.
Proof.
  induction l as [|a l [IH1 IH2]]; simpl; [done|].
  destruct (p a) eqn:Ha; simpl; [|done].
  split; [by constructor|].
  destruct (drop (leading p l) l); [lia|done].
Qed.

Lemma add_children_nil n : add_children [] n = n.
Proof. destruct n. unfold add_children. simpl. by rewrite app_nil_r. Qed.

(** A loop that appends from the first element on that is no duplicate:
    the fragment gets the elements allocated from that one on. *)
Lemma emit_all_leading {A} base F (node : A -> Node) (dup : A -> bool) l :
  emit_all base (false, [F]) (map (fun a => (node a, negb (dup a))) l)
  = (bool_decide (leading dup l < length l),
     add_children
       (seq (base + 1 + leading dup l) (length l - leading dup l)) F
     :: map node l).
Proof.
  destruct (leading_split dup l) as [Hdup Hrest].
  pose proof (leading_le dup l) as Hle.
  set (k := leading dup l) in *.
  rewrite <- (take_drop k l) at 1. rewrite map_app.
  assert (Forall (fun it : Item => it.2 = false)
            (map (fun a => (node a, negb (dup a))) (take k l))) as Hhidden.
  { apply Forall_map. eapply Forall_impl; [exact Hdup|].
    intros a Ha. simpl. by rewrite Ha. }
  assert (length (take k l) = k) as Hk by (rewrite length_take; lia).
  destruct (drop k l) as [|a after] eqn:Hdrop.
  - rewrite app_nil_r, (emit_all_hidden _ _ _ Hhidden).
    rewrite map_map. simpl.
    rewrite Hrest, Nat.sub_diag. simpl. rewrite add_children_nil.
    rewrite bool_decide_eq_false_2 by lia.
    by rewrite firstn_all.
  - simpl. rewrite Hrest. simpl.
    rewrite (emit_all_first base F [] _ (node a) _ Hhidden).
    assert (length l = k + S (length after)) as Hlen.
    { rewrite <- (take_drop k l), length_app, Hdrop, Hk. done. }
    rewrite bool_decide_eq_true_2 by lia.
    rewrite !length_map, Hk. simpl.
    replace (length l - k) with (S (length after)) by lia.
    replace (base + 1 + k) with (base + S k) by lia.
    rewrite !map_map. simpl.
    rewrite <- (take_drop k l) at 2. rewrite Hdrop, map_app. done.
Qed.

(** A loop whose body behaves as [emit] on every element behaves as
    [emit_all] on the list. *)
Lemma loop_run_on {A} σ (body : A -> bool -> M bool)
    (item : A -> result Item) :
  (forall a visible l,
     body a visible (σ ++ l)
     = match item a with
       | Raise e => Raise e
       | Ok it =>
           let st := emit (length σ) (visible, l) it in Ok (st.1, σ ++ st.2)
       end) ->
  forall l visible junk,
    for_each l body visible (σ ++ junk)
    = match gather item l with
      | Raise e => Raise e
      | Ok items =>
          let st := emit_all (length σ) (visible, junk) items in
          Ok (st.1, σ ++ st.2)
      end.
Proof.
  intros Hbody. induction l as [|a l IH]; intros visible junk.
  - reflexivity.
  - simpl. unfold ElementTree.bind. rewrite Hbody.
    destruct (item a) as [it|e]; [|done].
    simpl. rewrite IH. by destruct (gather item l).
Qed.

Lemma gather_map {A B C} (f : A -> result B) (g : B -> C) l :
  gather (fun a => match f a with Ok b => Ok (g b) | Raise e => Raise e end) l
  = match gather f l with Ok bs => Ok (map g bs) | Raise e => Raise e end.
Proof.
  induction l as [|a l IH]; [done|]. simpl.
  destruct (f a) as [b|e]; [|done]. rewrite IH.
  by destruct (gather f l).
Qed.

(** *** The stirrup *)

(** ["V"] or ["H"] (source lines 320-323). *)
Definition stirrup_alignment_of (rebar : Rebar.t) (view_plane : Plane)
    : string :=
  if Z.eqb
       (Py.round
          (Vector_Length
             (FreeCAD.cross (getRebarsSpanAxis rebar)
                (WorkingPlane.u view_plane)))) 0
  then "V" else "H".

(** The lines that stand for the placements of a stirrup seen from the
    side, in the order of [PlacementList]. *)
Definition stirrup_lines (rebar : Rebar.t) (view_plane : Plane)
    : result (list (Vector * Vector)) :=
  match py_index (Shape.Wires (BaseObject.Shape (Rebar.Base rebar))) 0 with
  | Raise e => Raise e
  | Ok wire0 =>
      let basewire :=
        DraftGeomUtils_filletWire wire0
          (Rebar.Rounding rebar * Rebar.Diameter rebar)%Q in
      gather
        (fun placement =>
           getStirrupSVGPoints (placed_wire basewire placement)
             (stirrup_alignment_of rebar view_plane) view_plane)
        (Rebar.PlacementList rebar)
  end.

Lemma stirrup_placement_run σ rebars_svg basewire alignment view_plane
    placement visible l :
  wf σ -> rebars_svg < length σ ->
  stirrup_placement basewire alignment view_plane rebars_svg (length σ + 0)
    placement visible (σ ++ l)
  = match getStirrupSVGPoints (placed_wire basewire placement) alignment
            view_plane with
    | Raise e => Raise e
    | Ok (p1, p2) =>
        let st :=
          emit (length σ) (visible, l)
            (line_node p1 p2, negb (line_in σ rebars_svg p1 p2)) in
        Ok (st.1, σ ++ st.2)
    end.
Proof.
  intros Hwf Hsvg. unfold stirrup_placement, emit.
  destruct (getStirrupSVGPoints _ _ _) as [[p1 p2]|e]; [|done].
  run. destruct visible, (line_in σ rebars_svg p1 p2); simpl; run; done.
Qed.

(** The stirrup builder on a rebar seen from the side, as a whole. *)
Lemma getStirrupSVGData_side σ rebars_svg rebar view_plane :
  wf σ -> rebars_svg < length σ ->
  face_on rebar view_plane = false ->
  getStirrupSVGData rebar view_plane rebars_svg σ
  = match stirrup_lines rebar view_plane with
    | Raise e => Raise e
    | Ok lines =>
        let st :=
          emit_all (length σ) (false, [fragment rebar])
            (map (fun s : Vector * Vector =>
                    (line_node s.1 s.2,
                     negb (line_in σ rebars_svg s.1 s.2)))
               lines) in
        Ok ((length σ, st.1), σ ++ st.2)
    end.
Proof.
  intros Hwf Hsvg Hface.
  unfold getStirrupSVGData, stirrup_lines. rewrite Hface.
  rewrite <- (app_nil_r σ) at 1. run.
  destruct (py_index (Shape.Wires _) 0) as [wire0|]; [|done].
  run. simpl app. simpl length.
  rewrite Nat.add_0_r. rewrite <- (Nat.add_0_r (length σ)) at 1.
  unfold ElementTree.bind.
  rewrite (loop_run_on σ _
             (fun placement =>
                match getStirrupSVGPoints
                        (placed_wire
                           (DraftGeomUtils_filletWire wire0
                              (Rebar.Rounding rebar * Rebar.Diameter rebar)%Q)
                           placement)
                        (stirrup_alignment_of rebar view_plane)
                        view_plane with
                | Ok s =>
                    Ok (line_node s.1 s.2,
                        negb (line_in σ rebars_svg s.1 s.2))
                | Raise e => Raise e
                end)).
  2:{ intros placement visible l.
      rewrite (stirrup_placement_run σ rebars_svg _ _ _ placement visible l
                 Hwf Hsvg).
      unfold stirrup_alignment_of.
      by destruct (getStirrupSVGPoints _ _ _) as [[p1 p2]|e]. }
  rewrite (gather_map _
             (fun s : Vector * Vector =>
                (line_node s.1 s.2, negb (line_in σ rebars_svg s.1 s.2)))).
  by destruct (gather _ _).
Qed.

(** X7: a stirrup seen from the side, on a well-formed drawing.  Each
    placement is represented by one line; the lines are allocated in the
    order of [PlacementList], and the fragment gets as children the lines
    from the first one on that the accumulated SVG does not hold: that one
    and all later ones, duplicates or not.  The stirrup is visible when
    there is such a line. *)
Theorem stirrup_side_view σ rebars_svg rebar view_plane lines :
  wf σ -> rebars_svg < length σ ->
  face_on rebar view_plane = false ->
  stirrup_lines rebar view_plane = Ok lines ->
  let hidden :=
    leading (fun s => line_in σ rebars_svg s.1 s.2) lines in
  getStirrupSVGData rebar view_plane rebars_svg σ
  = Ok ((length σ, bool_decide (hidden < length lines)),
        σ ++ add_children
               (seq (length σ + 1 + hidden) (length lines - hidden))
               (fragment rebar)
             :: map (fun s => line_node s.1 s.2) lines).
Proof.
  intros Hwf Hsvg Hface Hlines hidden.
  rewrite getStirrupSVGData_side, Hlines by done. cbv zeta.
  rewrite (emit_all_leading (length σ) (fragment rebar)
             (fun s : Vector * Vector => line_node s.1 s.2)
             (fun s => line_in σ rebars_svg s.1 s.2) lines).
  reflexivity.
Qed.

End SideViews.

(** The stirrup of three placements seen from the front, on the drawing of
    the example: the line of the first placement is there already, those
    of the two others are appended. *)
Lemma stirrup_side_view_witness :
  getStirrupSVGData (E := Example.kernel) Samples.cage Samples.front 0%nat
    Example.accumulated
  = Ok ((4%nat, true),
        Example.accumulated
        ++ add_children [6%nat; 7%nat] (fragment Samples.cage)
           :: map (fun s : Vector * Vector =>
                     line_node s.1 s.2)
                [(Vec 0 (0 # 2) 0, Vec 100 (0 # 2) 0);
                 (Vec 0 (40 # 2) 0, Vec 100 (40 # 2) 0);
                 (Vec 0 (40 # 2) 0, Vec 100 (40 # 2) 0)]).
Proof.
  eapply (stirrup_side_view (E := Example.kernel) Example.accumulated
            0%nat Samples.cage Samples.front
            [(Vec 0 (0 # 2) 0, Vec 100 (0 # 2) 0);
                 (Vec 0 (40 # 2) 0, Vec 100 (40 # 2) 0);
             (Vec 0 (40 # 2) 0, Vec 100 (40 # 2) 0)]).
  - apply wf_check. reflexivity.
  - simpl. lia.
  - reflexivity.
  - vm_compute. reflexivity.
Defined.

(** *** The straight rebar *)

Section StraightSide.
Context `{E : External}.
Local Open Scope nat_scope.

Abbreviation Item := (Node * bool)%type.

Lemma straight_placement_raise basewire rebar view_plane rebars_svg own
    placement visible σ e :
  wire_segment (placed_wire basewire placement) view_plane = Raise e ->
  straight_placement basewire rebar view_plane rebars_svg own placement
    visible σ
  = Raise e.
Proof.
  unfold wire_segment, straight_placement, ElementTree.bind, lift.
  destruct (py_index (Wire.Vertexes _) 0) as [v0|]; [|by intros [= <-]].
  destruct (py_index (Wire.Vertexes _) 1) as [v1|]; [done|by intros [= <-]].
Qed.

(** One turn of the loop over the placements, while the fragment has no
    child unless the rebar is visible: the test against the fragment
    itself changes nothing. *)
Lemma straight_placement_emit σ rebars_svg basewire rebar view_plane
    placement visible F junk :
  wf σ -> rebars_svg < length σ ->
  (visible = false -> children F = []) ->
  straight_placement basewire rebar view_plane rebars_svg (length σ)
    placement visible (σ ++ F :: junk)
  = match wire_segment (placed_wire basewire placement) view_plane with
    | Raise e => Raise e
    | Ok (p1, p2) =>
        let st :=
          emit (length σ) (visible, F :: junk)
            (segment_node rebar p1 p2,
             negb (segment_in σ rebars_svg p1 p2)) in
        Ok (st.1, σ ++ st.2)
    end.
Proof.
  intros Hwf Hsvg Hinv.
  destruct (wire_segment _ _) as [[p1 p2]|e] eqn:Hseg.
  2:{ by apply straight_placement_raise. }
  rewrite (straight_placement_run _ _ _ _ _ _ _ _ _ _ Hseg). cbv zeta.
  unfold emit. cbn [fst snd].
  rewrite <- !app_assoc, segment_in_app by done.
  rewrite length_app.
  assert (alter (add_child (length σ + length (F :: junk))) (length σ)
            (σ ++ (F :: junk) ++ [segment_node rebar p1 p2])
          = σ ++ alter (add_child (length σ + length (F :: junk))) 0
                   ((F :: junk) ++ [segment_node rebar p1 p2])) as Halter.
  { simpl. by rewrite alter_middle. }
  destruct visible.
  - cbn [orb]. rewrite Halter.
    by destruct (negb (_ || _)).
  - rewrite (segment_in_leaf _ (length σ) F).
    2:{ rewrite lookup_app_r by lia. by rewrite Nat.sub_diag. }
    2:{ by apply Hinv. }
    rewrite orb_false_r. cbn [orb].
    destruct (segment_in σ rebars_svg p1 p2); cbn [negb]; [done|].
    by rewrite Halter.
Qed.

Lemma emit_keeps_leaf base visible F junk it :
  (visible = false -> children F = []) ->
  exists F' junk',
    (emit base (visible, F :: junk) it).2 = F' :: junk'
    /\ ((emit base (visible, F :: junk) it).1 = false -> children F' = []).
Proof.
  intros Hinv. unfold emit. cbn [fst snd].
  destruct (visible || it.2) eqn:Hv.
  - simpl. eexists _, _. split; [reflexivity|done].
  - simpl. exists F, (junk ++ [it.1]). split; [done|].
    intros _. apply Hinv. by destruct visible.
Qed.

Lemma straight_loop_emit σ rebars_svg basewire rebar view_plane placements :
  wf σ -> rebars_svg < length σ ->
  forall visible F junk,
    (visible = false -> children F = []) ->
    for_each placements
      (straight_placement basewire rebar view_plane rebars_svg (length σ))
      visible (σ ++ F :: junk)
    = match gather
              (fun placement =>
                 wire_segment (placed_wire basewire placement) view_plane)
              placements with
      | Raise e => Raise e
      | Ok segments =>
          let st :=
            emit_all (length σ) (visible, F :: junk)
              (map (fun s : Vector * Vector =>
                      (segment_node rebar s.1 s.2,
                       negb (segment_in σ rebars_svg s.1 s.2)))
                 segments) in
          Ok (st.1, σ ++ st.2)
      end.
Proof.
  intros Hwf Hsvg.
  induction placements as [|placement placements IH];
    intros visible F junk Hinv.
  - reflexivity.
  - simpl. unfold ElementTree.bind at 1.
    rewrite straight_placement_emit by done.
    destruct (wire_segment _ _) as [[p1 p2]|e]; [|done].
    cbv zeta.
    destruct (emit_keeps_leaf (length σ) visible F junk
                (segment_node rebar p1 p2,
                 negb (segment_in σ rebars_svg p1 p2)) Hinv)
      as (F' & junk' & Hst & Hinv').
    destruct (emit _ _ _) as [visible' l'] eqn:Hemit.
    cbn [fst snd] in *. subst l'.
    rewrite (IH visible' F' junk' Hinv').
    destruct (gather _ placements) as [segments|e]; [|done].
    cbn [map]. rewrite emit_all_cons. cbn [fst snd]. by rewrite Hemit.
Qed.

(** The segments of the placements of a straight rebar seen from the
    side, in the order of [PlacementList]. *)
Definition straight_side_segments (rebar : Rebar.t) (view_plane : Plane)
    : result (list (Vector * Vector)) :=
  match py_index (Shape.Wires (BaseObject.Shape (Rebar.Base rebar))) 0 with
  | Raise e => Raise e
  | Ok basewire =>
      gather
        (fun placement =>
           wire_segment (placed_wire basewire placement) view_plane)
        (Rebar.PlacementList rebar)
  end.

(** The straight builder on a rebar seen from the side, as a whole. *)
Lemma getStraightRebarSVGData_from_side σ rebars_svg rebar view_plane
    hx hy vx vy :
  wf σ -> rebars_svg < length σ ->
  face_on rebar view_plane = false ->
  getStraightRebarSVGData rebar view_plane hx hy vx vy rebars_svg σ
  = match straight_side_segments rebar view_plane with
    | Raise e => Raise e
    | Ok segments =>
        let st :=
          emit_all (length σ) (false, [fragment rebar])
            (map (fun s : Vector * Vector =>
                    (segment_node rebar s.1 s.2,
                     negb (segment_in σ rebars_svg s.1 s.2)))
               segments) in
        Ok (mkStraightData (length σ) st.1 hy vx, σ ++ st.2)
    end.
Proof.
  intros Hwf Hsvg Hface.
  unfold getStraightRebarSVGData, straight_side_segments.
  rewrite Hface. rewrite <- (app_nil_r σ) at 1. run.
  destruct (py_index (Shape.Wires _) 0) as [basewire|]; [|done].
  run. cbn [app length].
  rewrite !Nat.add_0_r. unfold ElementTree.bind.
  change (mkNode "g" [("id", Rebar.Name rebar)] None [])
    with (fragment rebar).
  rewrite (straight_loop_emit σ rebars_svg basewire rebar view_plane _
             Hwf Hsvg false (fragment rebar) []) by done.
  by destruct (gather _ _).
Qed.

(** X8: a straight rebar seen from the side, on a well-formed drawing.
    Each placement is drawn as a line or, when its end points round to the
    same place, as a point marker; the elements are allocated in the order
    of [PlacementList] and the fragment gets as children those from the
    first placement on that the accumulated SVG does not hold, that one
    and all later ones: a later placement that repeats an earlier one of
    the same rebar is appended too, so the test against the rebar's own
    fragment changes nothing.  No dimension is drawn and the offsets are
    returned as they were given. *)
Theorem straight_side_view σ rebars_svg rebar view_plane hx hy vx vy
    segments :
  wf σ -> rebars_svg < length σ ->
  face_on rebar view_plane = false ->
  straight_side_segments rebar view_plane = Ok segments ->
  let hidden :=
    leading (fun s => segment_in σ rebars_svg s.1 s.2) segments in
  getStraightRebarSVGData rebar view_plane hx hy vx vy rebars_svg σ
  = Ok (mkStraightData (length σ)
          (bool_decide (hidden < length segments)) hy vx,
        σ ++ add_children
               (seq (length σ + 1 + hidden) (length segments - hidden))
               (fragment rebar)
             :: map (fun s => segment_node rebar s.1 s.2) segments).
Proof.
  intros Hwf Hsvg Hface Hsegs hidden.
  rewrite getStraightRebarSVGData_from_side, Hsegs by done. cbv zeta.
  rewrite (emit_all_leading (length σ) (fragment rebar)
             (fun s : Vector * Vector => segment_node rebar s.1 s.2)
             (fun s => segment_in σ rebars_svg s.1 s.2) segments).
  reflexivity.
Qed.

End StraightSide.

(** The straight rebar of three placements seen from the front, on the
    drawing of the example: the second placement is the first new one, and
    the third, which repeats it, is appended as well. *)
Lemma straight_side_view_witness :
  getStraightRebarSVGData (E := Example.kernel) Samples.mat Samples.front
    250 50 50 (-50) 0%nat Example.accumulated
  = Ok (mkStraightData 4%nat true 50 50,
        Example.accumulated
        ++ add_children [6%nat; 7%nat] (fragment Samples.mat)
           :: map (fun s : Vector * Vector =>
                     segment_node (E := Example.kernel) Samples.mat s.1 s.2)
                [(Vec 0 0 0, Vec 100 0 0); (Vec 0 20 0, Vec 100 20 0);
                 (Vec 0 20 0, Vec 100 20 0)]).
Proof.
  eapply (straight_side_view (E := Example.kernel) Example.accumulated
            0%nat Samples.mat Samples.front 250 50 50 (-50)
            [(Vec 0 0 0, Vec 100 0 0); (Vec 0 20 0, Vec 100 20 0);
             (Vec 0 20 0, Vec 100 20 0)]).
  - apply wf_check. reflexivity.
  - simpl. lia.
  - reflexivity.
  - vm_compute. reflexivity.
Defined.

(** *** The U-shape, bent-shape and L-shape rebars *)

Section UShapeSide.
Context `{E : External}.
Local Open Scope nat_scope.

Abbreviation Item := (Node * bool)%type.

(** The edges seen by the loop over the edges of a placed wire
    (lines 409-456): the element drawn for the edge, and whether the edge
    makes the rebar visible.  A straight edge is tested as a line also
    when it is drawn as a point marker. *)
Definition ushape_side_item (σ : Store) (rebars_svg : ref) (rebar : Rebar.t)
    (view_plane : Plane) (edge : Edge.t) : result (option Item) :=
  let radius := (Rebar.Rounding rebar * Rebar.Diameter rebar)%Q in
  if String.eqb (Edge.geomType edge) "Line" then
    match edge_points edge view_plane with
    | Ok (p1, p2) =>
        Ok (Some
              (if degenerate p1 p2 then
                 point_node p1
                   (SVG_POINT_DIA_FACTOR * Rebar.Diameter rebar)%Q
               else line_node p1 p2,
               negb (line_in σ rebars_svg p1 p2)))
    | Raise e => Raise e
    end
  else ushape_item σ rebars_svg rebar view_plane edge.

Lemma ushape_side_edge_run σ rebars_svg rebar view_plane edge visible l :
  wf σ -> rebars_svg < length σ ->
  ushape_side_edge rebar view_plane rebars_svg (length σ + 0) edge visible
    (σ ++ l)
  = match ushape_side_item σ rebars_svg rebar view_plane edge with
    | Raise e => Raise e
    | Ok None => Ok (visible, σ ++ l)
    | Ok (Some it) =>
        let st := emit (length σ) (visible, l) it in Ok (st.1, σ ++ st.2)
    end.
Proof.
  intros Hwf Hsvg.
  pose proof (ushape_edge_run σ rebars_svg rebar view_plane edge visible l
                Hwf Hsvg) as Hface.
  unfold ushape_side_edge, ushape_side_item, ushape_edge, degenerate in *.
  destruct (String.eqb (Edge.geomType edge) "Line") eqn:Hline; [|].
  2:{ exact Hface. }
  clear Hface. unfold emit.
  destruct (edge_points edge view_plane) as [[p1 p2]|e] eqn:Hp; [|done].
  run.
  destruct (same_rounded (FreeCAD.x p1) (FreeCAD.x p2)
            && same_rounded (FreeCAD.y p1) (FreeCAD.y p2)); run.
  - destruct visible, (line_in σ rebars_svg p1 p2); simpl; run; done.
  - destruct visible, (line_in σ rebars_svg p1 p2); simpl; run; done.
Qed.

Lemma collect_app item (l1 l2 : list Edge.t) :
  collect item (l1 ++ l2)
  = match collect item l1 with
    | Raise e => Raise e
    | Ok items1 =>
        match collect item l2 with
        | Raise e => Raise e
        | Ok items2 => Ok (items1 ++ items2)
        end
    end.
Proof.
  induction l1 as [|edge l1 IH]; simpl.
  - by destruct (collect item l2).
  - destruct (item edge) as [o|e]; [|done]. rewrite IH.
    destruct (collect item l1) as [items1|e]; [|done].
    destruct (collect item l2) as [items2|e]; [|done].
    by destruct o.
Qed.

(** The edges of all the placed copies of the base wire, in the order in
    which the two loops visit them. *)
Definition ushape_side_edges (basewire : Wire.t) (rebar : Rebar.t)
    : list Edge.t :=
  flat_map
    (fun placement => sorted_fillet_edges (placed_wire basewire placement)
                        rebar)
    (Rebar.PlacementList rebar).

Lemma ushape_placements_run σ rebars_svg basewire rebar view_plane
    placements :
  wf σ -> rebars_svg < length σ ->
  forall visible l,
    for_each placements
      (ushape_placement basewire rebar view_plane rebars_svg (length σ + 0))
      visible (σ ++ l)
    = match collect (ushape_side_item σ rebars_svg rebar view_plane)
              (flat_map
                 (fun placement =>
                    sorted_fillet_edges (placed_wire basewire placement)
                      rebar)
                 placements) with
      | Raise e => Raise e
      | Ok items =>
          let st := emit_all (length σ) (visible, l) items in
          Ok (st.1, σ ++ st.2)
      end.
Proof.
  intros Hwf Hsvg.
  induction placements as [|placement placements IH]; intros visible l.
  - reflexivity.
  - simpl. unfold ElementTree.bind at 1, ushape_placement at 1.
    rewrite (loop_run σ _ _ (fun e v l =>
               ushape_side_edge_run σ rebars_svg rebar view_plane e v l
                 Hwf Hsvg)).
    rewrite collect_app.
    destruct (collect _ (sorted_fillet_edges _ _)) as [items1|e]; [|done].
    cbv zeta.
    destruct (emit_all (length σ) (visible, l) items1)
      as [visible' l'] eqn:Hemit.
    cbn [fst snd]. rewrite IH.
    destruct (collect _ (flat_map _ _)) as [items2|e]; [|done].
    cbv zeta. by rewrite emit_all_app, Hemit.
Qed.

Lemma items_as_pairs (items : list Item) :
  map (fun it : Item => (it.1, negb (negb it.2))) items = items.
Proof.
  induction items as [|[nd trig] items IH]; [done|].
  simpl. by rewrite IH, negb_involutive.
Qed.

(** The items of the edges the builder visits for a rebar seen from the
    side. *)
Definition ushape_side_items (σ : Store) (rebars_svg : ref)
    (rebar : Rebar.t) (view_plane : Plane) : result (list Item) :=
  match py_index (Shape.Wires (BaseObject.Shape (Rebar.Base rebar))) 0 with
  | Raise e => Raise e
  | Ok basewire =>
      collect (ushape_side_item σ rebars_svg rebar view_plane)
        (ushape_side_edges basewire rebar)
  end.

(** The U-shape builder on a rebar seen from the side, as a whole. *)
Lemma getUShapeRebarSVGData_side σ rebars_svg rebar view_plane :
  wf σ -> rebars_svg < length σ ->
  face_on rebar view_plane = false ->
  getUShapeRebarSVGData rebar view_plane rebars_svg σ
  = match ushape_side_items σ rebars_svg rebar view_plane with
    | Raise e => Raise e
    | Ok items =>
        let st := emit_all (length σ) (false, [fragment rebar]) items in
        Ok ((length σ, st.1), σ ++ st.2)
    end.
Proof.
  intros Hwf Hsvg Hface.
  unfold getUShapeRebarSVGData, ushape_side_items, ushape_side_edges.
  rewrite Hface. rewrite <- (app_nil_r σ) at 1. run.
  destruct (py_index (Shape.Wires _) 0) as [basewire|]; [|done].
  run. simpl app. simpl length.
  rewrite Nat.add_0_r. rewrite <- (Nat.add_0_r (length σ)) at 1.
  unfold ElementTree.bind.
  rewrite (ushape_placements_run σ rebars_svg basewire rebar view_plane _
             Hwf Hsvg).
  by destruct (collect _ _).
Qed.

(** X9: a U-shape, bent-shape or L-shape rebar seen from the side, on a
    well-formed drawing.  The edges of every placed copy of the base wire
    are drawn in turn, the copies in the order of [PlacementList]; the
    fragment gets as children the elements from the first edge on that
    makes the rebar visible, that one and all later ones.  The rebar is
    visible when there is such an edge. *)
Theorem ushape_side_view σ rebars_svg rebar view_plane items :
  wf σ -> rebars_svg < length σ ->
  face_on rebar view_plane = false ->
  ushape_side_items σ rebars_svg rebar view_plane = Ok items ->
  let hidden := leading (fun it : Item => negb it.2) items in
  getUShapeRebarSVGData rebar view_plane rebars_svg σ
  = Ok ((length σ, bool_decide (hidden < length items)),
        σ ++ add_children
               (seq (length σ + 1 + hidden) (length items - hidden))
               (fragment rebar)
             :: map fst items).
Proof.
  intros Hwf Hsvg Hface Hitems hidden.
  rewrite getUShapeRebarSVGData_side, Hitems by done. cbv zeta.
  pose proof (emit_all_leading (length σ) (fragment rebar) fst
                (fun it : Item => negb it.2) items) as Hemit.
  rewrite items_as_pairs in Hemit. by rewrite Hemit.
Qed.

(** X10: in the loop of the U/bent/L-shape builder for a rebar seen from
    the side, a straight edge whose projected end points round to the same
    integer coordinates is drawn as a point marker but tested as a line:
    unless the rebar is visible already, the marker is appended, and the
    rebar made visible, exactly when the accumulated SVG holds no line
    from that point to itself. *)
Theorem degenerate_edge_tested_from_the_side σ rebars_svg u_rebar_svg rebar
    view_plane edge p1 p2 visible :
  Edge.geomType edge = "Line" ->
  edge_points edge view_plane = Ok (p1, p2) ->
  degenerate p1 p2 = true ->
  ushape_side_edge rebar view_plane rebars_svg u_rebar_svg edge visible σ
  = let marker :=
      point_node p1 (SVG_POINT_DIA_FACTOR * Rebar.Diameter rebar)%Q in
    let visible' :=
      visible || negb (line_in (σ ++ [marker]) rebars_svg p1 p2) in
    Ok (visible',
        if visible' then
          alter (add_child (length σ)) u_rebar_svg (σ ++ [marker])
        else σ ++ [marker]).
Proof.
  intros Hline Hpts Hdeg. unfold ushape_side_edge, degenerate in *.
  rewrite Hline. cbn [String.eqb Ascii.eqb Bool.eqb].
  unfold lift, ElementTree.bind at 1. rewrite Hpts.
  unfold ElementTree.bind at 1. rewrite Hdeg.
  unfold ElementTree.bind at 1 2, getPointSVG, Element, ElementTree.ret.
  unfold or_not. destruct visible; [done|].
  unfold ElementTree.bind at 1. rewrite isLineInSVG_run.
  cbn [orb]. unfold ElementTree.ret, point_node.
  by destruct (line_in _ rebars_svg p1 p2).
Qed.

End UShapeSide.

(** The bar with a leg away from the viewer, seen from the front on the
    drawing of the example: its first edge is the line that is there
    already, its second edge projects on the point (100, 0). *)
Lemma ushape_side_view_witness :
  exists items,
    ushape_side_items (E := Example.kernel) Example.accumulated 0%nat
      Samples.hairpin Samples.front
    = Ok items
    /\ let hidden := leading (fun it : Node * bool => negb it.2) items in
       getUShapeRebarSVGData (E := Example.kernel) Samples.hairpin
         Samples.front 0%nat Example.accumulated
       = Ok ((length Example.accumulated,
              bool_decide (hidden < length items)%nat),
             Example.accumulated
             ++ add_children
                  (seq (length Example.accumulated + 1 + hidden)
                     (length items - hidden))
                  (fragment Samples.hairpin)
                :: map fst items).
Proof.
  eexists. split; [vm_compute; reflexivity|].
  eapply (ushape_side_view (E := Example.kernel) Example.accumulated 0%nat
            Samples.hairpin Samples.front).
  - apply wf_check. reflexivity.
  - simpl. lia.
  - reflexivity.
  - vm_compute. reflexivity.
Defined.

Lemma degenerate_edge_tested_from_the_side_witness :
  ushape_side_edge (E := Example.kernel) Samples.hairpin Samples.front
    0%nat 2%nat (Example.line (Vec 100 0 0) (Vec 100 50 0)) false
    Example.accumulated
  = let marker :=
      point_node (E := Example.kernel) (Vec 100 0 0)
        (SVG_POINT_DIA_FACTOR (External := Example.kernel)
         * Rebar.Diameter Samples.hairpin)%Q in
    let visible' :=
      false
      || negb (line_in (Example.accumulated ++ [marker]) 0%nat
                 (Vec 100 0 0) (Vec 100 0 0)) in
    Ok (visible',
        if visible' then
          alter (add_child (length Example.accumulated)) 2%nat
            (Example.accumulated ++ [marker])
        else Example.accumulated ++ [marker]).
Proof.
  eapply (degenerate_edge_tested_from_the_side (E := Example.kernel)
            Example.accumulated 0%nat 2%nat Samples.hairpin Samples.front
            (Example.line (Vec 100 0 0) (Vec 100 50 0))
            (Vec 100 0 0) (Vec 100 0 0) false).
  - reflexivity.
  - vm_compute. reflexivity.
  - vm_compute. reflexivity.
Defined.

(** ** Writing a round corner and asking for it *)

Section CornerRoundTrip.
Context `{E : External}.
Local Open Scope nat_scope.

(** X11: the path that [getRoundCornerSVG] writes for an edge with two
    vertices, once appended to [rebars_svg] or to an element below it, is
    found by [isRoundCornerInSVG] asked with the same edge, radius and
    view plane. *)
Theorem round_corner_written_is_found σ rebars_svg parent edge radius
    view_plane p1 p2 :
  parent < length σ ->
  (parent = rebars_svg \/ In parent (iter (length σ) σ rebars_svg)) ->
  edge_points edge view_plane = Ok (p1, p2) ->
  (let* path := getRoundCornerSVG edge radius view_plane in
   do append parent path in
   isRoundCornerInSVG edge radius view_plane rebars_svg) σ
  = Ok (true,
        alter (add_child (length σ)) parent
          (σ ++ [corner_node edge radius view_plane p1 p2])).
Proof.
  intros Hparent Hbelow Hpts.
  pose proof (getRoundCornerSVG_app edge radius view_plane σ [] p1 p2 Hpts)
    as Hwrite.
  rewrite app_nil_r in Hwrite. simpl in Hwrite.
  rewrite Nat.add_0_r in Hwrite.
  unfold ElementTree.bind at 1. rewrite Hwrite.
  unfold ElementTree.bind at 1, append at 1.
  rewrite (isRoundCornerInSVG_run _ _ _ _ _ p1 p2 Hpts).
  by rewrite round_corner_found.
Qed.

End CornerRoundTrip.

(** The arc of the example, written below the group of the stirrups of
    the drawing of the example. *)
Lemma round_corner_written_is_found_witness :
  (let* path :=
     getRoundCornerSVG (E := Example.kernel)
       (Example.arc (Vec 100 0 0) (Vec 120 (-20) 0)) 16 Example.top in
   do append 1%nat path in
   isRoundCornerInSVG (E := Example.kernel)
     (Example.arc (Vec 100 0 0) (Vec 120 (-20) 0)) 16 Example.top 0%nat)
    Example.accumulated
  = Ok (true,
        alter (add_child (length Example.accumulated)) 1%nat
          (Example.accumulated
           ++ [corner_node (E := Example.kernel)
                 (Example.arc (Vec 100 0 0) (Vec 120 (-20) 0)) 16
                 Example.top (Vec 100 0 0) (Vec 120 20 0)])).
Proof.
  eapply (round_corner_written_is_found (E := Example.kernel)
            Example.accumulated 0%nat 1%nat
            (Example.arc (Vec 100 0 0) (Vec 120 (-20) 0)) 16 Example.top
            (Vec 100 0 0) (Vec 120 20 0)).
  - simpl. lia.
  - right. simpl. by left.
  - vm_compute. reflexivity.
Defined.

(** ** The drawing is a tree, and a fragment has children exactly when
       its rebar is visible *)

Section Trees.
Context `{E : External}.
Local Open Scope nat_scope.

Abbreviation Item := (Node * bool)%type.

(** The elements [new], allocated from position [base] on, have their
    children after them and among them. *)
Definition closed (base : nat) (new : list Node) : Prop :=
  forall i n, new !! i = Some n ->
    Forall (fun c => base + i < c < base + length new) (children n).

Lemma wf_app σ new : wf σ -> closed (length σ) new -> wf (σ ++ new).
Proof.
  intros Hwf Hnew r n Hr. rewrite length_app.
  destruct (decide (r < length σ)) as [Hlt|Hge].
  - rewrite lookup_app_l in Hr by done.
    eapply Forall_impl; [exact (Hwf r n Hr)|]. simpl. lia.
  - rewrite lookup_app_r in Hr by lia.
    eapply Forall_impl; [exact (Hnew _ n Hr)|]. simpl. lia.
Qed.

Lemma wf_add_child σ p c :
  wf σ -> p < c < length σ -> wf (alter (add_child c) p σ).
Proof.
  intros Hwf Hc r n Hr. rewrite length_alter.
  destruct (decide (r = p)) as [->|Hne].
  - rewrite list_lookup_alter_eq in Hr.
    destruct (σ !! p) as [m|] eqn:Hp; [|done].
    simpl in Hr. injection Hr as <-. simpl.
    apply Forall_app. split; [exact (Hwf p m Hp)|].
    constructor; [lia|done].
  - rewrite list_lookup_alter_ne in Hr by done. exact (Hwf r n Hr).
Qed.

Lemma wf_set_attrib σ r k v : wf σ -> wf (alter (set_attrib k v) r σ).
Proof.
  intros Hwf r' n Hr. rewrite length_alter.
  destruct (decide (r' = r)) as [->|Hne].
  - rewrite list_lookup_alter_eq in Hr.
    destruct (σ !! r) as [m|] eqn:Hp; [|done].
    simpl in Hr. injection Hr as <-. simpl. exact (Hwf r m Hp).
  - rewrite list_lookup_alter_ne in Hr by done. exact (Hwf r' n Hr).
Qed.

Lemma closed_fragment base F cs leaves :
  children F = [] ->
  Forall (fun c => base < c < base + S (length leaves)) cs ->
  Forall (fun n => children n = []) leaves ->
  closed base (add_children cs F :: leaves).
Proof.
  intros HF Hcs Hleaves [|i] n Hn; simpl in Hn.
  - injection Hn as <-. simpl. rewrite HF. simpl.
    eapply Forall_impl; [exact Hcs|]. simpl. lia.
  - rewrite Forall_forall in Hleaves.
    rewrite (Hleaves n); [done|]. by eapply list_elem_of_lookup_2.
Qed.

(** The state of a loop that started on a fragment without children. *)
Lemma emit_all_fragment base F (items : list Item) :
  emit_all base (false, [F]) items
  = let hidden := leading (fun it : Item => negb it.2) items in
    (bool_decide (hidden < length items),
     add_children (seq (base + 1 + hidden) (length items - hidden)) F
     :: map fst items).
Proof.
  pose proof (emit_all_leading base F fst
                (fun it : Item => negb it.2) items) as Hemit.
  by rewrite items_as_pairs in Hemit.
Qed.

(** What a builder leaves when its loop ends: the old drawing, the
    fragment, and the elements drawn; the rebar is visible exactly when
    the fragment has a child. *)
Lemma emit_all_result σ F (items : list Item) :
  wf σ -> children F = [] ->
  Forall (fun it : Item => children it.1 = []) items ->
  let st := emit_all (length σ) (false, [F]) items in
  wf (σ ++ st.2)
  /\ length σ < length (σ ++ st.2)
  /\ exists cs,
       (σ ++ st.2) !! length σ = Some (add_children cs F)
       /\ (st.1 = true <-> cs <> []).
Proof.
  intros Hwf HF Hleaves. rewrite emit_all_fragment. cbv zeta. cbn [fst snd].
  set (hidden := leading _ items).
  pose proof (leading_le (fun it : Item => negb it.2) items) as Hle.
  fold hidden in Hle.
  split; [|split].
  - apply wf_app; [done|]. apply closed_fragment; [done| |].
    + apply Forall_forall. intros c Hc. apply elem_of_seq in Hc.
      rewrite length_map. lia.
    + by apply Forall_map.
  - rewrite length_app. simpl. lia.
  - eexists. split.
    + rewrite lookup_app_r by lia. rewrite Nat.sub_diag. reflexivity.
    + rewrite bool_decide_eq_true. split.
      * intros Hlt Hnil. apply (f_equal length) in Hnil.
        rewrite length_seq in Hnil. simpl in Hnil. lia.
      * intros Hne. destruct (decide (hidden < length items)); [done|].
        exfalso. apply Hne.
        by replace (length items - hidden) with 0 by lia.
Qed.

(** *** The builders of profiles *)

(** The elements a profile builder draws on a drawing, each with whether
    it makes the rebar visible, in the order in which they are drawn. *)
Definition profile_items (b : ProfileBuilder) (σ : Store) (rebars_svg : ref)
    (rebar : Rebar.t) (view_plane : Plane) : result (list Item) :=
  if face_on rebar view_plane then
    match
      py_index (Shape.Wires (BaseObject.Shape (Rebar.Base rebar))) 0
    with
    | Raise e => Raise e
    | Ok wire0 =>
        collect (profile_item b σ rebars_svg rebar view_plane)
          (sorted_fillet_edges wire0 rebar)
    end
  else
    match b with
    | Stirrup =>
        match stirrup_lines rebar view_plane with
        | Raise e => Raise e
        | Ok lines =>
            Ok (map (fun s : Vector * Vector =>
                       (line_node s.1 s.2,
                        negb (line_in σ rebars_svg s.1 s.2)))
                  lines)
        end
    | UShape => ushape_side_items σ rebars_svg rebar view_plane
    end.

Lemma profile_builder_run b σ rebars_svg rebar view_plane :
  wf σ -> rebars_svg < length σ ->
  profile_builder b rebar view_plane rebars_svg σ
  = match profile_items b σ rebars_svg rebar view_plane with
    | Raise e => Raise e
    | Ok items =>
        let st := emit_all (length σ) (false, [fragment rebar]) items in
        Ok ((length σ, st.1), σ ++ st.2)
    end.
Proof.
  intros Hwf Hsvg. unfold profile_items.
  destruct (face_on rebar view_plane) eqn:Hface.
  - destruct (py_index (Shape.Wires _) 0) as [wire0|e] eqn:Hwire.
    + by apply profile_builder_face_on.
    + destruct b; simpl;
        unfold getStirrupSVGData, getUShapeRebarSVGData;
        rewrite Hface, Hwire; reflexivity.
  - destruct b; simpl.
    + rewrite getStirrupSVGData_side by done.
      by destruct (stirrup_lines rebar view_plane).
    + by apply getUShapeRebarSVGData_side.
Qed.

Lemma collect_Forall (P : Item -> Prop) item edges items :
  (forall edge it, item edge = Ok (Some it) -> P it) ->
  collect item edges = Ok items -> Forall P items.
Proof.
  intros Hitem. revert items.
  induction edges as [|edge edges IH]; intros items Hc; simpl in Hc.
  - by injection Hc as <-.
  - destruct (item edge) as [o|] eqn:Ho; [|done].
    destruct (collect item edges) as [rest|]; [|done].
    injection Hc as <-.
    destruct o as [it|]; [|by apply IH].
    constructor; [by eapply Hitem|by apply IH].
Qed.

Lemma ushape_item_leaf σ rebars_svg rebar view_plane edge it :
  ushape_item σ rebars_svg rebar view_plane edge = Ok (Some it) ->
  children it.1 = [].
Proof.
  unfold ushape_item.
  destruct (String.eqb (Edge.geomType edge) "Line").
  { destruct (edge_points edge view_plane) as [[p1 p2]|]; [|done].
    destruct (_ && _); by intros [= <-]. }
  destruct (String.eqb (Edge.geomType edge) "Circle"); [|done].
  destruct (edge_points edge view_plane) as [[p1 p2]|]; [|done].
  destruct (_ || _); by intros [= <-].
Qed.

Lemma stirrup_item_leaf σ rebars_svg rebar view_plane edge it :
  stirrup_item σ rebars_svg rebar view_plane edge = Ok (Some it) ->
  children it.1 = [].
Proof.
  unfold stirrup_item.
  destruct (String.eqb (Edge.geomType edge) "Line").
  { destruct (edge_points edge view_plane) as [[p1 p2]|]; [|done].
    by intros [= <-]. }
  destruct (String.eqb (Edge.geomType edge) "Circle"); [|done].
  destruct (edge_points edge view_plane) as [[p1 p2]|]; [|done].
  by intros [= <-].
Qed.

Lemma ushape_side_item_leaf σ rebars_svg rebar view_plane edge it :
  ushape_side_item σ rebars_svg rebar view_plane edge = Ok (Some it) ->
  children it.1 = [].
Proof.
  unfold ushape_side_item.
  destruct (String.eqb (Edge.geomType edge) "Line").
  { destruct (edge_points edge view_plane) as [[p1 p2]|]; [|done].
    destruct (degenerate p1 p2); by intros [= <-]. }
  apply ushape_item_leaf.
Qed.

Lemma profile_items_leaves b σ rebars_svg rebar view_plane items :
  profile_items b σ rebars_svg rebar view_plane = Ok items ->
  Forall (fun it : Item => children it.1 = []) items.
Proof.
  unfold profile_items, ushape_side_items.
  destruct (face_on rebar view_plane).
  - destruct (py_index (Shape.Wires _) 0) as [wire0|]; [|done].
    apply collect_Forall. intros edge it.
    destruct b; [apply stirrup_item_leaf|apply ushape_item_leaf].
  - destruct b.
    + destruct (stirrup_lines rebar view_plane) as [lines|]; [|done].
      intros [= <-]. apply Forall_map. by apply Forall_true.
    + destruct (py_index (Shape.Wires _) 0) as [wire0|]; [|done].
      apply collect_Forall. intros edge it. apply ushape_side_item_leaf.
Qed.

(** What a profile builder returns on a well-formed drawing. *)
Lemma profile_builder_result b σ rebars_svg rebar view_plane r visible σ' :
  wf σ -> rebars_svg < length σ ->
  profile_builder b rebar view_plane rebars_svg σ = Ok ((r, visible), σ') ->
  r = length σ /\ wf σ' /\ length σ < length σ'
  /\ exists cs,
       σ' !! r = Some (add_children cs (fragment rebar))
       /\ (visible = true <-> cs <> []).
Proof.
  intros Hwf Hsvg Hrun. rewrite profile_builder_run in Hrun by done.
  destruct (profile_items b σ rebars_svg rebar view_plane)
    as [items|] eqn:Hitems; [|done].
  pose proof (emit_all_result σ (fragment rebar) items Hwf eq_refl
                (profile_items_leaves _ _ _ _ _ _ Hitems)) as Hres.
  cbv zeta in Hrun, Hres. injection Hrun as <- <- <-.
  by split.
Qed.

(** X12: on a well-formed drawing, the stirrup builder and the
    U/bent/L-shape builder return the fragment they created, an element
    [g] with the name of the rebar as [id], and they return
    [visibility = true] exactly when this fragment has at least one
    child; the drawing they leave is well-formed again. *)
Theorem profile_visible_iff_drawn b σ rebars_svg rebar view_plane r visible
    σ' :
  wf σ -> rebars_svg < length σ ->
  profile_builder b rebar view_plane rebars_svg σ = Ok ((r, visible), σ') ->
  wf σ'
  /\ exists cs,
       σ' !! r = Some (mkNode "g" [("id", Rebar.Name rebar)] None cs)
       /\ (visible = true <-> cs <> []).
Proof.
  intros Hwf Hsvg Hrun.
  destruct (profile_builder_result _ _ _ _ _ _ _ _ Hwf Hsvg Hrun)
    as (_ & Hwf' & _ & cs & Hr & Hiff).
  split; [done|]. exists cs. split; [|done].
  by rewrite Hr.
Qed.

(** *** The builder of straight rebars *)

Lemma segment_node_leaf rebar p1 p2 : children (segment_node rebar p1 p2) = [].
Proof. unfold segment_node. by destruct (degenerate p1 p2). Qed.

Lemma dimension_nodes_closed p1 p2 t hx hy vx vy base nodes F nd :
  dimension_nodes p1 p2 t hx hy vx vy (base + 2) = Ok nodes ->
  children F = [] -> children nd = [] ->
  closed base (add_children [base + 1; base + 2] F :: nd :: nodes).
Proof.
  intros Hnodes HF Hnd. unfold dimension_nodes in Hnodes.
  destruct (dimension_horizontal p1 p2);
    destruct (py_div _ _) as [quot|]; try done;
    injection Hnodes as <-;
    intros [|[|[|[|[|i]]]]] n Hn; simpl in Hn; try done;
    injection Hn as <-; simpl; rewrite ?HF, ?Hnd; simpl;
    repeat constructor; lia.
Qed.

(** What the straight builder returns on a well-formed drawing. *)
Lemma straight_builder_result σ rebars_svg rebar view_plane hx hy vx vy
    data σ' :
  wf σ -> rebars_svg < length σ ->
  getStraightRebarSVGData rebar view_plane hx hy vx vy rebars_svg σ
    = Ok (data, σ') ->
  svg data = length σ /\ wf σ' /\ length σ < length σ'
  /\ exists cs,
       σ' !! svg data = Some (add_children cs (fragment rebar))
       /\ (visibility data = true <-> cs <> []).
Proof.
  intros Hwf Hsvg Hrun.
  destruct (face_on rebar view_plane) eqn:Hface.
  - destruct (straight_points rebar view_plane) as [[p1 p2]|e] eqn:Hpts.
    2:{ by rewrite (straight_points_raise _ _ _ _ _ _ _ _ _ Hface Hpts)
          in Hrun. }
    rewrite (getStraightRebarSVGData_face_on _ _ _ _ _ _ _ _ _ _ Hface Hpts)
      in Hrun.
    destruct (segment_in _ rebars_svg p1 p2).
    + injection Hrun as <- <-. cbn [svg visibility].
      split; [done|]. split.
      { apply wf_app; [done|].
        intros [|[|i]] n Hn; simpl in Hn; try done; injection Hn as <-;
          simpl; rewrite ?segment_node_leaf; done. }
      split; [rewrite length_app; simpl; lia|].
      exists []. rewrite add_children_nil. split; [|done].
      rewrite lookup_app_r by lia. by rewrite Nat.sub_diag.
    + destruct (dimension_nodes _ _ _ _ _ _ _ _) as [nodes|] eqn:Hnodes;
        [|done].
      injection Hrun as <- <-. cbn [svg visibility].
      split; [done|]. split.
      { apply wf_app; [done|].
        eapply dimension_nodes_closed;
          [exact Hnodes|done|apply segment_node_leaf]. }
      split; [rewrite length_app; simpl; lia|].
      exists [length σ + 1; length σ + 2]. split; [|done].
      rewrite lookup_app_r by lia. by rewrite Nat.sub_diag.
  - rewrite getStraightRebarSVGData_from_side in Hrun by done.
    destruct (straight_side_segments rebar view_plane) as [segments|];
      [|done].
    match type of Hrun with
    | context [emit_all _ _ ?items] =>
        pose proof (emit_all_result σ (fragment rebar) items Hwf eq_refl)
          as Hres
    end.
    cbv zeta in Hrun, Hres. injection Hrun as <- <-. cbn [svg visibility].
    split; [done|]. apply Hres.
    apply Forall_map, Forall_true. intros s. apply segment_node_leaf.
Qed.

(** X13: on a well-formed drawing, the builder of straight rebars returns
    the fragment it created, an element [g] with the name of the rebar as
    [id], and it returns [visibility = true] exactly when this fragment
    has at least one child; the drawing it leaves is well-formed again. *)
Theorem straight_visible_iff_drawn σ rebars_svg rebar view_plane hx hy vx vy
    data σ' :
  wf σ -> rebars_svg < length σ ->
  getStraightRebarSVGData rebar view_plane hx hy vx vy rebars_svg σ
    = Ok (data, σ') ->
  wf σ'
  /\ exists cs,
       σ' !! svg data
         = Some (mkNode "g" [("id", Rebar.Name rebar)] None cs)
       /\ (visibility data = true <-> cs <> []).
Proof.
  intros Hwf Hsvg Hrun.
  destruct (straight_builder_result _ _ _ _ _ _ _ _ _ _ Hwf Hsvg Hrun)
    as (_ & Hwf' & _ & cs & Hr & Hiff).
  split; [done|]. exists cs. split; [|done].
  by rewrite Hr.
Qed.

End Trees.

(** The stirrup of three placements seen from the front, on the drawing
    of the example. *)
Lemma profile_visible_iff_drawn_witness :
  exists r visible σ',
    profile_builder (E := Example.kernel) Stirrup Samples.cage Samples.front
      0%nat Example.accumulated
    = Ok ((r, visible), σ')
    /\ wf σ'
    /\ exists cs,
         σ' !! r
           = Some (mkNode "g" [("id", Rebar.Name Samples.cage)] None cs)
         /\ (visible = true <-> cs <> []).
Proof.
  eexists _, _, _. split; [vm_compute; reflexivity|].
  eapply (profile_visible_iff_drawn (E := Example.kernel) Stirrup
            Example.accumulated 0%nat Samples.cage Samples.front).
  - apply wf_check. reflexivity.
  - simpl. lia.
  - vm_compute. reflexivity.
Defined.

(** The first bar of the example seen from the top, on the drawing that
    holds the empty groups. *)
Lemma straight_visible_iff_drawn_witness :
  exists data σ',
    getStraightRebarSVGData (E := Example.kernel) Example.bar1 Example.top
      250 50 50 (-50) 0%nat Samples.empty_drawing
    = Ok (data, σ')
    /\ wf σ'
    /\ exists cs,
         σ' !! svg data
           = Some (mkNode "g" [("id", Rebar.Name Example.bar1)] None cs)
         /\ (visibility data = true <-> cs <> []).
Proof.
  eexists _, _. split; [vm_compute; reflexivity|].
  eapply (straight_visible_iff_drawn (E := Example.kernel)
            Samples.empty_drawing 0%nat Example.bar1 Example.top
            250 50 50 (-50)).
  - apply wf_check. reflexivity.
  - simpl. lia.
  - vm_compute. reflexivity.
Defined.

(** ** The layout of the drawing *)

Section Layout.
Context `{E : External}.
Local Open Scope nat_scope.

(** From [σ] to [σ']: the drawing is well-formed, its elements other than
    [group] are as they were, and [group] has the new children [cs]. *)
Definition appended (group : ref) (cs : list ref) (σ σ' : Store) : Prop :=
  wf σ' /\ length σ <= length σ'
  /\ (forall i, i < length σ -> i <> group -> σ' !! i = σ !! i)
  /\ exists n, σ !! group = Some n /\ σ' !! group = Some (add_children cs n).

Lemma appended_nil group σ :
  wf σ -> group < length σ -> appended group [] σ σ.
Proof.
  intros Hwf Hg. split; [done|]. split; [done|]. split; [done|].
  destruct (lookup_lt_is_Some_2 σ group Hg) as [n Hn].
  exists n. by rewrite add_children_nil.
Qed.

Lemma add_children_app cs1 cs2 n :
  add_children cs2 (add_children cs1 n) = add_children (cs1 ++ cs2) n.
Proof. unfold add_children. simpl. by rewrite app_assoc. Qed.

Lemma appended_trans group cs1 cs2 σ1 σ2 σ3 :
  group < length σ1 ->
  appended group cs1 σ1 σ2 -> appended group cs2 σ2 σ3 ->
  appended group (cs1 ++ cs2) σ1 σ3.
Proof.
  intros Hg (_ & Hlen1 & Hframe1 & n & Hn1 & Hn2)
    (Hwf & Hlen2 & Hframe2 & n' & Hn2' & Hn3).
  split; [done|]. split; [lia|]. split.
  - intros i Hi Hne. rewrite Hframe2 by lia. by apply Hframe1.
  - exists n. split; [done|].
    rewrite Hn2 in Hn2'. injection Hn2' as <-.
    by rewrite Hn3, add_children_app.
Qed.

(** Allocating elements and appending one of them, or none, to [group]. *)
Lemma appended_new group σ new r (b : bool) :
  wf (σ ++ new) -> group < length σ -> length σ <= r < length (σ ++ new) ->
  appended group (if b then [r] else []) σ
    (if b then alter (add_child r) group (σ ++ new) else σ ++ new).
Proof.
  intros Hwf Hg Hr.
  destruct (lookup_lt_is_Some_2 σ group Hg) as [n Hn].
  destruct b.
  - split; [apply wf_add_child; [done|lia]|].
    rewrite length_alter, length_app. split; [lia|]. split.
    + intros i Hi Hne. rewrite list_lookup_alter_ne by done.
      by rewrite lookup_app_l.
    + exists n. split; [done|].
      rewrite list_lookup_alter_eq, lookup_app_l, Hn by done. done.
  - split; [done|]. rewrite length_app. split; [lia|]. split.
    + intros i Hi Hne. by rewrite lookup_app_l.
    + exists n. split; [done|].
      by rewrite lookup_app_l, Hn, add_children_nil.
Qed.

(** [k] is the number [n], or at most [n]. *)
Definition counted (exact : bool) (n k : nat) : Prop :=
  if exact then k = n else k <= n.

Lemma counted_add exact n1 k1 n2 k2 :
  counted exact n1 k1 -> counted exact n2 k2 ->
  counted exact (n1 + n2) (k1 + k2).
Proof. destruct exact; simpl; lia. Qed.

(** A loop whose turns append to [group] appends to [group]. *)
Lemma for_each_appended {A S} exact group (l : list A)
    (body : A -> S -> M S) :
  (forall a s σ s' σ',
     wf σ -> group < length σ -> body a s σ = Ok (s', σ') ->
     exists cs, appended group cs σ σ' /\ counted exact 1 (length cs)) ->
  forall s σ s' σ',
    wf σ -> group < length σ -> for_each l body s σ = Ok (s', σ') ->
    exists cs,
      appended group cs σ σ' /\ counted exact (length l) (length cs).
Proof.
  intros Hbody. induction l as [|a l IH]; intros s σ s' σ' Hwf Hg Hrun.
  - injection Hrun as _ <-. exists []. split; [by apply appended_nil|].
    destruct exact; simpl; lia.
  - simpl in Hrun. inv_bind Hrun.
    destruct (Hbody _ _ _ _ _ Hwf Hg Hrun0) as (cs1 & Happ1 & Hc1).
    pose proof Happ1 as (Hwf1 & Hlen1 & _).
    destruct (IH _ _ _ _ Hwf1 ltac:(lia) Hrun) as (cs2 & Happ2 & Hc2).
    exists (cs1 ++ cs2). split; [by eapply appended_trans|].
    rewrite length_app. by apply (counted_add exact 1 _ (length l)).
Qed.

Lemma local_profile_builder b k rebar view_plane rebars_svg :
  local k (fun _ => True) (profile_builder b rebar view_plane rebars_svg).
Proof.
  destruct b; [apply local_getStirrupSVGData
              |apply local_getUShapeRebarSVGData].
Qed.

(** The turns of the loops of the assembler. *)
Lemma shape_step_appended b view_plane rebars_svg group rebar σ σ' :
  rebars_svg < length σ ->
  wf σ -> group < length σ ->
  shape_step (profile_builder b) view_plane rebars_svg group rebar tt σ
    = Ok (tt, σ') ->
  exists cs, appended group cs σ σ' /\ counted false 1 (length cs).
Proof.
  intros Hsvg Hwf Hg Hrun. unfold shape_step in Hrun. inv_bind Hrun.
  destruct a as [r visible].
  destruct (profile_builder_result _ _ _ _ _ _ _ _ Hwf Hsvg Hrun0)
    as (-> & Hwf' & Hlen & _).
  pose proof (local_app (fun _ => True) _ _ _ _
                (fun k => local_profile_builder b k _ _ _) Hrun0) as Hnew.
  rewrite Hnew in Hwf', Hlen, Hrun.
  pose proof (appended_new group σ _ (length σ) visible Hwf' Hg
                ltac:(lia)) as Happ.
  exists (if visible then [length σ] else []).
  destruct visible.
  - unfold append, ElementTree.bind, ElementTree.ret in Hrun.
    injection Hrun as <-. split; [done|]. simpl. lia.
  - injection Hrun as <-. split; [done|]. simpl. lia.
Qed.

Lemma straight_step_appended view_plane hx vy rebars_svg group rebar
    offsets σ offsets' σ' :
  rebars_svg < length σ ->
  wf σ -> group < length σ ->
  straight_step view_plane hx vy rebars_svg group rebar offsets σ
    = Ok (offsets', σ') ->
  exists cs, appended group cs σ σ' /\ counted false 1 (length cs).
Proof.
  intros Hsvg Hwf Hg Hrun. unfold straight_step in Hrun. inv_bind Hrun.
  destruct (straight_builder_result _ _ _ _ _ _ _ _ _ _ Hwf Hsvg Hrun0)
    as (Hr & Hwf' & Hlen & _).
  pose proof (local_app (fun _ => True) _ _ _ _
                (fun k => local_getStraightRebarSVGData k _ _ _ _ _ _ _)
                Hrun0) as Hnew.
  rewrite Hnew in Hwf', Hlen, Hrun. rewrite Hr in Hrun.
  pose proof (appended_new group σ _ (length σ) (visibility a) Hwf' Hg
                ltac:(lia)) as Happ.
  exists (if visibility a then [length σ] else []).
  destruct (visibility a).
  - unfold append, ElementTree.bind, ElementTree.ret in Hrun.
    injection Hrun as _ <-. split; [done|]. simpl. lia.
  - injection Hrun as _ <-. split; [done|]. simpl. lia.
Qed.

(** Parsed trees are built parent first. *)
Lemma append_all_wf p (xs : list XML) :
  Forall
    (fun x => forall σ r σ',
       wf σ -> build x σ = Ok (r, σ') ->
       wf σ' /\ r = length σ /\ length σ < length σ') xs ->
  forall σ σ',
    wf σ -> p < length σ ->
    append_all p (map build xs) σ = Ok (tt, σ') ->
    wf σ' /\ length σ <= length σ'.
Proof.
  induction 1 as [|x xs Hx _ IH]; intros σ σ' Hwf Hp Hrun.
  - by injection Hrun as <-.
  - simpl in Hrun. inv_bind Hrun.
    destruct (Hx _ _ _ Hwf Hrun0) as (Hwf1 & -> & Hlen1).
    unfold ElementTree.bind at 1, append at 1 in Hrun.
    destruct (IH _ _ (wf_add_child _ p (length σ) Hwf1 ltac:(lia))
                ltac:(rewrite length_alter; lia) Hrun) as (Hwf2 & Hlen2).
    rewrite length_alter in Hlen2. split; [done|lia].
Qed.

Lemma build_wf x σ r σ' :
  wf σ -> build x σ = Ok (r, σ') ->
  wf σ' /\ r = length σ /\ length σ < length σ'.
Proof.
  revert σ r σ'. induction x as [t a s cs IH] using XML_forall_ind.
  intros σ r σ' Hwf Hrun. simpl in Hrun.
  unfold ElementTree.bind at 1, new_node at 1 in Hrun.
  inv_bind Hrun. injection Hrun as <- <-. destruct a0.
  assert (wf (σ ++ [mkNode t a s []])) as Hwf1.
  { apply wf_app; [done|]. intros [|i] n Hn; simpl in Hn; [|done].
    by injection Hn as <-. }
  destruct (append_all_wf (length σ) cs IH _ _ Hwf1
              ltac:(rewrite length_app; simpl; lia) Hrun0) as (Hwf2 & Hlen).
  rewrite length_app in Hlen. simpl in Hlen. split; [done|]. split; [done|lia].
Qed.

Lemma local_fromstring k s : local k (fun _ => True) (fromstring s).
Proof.
  unfold fromstring. destruct (ElementTree_fromstring s) as [x|].
  - eapply local_weaken; [apply local_build|done].
  - apply local_raise.
Qed.

Lemma exported_step_appended view_plane group rebar σ σ' :
  wf σ -> group < length σ ->
  exported_step view_plane group rebar tt σ = Ok (tt, σ') ->
  exists cs, appended group cs σ σ' /\ counted true 1 (length cs).
Proof.
  intros Hwf Hg Hrun. unfold exported_step in Hrun. inv_bind Hrun.
  pose proof (local_app (fun _ => True) _ _ _ _
                (fun k => local_fromstring k _) Hrun0) as Hnew.
  unfold fromstring in Hrun0.
  destruct (ElementTree_fromstring _) as [x|]; [|done].
  destruct (build_wf _ _ _ _ Hwf Hrun0) as (Hwf' & -> & Hlen).
  rewrite Hnew in Hwf', Hlen, Hrun.
  pose proof (appended_new group σ _ (length σ) true Hwf' Hg ltac:(lia))
    as Happ.
  unfold append, ElementTree.bind, ElementTree.ret in Hrun.
  injection Hrun as <-. by exists [length σ].
Qed.

(** *** The groups of the categories *)

(** [g] is a group with the given [id]; it has [n] children, or at most
    [n]. *)
Definition category (σ : Store) (g : ref) (id : string) (exact : bool)
    (n : nat) : Prop :=
  exists cs,
    σ !! g = Some (mkNode "g" [("id", id)] None cs)
    /\ counted exact n (length cs).

(** The children of [rebars_svg] are groups with the given ids, in this
    order, each with its number of children. *)
Definition layout (σ : Store) (rebars_svg : ref)
    (categories : list (string * bool * nat)) : Prop :=
  exists gs,
    σ !! rebars_svg = Some (mkNode "g" [("id", "Rebars")] None gs)
    /\ Forall2
         (fun g c =>
            rebars_svg < g < length σ /\ category σ g c.1.1 c.1.2 c.2)
         gs categories.

(** A category: its group is appended to [rebars_svg], then the loop over
    its rebars appends to the group. *)
Lemma category_appended {A S} exact id (l : list A)
    (body : ref -> A -> S -> M S) s rebars_svg categories σ g σ1 s' σ2 :
  (forall group a s σ s' σ',
     rebars_svg < group ->
     wf σ -> group < length σ -> body group a s σ = Ok (s', σ') ->
     exists cs, appended group cs σ σ' /\ counted exact 1 (length cs)) ->
  wf σ -> layout σ rebars_svg categories ->
  category_group rebars_svg id σ = Ok (g, σ1) ->
  for_each l (body g) s σ1 = Ok (s', σ2) ->
  wf σ2 /\ layout σ2 rebars_svg (categories ++ [(id, exact, length l)])
  /\ length σ <= length σ2
  /\ forall i, i < length σ -> i <> rebars_svg -> σ2 !! i = σ !! i.
Proof.
  intros Hbody Hwf (gs & Hsvg & Hgs) Hgroup Hloop.
  pose proof (lookup_lt_Some _ _ _ Hsvg) as Hlt.
  unfold category_group, ElementTree.bind, Element, append, ElementTree.ret
    in Hgroup.
  injection Hgroup as <- <-.
  set (N := mkNode "g" [("id", id)] None []) in *.
  set (σ1 := alter (add_child (length σ)) rebars_svg (σ ++ [N])) in *.
  assert (wf σ1) as Hwf1.
  { apply wf_add_child; [|rewrite length_app; simpl; lia].
    apply wf_app; [done|]. intros [|i] n Hn; simpl in Hn; [|done].
    by injection Hn as <-. }
  assert (length σ1 = length σ + 1) as Hlen1.
  { unfold σ1. by rewrite length_alter, length_app. }
  assert (forall i, i < length σ -> i <> rebars_svg -> σ1 !! i = σ !! i)
    as Hold.
  { intros i Hi Hne. unfold σ1.
    by rewrite list_lookup_alter_ne, lookup_app_l by done. }
  destruct (for_each_appended exact (length σ) l (body (length σ))
              (fun a t τ t' τ' => Hbody (length σ) a t τ t' τ' Hlt)
              _ _ _ _ Hwf1 ltac:(lia) Hloop)
    as (cs & (Hwf2 & Hlen2 & Hframe & n & Hn1 & Hn2) & Hcount).
  assert (n = N) as ->.
  { unfold σ1 in Hn1.
    rewrite list_lookup_alter_ne, lookup_app_r, Nat.sub_diag in Hn1 by lia.
    by injection Hn1 as <-. }
  split; [done|]. split; [|split; [lia|]].
  2:{ intros i Hi Hne. rewrite Hframe by lia. by apply Hold. }
  exists (gs ++ [length σ]). split.
  - rewrite Hframe by lia. unfold σ1.
    rewrite list_lookup_alter_eq, lookup_app_l, Hsvg by done. done.
  - apply Forall2_app.
    + eapply Forall2_impl; [exact Hgs|].
      intros g0 c [Hg0 (cs0 & Hnode & Hc0)]. split; [lia|].
      exists cs0. split; [|done].
      rewrite Hframe, Hold by lia. done.
    + constructor; [|done]. split; [lia|].
      exists cs. split; [by rewrite Hn2|done].
Qed.

(** The categories of the drawing, with the number of rebars of each: a
    helical or a custom rebar is always drawn, a rebar of another
    category only when it is visible. *)
Definition categories_of (c : Classified) : list (string * bool * nat) :=
  [("Stirrup", false, length (stirrups c));
   ("BentShapeRebar", false, length (bent_rebars c));
   ("UShapeRebar", false, length (u_rebars c));
   ("LShapeRebar", false, length (l_rebars c));
   ("StraightRebar", false, length (straight_rebars c));
   ("HelicalRebar", true, length (helical_rebars c));
   ("CustomRebar", true, length (custom_rebars c))].

Lemma rebars_pass_layout c view_plane ext drawing σ rebars_svg σ' :
  wf σ -> drawing < length σ ->
  rebars_pass c view_plane ext drawing σ = Ok (rebars_svg, σ') ->
  rebars_svg = length σ
  /\ layout σ' rebars_svg (categories_of c)
  /\ appended drawing [rebars_svg] σ σ'.
Proof.
  intros Hwf Hdrawing Hrun. unfold rebars_pass in Hrun.
  unfold ElementTree.bind at 1, Element at 1 in Hrun.
  unfold ElementTree.bind at 1, append at 1 in Hrun.
  set (svg := length σ) in *.
  set (σ0 := alter _ _ _) in Hrun.
  assert (wf σ0) as Hwf0.
  { apply wf_add_child; [|rewrite length_app; simpl; lia].
    apply wf_app; [done|]. intros [|i] n Hn; simpl in Hn; [|done].
    by injection Hn as <-. }
  assert (layout σ0 svg []) as Hlay0.
  { exists []. split; [|done]. unfold σ0, svg.
    rewrite list_lookup_alter_ne, lookup_app_r, Nat.sub_diag by lia. done. }
  assert (forall b group a (s : unit) τ (s' : unit) τ',
            svg < group -> wf τ -> group < length τ ->
            shape_step (profile_builder b) view_plane svg group a s τ
              = Ok (s', τ') ->
            exists cs, appended group cs τ τ'
                       /\ counted false 1 (length cs)) as Hshape.
  { intros b group a [] τ [] τ' Hs Hτ Hg.
    apply shape_step_appended; [lia|done|done]. }
  assert (forall group a (s : Q * Q) τ (s' : Q * Q) τ',
            svg < group -> wf τ -> group < length τ ->
            straight_step view_plane (Py.add (max_x ext) 50)
              (Py.sub (min_y ext) 50) svg
              group a s τ = Ok (s', τ') ->
            exists cs, appended group cs τ τ'
                       /\ counted false 1 (length cs)) as Hstraight.
  { intros group a s τ s' τ' Hs Hτ Hg.
    apply straight_step_appended; [lia|done|done]. }
  assert (forall group a (s : unit) τ (s' : unit) τ',
            svg < group -> wf τ -> group < length τ ->
            exported_step view_plane group a s τ = Ok (s', τ') ->
            exists cs, appended group cs τ τ'
                       /\ counted true 1 (length cs)) as Hexported.
  { intros group a [] τ [] τ' _ Hτ Hg.
    by apply exported_step_appended. }
  apply bind_Ok in Hrun as (g1 & τ1 & Hg1 & Hrun).
  apply bind_Ok in Hrun as (u1 & ρ1 & Hl1 & Hrun).
  destruct (category_appended false "Stirrup" _
              (fun g => shape_step getStirrupSVGData view_plane svg g)
              _ _ _ _ _ _ _ _ (Hshape Stirrup) Hwf0 Hlay0 Hg1 Hl1)
    as (Hwf1 & Hlay1 & Hlen1 & Hframe1).
  apply bind_Ok in Hrun as (g2 & τ2 & Hg2 & Hrun).
  apply bind_Ok in Hrun as (u2 & ρ2 & Hl2 & Hrun).
  destruct (category_appended false "BentShapeRebar" _
              (fun g => shape_step getUShapeRebarSVGData view_plane svg g)
              _ _ _ _ _ _ _ _ (Hshape UShape) Hwf1 Hlay1 Hg2 Hl2)
    as (Hwf2 & Hlay2 & Hlen2 & Hframe2).
  apply bind_Ok in Hrun as (g3 & τ3 & Hg3 & Hrun).
  apply bind_Ok in Hrun as (u3 & ρ3 & Hl3 & Hrun).
  destruct (category_appended false "UShapeRebar" _
              (fun g => shape_step getUShapeRebarSVGData view_plane svg g)
              _ _ _ _ _ _ _ _ (Hshape UShape) Hwf2 Hlay2 Hg3 Hl3)
    as (Hwf3 & Hlay3 & Hlen3 & Hframe3).
  apply bind_Ok in Hrun as (g4 & τ4 & Hg4 & Hrun).
  apply bind_Ok in Hrun as (u4 & ρ4 & Hl4 & Hrun).
  destruct (category_appended false "LShapeRebar" _
              (fun g => shape_step getUShapeRebarSVGData view_plane svg g)
              _ _ _ _ _ _ _ _ (Hshape UShape) Hwf3 Hlay3 Hg4 Hl4)
    as (Hwf4 & Hlay4 & Hlen4 & Hframe4).
  apply bind_Ok in Hrun as (g5 & τ5 & Hg5 & Hrun).
  apply bind_Ok in Hrun as (u5 & ρ5 & Hl5 & Hrun).
  destruct (category_appended false "StraightRebar" _
              (fun g =>
                 straight_step view_plane (Py.add (max_x ext) 50)
                   (Py.sub (min_y ext) 50)
                   svg g)
              _ _ _ _ _ _ _ _ Hstraight Hwf4 Hlay4 Hg5 Hl5)
    as (Hwf5 & Hlay5 & Hlen5 & Hframe5).
  apply bind_Ok in Hrun as (g6 & τ6 & Hg6 & Hrun).
  apply bind_Ok in Hrun as (u6 & ρ6 & Hl6 & Hrun).
  destruct (category_appended true "HelicalRebar" _
              (fun g => exported_step view_plane g)
              _ _ _ _ _ _ _ _ Hexported Hwf5 Hlay5 Hg6 Hl6)
    as (Hwf6 & Hlay6 & Hlen6 & Hframe6).
  apply bind_Ok in Hrun as (g7 & τ7 & Hg7 & Hrun).
  apply bind_Ok in Hrun as (u7 & ρ7 & Hl7 & Hrun).
  destruct (category_appended true "CustomRebar" _
              (fun g => exported_step view_plane g)
              _ _ _ _ _ _ _ _ Hexported Hwf6 Hlay6 Hg7 Hl7)
    as (Hwf7 & Hlay7 & Hlen7 & Hframe7).
  injection Hrun as <- <-. split; [done|]. split; [done|].
  assert (length σ0 = length σ + 1) as Hlen0
    by (unfold σ0; by rewrite length_alter, length_app).
  assert (forall i, i < length σ0 -> i <> svg -> ρ7 !! i = σ0 !! i)
    as Hframe.
  { intros i Hi Hne.
    rewrite Hframe7, Hframe6, Hframe5, Hframe4, Hframe3, Hframe2, Hframe1
      by (done || lia).
    done. }
  destruct (lookup_lt_is_Some_2 σ drawing Hdrawing) as [n Hn].
  split; [done|]. split; [lia|]. split.
  - intros i Hi Hne. rewrite Hframe by (unfold svg; lia).
    unfold σ0. by rewrite list_lookup_alter_ne, lookup_app_l by done.
  - exists n. split; [done|].
    rewrite Hframe by (unfold svg; lia). unfold σ0.
    by rewrite list_lookup_alter_eq, lookup_app_l, Hn by done.
Qed.

End Layout.

(** ** The drawing as a whole *)

Section WholeDrawing.
Context `{E : External}.
Local Open Scope nat_scope.

(** On a well-formed drawing every element can be read as a tree. *)
Lemma to_xml_wf σ :
  wf σ ->
  forall fuel r,
    r < length σ -> length σ - r <= fuel -> is_Some (to_xml fuel σ r).
Proof.
  intros Hwf. induction fuel as [|fuel IH]; intros r Hr Hfuel; [lia|].
  destruct (lookup_lt_is_Some_2 σ r Hr) as [n Hn].
  simpl. rewrite Hn. simpl.
  assert (is_Some (mapM (to_xml fuel σ) (children n))) as [cs Hcs].
  { apply mapM_is_Some. eapply Forall_impl; [exact (Hwf r n Hn)|].
    intros c Hc. simpl in *. apply IH; lia. }
  rewrite Hcs. by eexists.
Qed.

Lemma layout_frame σ σ' rebars_svg categories :
  layout σ rebars_svg categories ->
  length σ <= length σ' ->
  (forall i, rebars_svg <= i < length σ -> σ' !! i = σ !! i) ->
  layout σ' rebars_svg categories.
Proof.
  intros (gs & Hsvg & Hgs) Hlen Hframe.
  pose proof (lookup_lt_Some _ _ _ Hsvg) as Hlt.
  exists gs. split; [by rewrite Hframe by lia|].
  eapply Forall2_impl; [exact Hgs|].
  intros g c [Hg (cs & Hnode & Hc)]. split; [lia|].
  exists cs. split; [|done]. by rewrite Hframe by lia.
Qed.

(** The attributes the assembler gives to the root and to the group of
    the drawing. *)
Definition root_attrib (ext : Extent) : Attrib :=
  let svg_width :=
    Py.round (Py.add (Py.sub (max_x ext) (min_x ext)) 200) in
  let svg_height :=
    Py.round (Py.add (Py.sub (max_y ext) (min_y ext)) 200) in
  [("width", Py.str_int svg_width +:+ "mm");
   ("height", Py.str_int svg_height +:+ "mm");
   ("viewBox",
    "0 0 " +:+ Py.str_int svg_width +:+ " " +:+ Py.str_int svg_height)].

Definition drawing_attrib (ext : Extent) : Attrib :=
  [("id", "reinforcement_drawing");
   ("transform",
    "translate(" +:+ Py.str_int (Py.round (Py.add (- min_x ext) 60))
    +:+ ", " +:+ Py.str_int (Py.round (Py.add (- min_y ext) 100))
    +:+ ")")].

(** The elements of a drawing whose root is [root]: the root with the
    definitions and the group of the drawing, in it the group of the
    rebars with the groups of the categories, and the structure. *)
Definition drawing_of (σ : Store) (root : ref) (ext : Extent)
    (c : Classified) : Prop :=
  exists structure_svg,
    σ !! root = Some (mkNode "svg" (root_attrib ext) None
                        [root + 1; root + 4])
    /\ σ !! (root + 1) = Some (mkNode "defs" [] None [root + 2; root + 3])
    /\ (exists start_arrow end_arrow,
          σ !! (root + 2) = Some start_arrow
          /\ σ !! (root + 3) = Some end_arrow
          /\ tag start_arrow = "marker" /\ tag end_arrow = "marker"
          /\ children start_arrow = [] /\ children end_arrow = [])
    /\ σ !! (root + 4) = Some (mkNode "g" (drawing_attrib ext) None
                                 [root + 5; structure_svg])
    /\ layout σ (root + 5) (categories_of c)
    /\ root + 5 < structure_svg < length σ.

Lemma assembler_result structure rebars_list view_direction σ root σ' :
  wf σ ->
  getReinforcementDrawingSVG structure rebars_list view_direction σ
    = Ok (root, σ') ->
  exists view_plane ext,
    resolve_view_plane view_direction = Some view_plane
    /\ projected_extent structure rebars_list view_plane = Ok ext
    /\ root = length σ /\ wf σ'
    /\ drawing_of σ' root ext (classify rebars_list).
Proof.
  unfold getReinforcementDrawingSVG. intros Hwf Hrun.
  destruct (resolve_view_plane view_direction) as [view_plane|]; [|done].
  inv_bind Hrun. apply lift_Ok in Hrun0 as [Hext ->].
  rewrite <- (app_nil_r σ) in Hrun.
  unfold getSVGRootElement, getArrowMarkerElement in Hrun.
  repeat (first [ rewrite (bind_run _ _ _ _ _ (Element_app _ _ _ _)) in Hrun
                | rewrite (bind_run _ _ _ _ _ (append_app _ _ _ _)) in Hrun ];
          simpl in Hrun).
  match type of Hrun with _ (σ ++ ?new) = _ => set (prelude := new) in * end.
  assert (wf (σ ++ prelude)) as Hwf5.
  { apply wf_app; [done|].
    intros [|[|[|[|[|i]]]]] n Hn; simpl in Hn; try done;
      injection Hn as <-; simpl; repeat constructor; lia. }
  assert (length (σ ++ prelude) = length σ + 5) as Hlen5
    by (by rewrite length_app).
  assert (length σ + 4 < length (σ ++ prelude)) as Hdrawing by lia.
  inv_bind Hrun.
  destruct (rebars_pass_layout _ _ _ _ _ _ _ Hwf5 Hdrawing Hrun0)
    as (-> & Hlay & Hwf6 & Hlen6 & Hframe6 & d & Hd & Hd').
  rewrite Hlen5 in Hlay, Hd', Hlen6, Hframe6.
  rewrite lookup_app_r in Hd by lia.
  replace (length σ + 4 - length σ) with 4 in Hd by lia.
  simpl in Hd. injection Hd as <-.
  inv_bind Hrun.
  pose proof (local_app (fun _ => True) _ _ _ _
                (fun k => local_fromstring k _) Hrun1) as Hnew.
  unfold fromstring in Hrun1.
  destruct (ElementTree_fromstring _) as [x|]; [|done].
  destruct (build_wf _ _ _ _ Hwf6 Hrun1) as (Hwf7 & -> & Hlen7).
  unfold append, ElementTree.set, ElementTree.bind, ElementTree.ret in Hrun.
  injection Hrun as <- <-.
  exists view_plane, a. split; [done|]. split; [done|].
  split; [lia|]. split.
  { repeat apply wf_set_attrib. apply wf_add_child; [done|lia]. }
  rewrite Nat.add_0_r.
  assert (forall i, i < length σ + 5 -> i <> length σ + 4 ->
            σ1 !! i = (σ ++ prelude) !! i) as Hold.
  { intros i Hi Hne. rewrite Hnew, lookup_app_l by lia.
    apply Hframe6; lia. }
  exists (length σ0). split; [|split; [|split; [|split; [|split]]]].
  - rewrite !list_lookup_alter_eq.
    rewrite !(list_lookup_alter_ne _ _ (length σ + 4) (length σ)) by lia.
    rewrite Hold, lookup_app_r, Nat.sub_diag by lia. reflexivity.
  - rewrite !list_lookup_alter_ne by lia.
    rewrite Hold, lookup_app_r by lia.
    by replace (length σ + 1 - length σ) with 1 by lia.
  - eexists _, _.
    rewrite !list_lookup_alter_ne by lia.
    rewrite !Hold, !lookup_app_r by lia.
    replace (length σ + 2 - length σ) with 2 by lia.
    replace (length σ + 3 - length σ) with 3 by lia.
    by repeat split.
  - rewrite !(list_lookup_alter_ne _ _ (length σ) (length σ + 4)) by lia.
    rewrite !list_lookup_alter_eq.
    rewrite Hnew, lookup_app_l, Hd' by lia. reflexivity.
  - eapply layout_frame; [exact Hlay| |].
    + rewrite !length_alter. lia.
    + intros i Hi. rewrite !list_lookup_alter_ne by lia.
      rewrite Hnew. by rewrite lookup_app_l by lia.
  - rewrite !length_alter.
    destruct Hlay as (gs & Hsvg%lookup_lt_Some & _). lia.
Qed.

(** X14: when the assembler returns, the drawing has a fixed layout: the
    root [svg], with its three attributes, has two children, the
    definitions with the two arrow markers and the group
    [reinforcement_drawing]; this group has two children, the group
    [Rebars] and the structure; and the children of [Rebars] are the seven
    groups of the categories, in the order Stirrup, BentShapeRebar,
    UShapeRebar, LShapeRebar, StraightRebar, HelicalRebar, CustomRebar,
    whatever the rebars are.  The groups of the helical and of the custom
    rebars have one child for each rebar of the category; the five others
    have at most one child for each rebar of theirs. *)
Theorem drawing_layout structure rebars_list view_direction root σ' :
  getReinforcementDrawingSVG structure rebars_list view_direction []
    = Ok (root, σ') ->
  exists view_plane ext,
    resolve_view_plane view_direction = Some view_plane
    /\ projected_extent structure rebars_list view_plane = Ok ext
    /\ drawing_of σ' root ext (classify rebars_list).
Proof.
  intros Hrun.
  assert (wf []) as Hwf by (by intros r n Hr).
  destruct (assembler_result _ _ _ _ _ _ Hwf Hrun)
    as (view_plane & ext & Hview & Hext & _ & _ & Hdrawing).
  by exists view_plane, ext.
Qed.

(** X15: when the assembler returns, every element of the drawing has
    its children among the elements created after it: no element is its
    own descendant, and the drawing can be read from the root as a finite
    tree. *)
Theorem drawing_is_well_formed structure rebars_list view_direction root σ' :
  getReinforcementDrawingSVG structure rebars_list view_direction []
    = Ok (root, σ') ->
  wf σ' /\ root < length σ'
  /\ is_Some (to_xml (length σ') σ' root).
Proof.
  intros Hrun.
  assert (wf []) as Hwf by (by intros r n Hr).
  destruct (assembler_result _ _ _ _ _ _ Hwf Hrun)
    as (view_plane & ext & _ & _ & -> & Hwf' & s & Hroot & _).
  pose proof (lookup_lt_Some _ _ _ Hroot) as Hlt.
  split; [done|]. split; [done|].
  apply to_xml_wf; [done|done|lia].
Qed.

End WholeDrawing.

(** The drawing of the slab of the example with its two bars, seen from
    the top. *)
Lemma drawing_layout_witness :
  exists root σ',
    getReinforcementDrawingSVG (E := Example.kernel) Example.slab
      [Example.bar1; Example.bar2] (DirectionPlane Example.top) []
    = Ok (root, σ')
    /\ exists view_plane ext,
         resolve_view_plane (E := Example.kernel)
           (DirectionPlane Example.top) = Some view_plane
         /\ projected_extent (E := Example.kernel) Example.slab
              [Example.bar1; Example.bar2] view_plane = Ok ext
         /\ drawing_of σ' root ext
              (classify [Example.bar1; Example.bar2]).
Proof.
  eexists _, _. split; [vm_compute; reflexivity|].
  eapply (drawing_layout (E := Example.kernel) Example.slab
            [Example.bar1; Example.bar2] (DirectionPlane Example.top)).
  vm_compute. reflexivity.
Defined.

Lemma drawing_is_well_formed_witness :
  exists root σ',
    getReinforcementDrawingSVG (E := Example.kernel) Example.slab
      [Example.stirrup; Example.bar1; Example.bar2]
      (DirectionPlane Example.top) []
    = Ok (root, σ')
    /\ wf σ' /\ (root < length σ')%nat
    /\ is_Some (to_xml (length σ') σ' root).
Proof.
  eexists _, _. split; [vm_compute; reflexivity|].
  eapply (drawing_is_well_formed (E := Example.kernel) Example.slab
            [Example.stirrup; Example.bar1; Example.bar2]
            (DirectionPlane Example.top)).
  vm_compute. reflexivity.
Defined.

(** ** The frame of the document *)

Section Frame.
Context `{E : External}.
Local Open Scope nat_scope.

(** C7, as the code has it: when the assembler returns, the extent is the
    least box around the projections of the four corners of the bounding
    box that the view selects; the root element has the width
    [round(max_x - min_x + 200)] and the height
    [round(max_y - min_y + 200)] with the suffix mm, where the difference
    and the sum are floats, each rounded to the nearest double before
    [round] is applied; the view box is [0 0 width height] with the same
    numbers; and the child of the root with id [reinforcement_drawing]
    carries the transform
    [translate(round(-min_x + 60), round(-min_y + 100))], the sums being
    floats as well. *)
Theorem drawing_frame structure rebars_list view_direction σ root σ' :
  getReinforcementDrawingSVG structure rebars_list view_direction σ
    = Ok (root, σ') ->
  let bounding_box :=
    Compound_BoundBox
      (map Rebar.Shape rebars_list ++ [Structure.Shape structure]) in
  exists view_plane ext root_node drawing drawing_node,
    resolve_view_plane view_direction = Some view_plane
    /\ extent_of
         (map (fun pt =>
                 getProjectionToSVGPlane (BoundBox_getPoint bounding_box pt)
                   view_plane)
            (bounding_box_points view_plane)) ext
    /\ σ' !! root = Some root_node
    /\ tag root_node = "svg"
    /\ attr_get "width" (attrib root_node)
       = Some (Py.str_int
                 (Py.round (Py.add (Py.sub (max_x ext) (min_x ext)) 200))
               +:+ "mm")
    /\ attr_get "height" (attrib root_node)
       = Some (Py.str_int
                 (Py.round (Py.add (Py.sub (max_y ext) (min_y ext)) 200))
               +:+ "mm")
    /\ attr_get "viewBox" (attrib root_node)
       = Some ("0 0 "
               +:+ Py.str_int
                     (Py.round (Py.add (Py.sub (max_x ext) (min_x ext)) 200))
               +:+ " "
               +:+ Py.str_int
                     (Py.round
                        (Py.add (Py.sub (max_y ext) (min_y ext)) 200)))
    /\ In drawing (children root_node)
    /\ σ' !! drawing = Some drawing_node
    /\ attr_get "id" (attrib drawing_node) = Some "reinforcement_drawing"
    /\ attr_get "transform" (attrib drawing_node)
       = Some ("translate("
               +:+ Py.str_int (Py.round (Py.add (- min_x ext) 60)) +:+ ", "
               +:+ Py.str_int (Py.round (Py.add (- min_y ext) 100))
               +:+ ")").
Proof.
  intros Hrun bounding_box. unfold getReinforcementDrawingSVG in Hrun.
  destruct (resolve_view_plane view_direction) as [view_plane|]; [|done].
  inv_bind Hrun. apply lift_Ok in Hrun0 as [Hext ->].
  destruct (projected_extent_least_box structure rebars_list view_plane)
    as (ext & Hext' & _ & Hbox).
  rewrite Hext in Hext'. injection Hext' as ->.
  rewrite <- (app_nil_r σ) in Hrun.
  unfold getSVGRootElement, getArrowMarkerElement in Hrun.
  repeat (first [ rewrite (bind_run _ _ _ _ _ (Element_app _ _ _ _)) in Hrun
                | rewrite (bind_run _ _ _ _ _ (append_app _ _ _ _)) in Hrun ];
          simpl in Hrun).
  match type of Hrun with _ ?s = _ => set (σ5 := s) in * end.
  inv_bind Hrun. apply mono_rebars_pass in Hrun0 as Hg1.
  inv_bind Hrun. apply mono_fromstring in Hrun1 as Hg2.
  pose proof (grows_trans _ _ _ Hg1 Hg2) as Hg. clear Hg1 Hg2.
  unfold append, ElementTree.set, ElementTree.bind, ElementTree.ret in Hrun.
  injection Hrun as <- <-.
  assert (Hroot : σ5 !! (length σ + 0) = Some
    (mkNode "svg" [] None [length σ + 1; length σ + 4])).
  { unfold σ5. by rewrite lookup_app_r, Nat.add_0_r, Nat.sub_diag by lia. }
  assert (Hdraw : σ5 !! (length σ + 4) = Some
    (mkNode "g" [("id", "reinforcement_drawing")] None [])).
  { unfold σ5. rewrite lookup_app_r by lia.
    by replace (length σ + 4 - length σ) with 4 by lia. }
  destruct (Hg _ _ Hroot) as (rn & Hrn & Htag & Hatt & _ & Hch).
  destruct (Hg _ _ Hdraw) as (dn & Hdn & _ & Hdatt & _ & _).
  simpl in Htag, Hatt, Hch, Hdatt.
  exists view_plane, ext. eexists _, (length σ + 4), _.
  split; [done|]. split; [exact Hbox|].
  rewrite !list_lookup_alter_eq.
  rewrite !(list_lookup_alter_ne _ _ (length σ + 4) (length σ + 0)) by lia.
  rewrite !(list_lookup_alter_ne _ _ (length σ + 0) (length σ + 4)) by lia.
  rewrite !list_lookup_alter_eq.
  rewrite Hrn, Hdn. cbn [fmap option_fmap option_map].
  split; [reflexivity|]. cbn [tag attrib children set_attrib].
  rewrite Hatt, Htag. cbn [attr_set attr_get String.eqb Ascii.eqb Bool.eqb].
  do 4 (split; [done|]).
  split; [destruct Hch as [k ->]; simpl; auto|].
  split; [reflexivity|]. cbn [tag attrib children set_attrib add_child].
  rewrite Hdatt. done.
Qed.

End Frame.

(** The frame of the drawing of [Example.slab] with its two bars, from the
    top. *)
Lemma drawing_frame_witness :
  exists root σ',
    getReinforcementDrawingSVG (E := Example.kernel) Example.slab
      [Example.bar1; Example.bar2] (DirectionPlane Example.top) []
      = Ok (root, σ')
    /\ let bounding_box :=
         Compound_BoundBox (External := Example.kernel)
           (map Rebar.Shape [Example.bar1; Example.bar2]
            ++ [Structure.Shape Example.slab]) in
       exists view_plane ext root_node drawing drawing_node,
         resolve_view_plane (E := Example.kernel)
           (DirectionPlane Example.top) = Some view_plane
         /\ extent_of
              (map (fun pt =>
                      getProjectionToSVGPlane (E := Example.kernel)
                        (BoundBox_getPoint (External := Example.kernel)
                           bounding_box pt)
                        view_plane)
                 (bounding_box_points view_plane)) ext
         /\ σ' !! root = Some root_node
         /\ tag root_node = "svg"
         /\ attr_get "width" (attrib root_node)
            = Some (Py.str_int
                      (Py.round
                         (Py.add (Py.sub (max_x ext) (min_x ext)) 200))
                    +:+ "mm")
         /\ attr_get "height" (attrib root_node)
            = Some (Py.str_int
                      (Py.round
                         (Py.add (Py.sub (max_y ext) (min_y ext)) 200))
                    +:+ "mm")
         /\ attr_get "viewBox" (attrib root_node)
            = Some ("0 0 "
                    +:+ Py.str_int
                          (Py.round
                             (Py.add (Py.sub (max_x ext) (min_x ext)) 200))
                    +:+ " "
                    +:+ Py.str_int
                          (Py.round
                             (Py.add (Py.sub (max_y ext) (min_y ext)) 200)))
         /\ In drawing (children root_node)
         /\ σ' !! drawing = Some drawing_node
         /\ attr_get "id" (attrib drawing_node)
            = Some "reinforcement_drawing"
         /\ attr_get "transform" (attrib drawing_node)
            = Some ("translate("
                    +:+ Py.str_int (Py.round (Py.add (- min_x ext) 60))
                    +:+ ", "
                    +:+ Py.str_int (Py.round (Py.add (- min_y ext) 100))
                    +:+ ")").
Proof.
  eexists _, _. split.
  - vm_compute. reflexivity.
  - eapply (drawing_frame (E := Example.kernel) _ _ _ []).
    vm_compute. reflexivity.
Defined.

(** C7, as stated, fails where the sums are not doubles.  For a structure
    that reaches from x = -(1/2 + 2 ** -53) to x = 0, the side of the
    extent plus 200 rounds to 201 and [-min_x + 60] rounds to 61; in
    floats both sums lose the last bit before [round], which then takes
    the ties 200.5 and 60.5 to the even 200 and 60. *)
Lemma frame_rounds_float_sums :
  let structure :=
    Structure.mk "sliver"
      (Shape.mk
         [Example.wire
            [Vec (- ((1 # 2) + (1 # 9007199254740992))) 0 0;
             Vec 0 (-1) 0]]) in
  match projected_extent (E := Example.kernel) structure [] Example.top,
        getReinforcementDrawingSVG (E := Example.kernel) structure []
          (DirectionPlane Example.top) [] with
  | Ok ext, Ok (root, σ) =>
      Py.round (max_x ext - min_x ext + 200) = 201
      /\ Py.round (- min_x ext + 60) = 61
      /\ (attrib <$> σ !! root)
         = Some [("width", "200mm"); ("height", "201mm");
                 ("viewBox", "0 0 200 201")]
      /\ (attrib <$> σ !! 4%nat)
         = Some [("id", "reinforcement_drawing");
                 ("transform", "translate(60, 100)")]
  | _, _ => False
  end.
Proof. vm_compute. repeat split; reflexivity. Qed.

(** ** Straight edges that project on one point *)

Section DegenerateEdges.
Context `{E : External}.
Local Open Scope nat_scope.


End DegenerateEdges.



(** ** Two straight rebars with the same segments *)

(** A rebar of three placements and its twin, seen from the front, in a
    drawing whose group of stirrups already holds the line of the first
    placement: the second placement is new, so the first rebar is
    visible, and the twin is hidden. *)
Lemma identical_straight_rebars_witness :
  exists offsets' σ',
    let σ := [mkNode "g" [("id", "Rebars")] None [1%nat; 3%nat];
              mkNode "g" [("id", "Stirrup")] None [2%nat];
              mkNode "line"
                [("x1", "0"); ("y1", "0"); ("x2", "100"); ("y2", "0");
                 ("style", "stroke:#000000")] None [];
              mkNode "g" [("id", "StraightRebar")] None []] in
    let twin :=
      Samples.repeated "twin" "StraightRebar" [Vec 0 0 0; Vec 100 0 0] in
    let segments :=
      [(Vec 0 0 0, Vec 100 0 0); (Vec 0 20 0, Vec 100 20 0);
       (Vec 0 20 0, Vec 100 20 0)] in
    let step :=
      straight_step (E := Example.kernel) Samples.front 250 (-50) 0%nat
        3%nat in
    for_each [Samples.mat] step (50%Q, 50%Q) σ = Ok (offsets', σ')
    /\ segment_in σ 0%nat (Vec 0 0 0) (Vec 100 0 0)
       = true
    /\ (exists data σ1 g,
          getStraightRebarSVGData (E := Example.kernel) Samples.mat
            Samples.front 250 50 50 (-50) 0%nat σ = Ok (data, σ1)
          /\ visibility data = true
          /\ σ' !! 3%nat = Some g /\ In (svg data) (children g))
    /\ let hidden :=
         σ' ++ fragment twin
               :: map (fun s => segment_node (E := Example.kernel)
                                  twin s.1 s.2) segments in
       getStraightRebarSVGData (E := Example.kernel) twin Samples.front 250
         offsets'.1 offsets'.2 (-50) 0%nat σ'
       = Ok (mkStraightData (length σ') false offsets'.1 offsets'.2, hidden)
       /\ for_each [Samples.mat; twin] step (50%Q, 50%Q) σ
          = Ok (offsets', hidden).
Proof.
  eexists _, _. cbv zeta. split; [vm_compute; reflexivity|].
  split; [vm_compute; reflexivity|].
  eapply (identical_straight_rebars (E := Example.kernel) Samples.front
            250 (-50) 0%nat 3%nat Samples.mat []
            (Samples.repeated "twin" "StraightRebar"
               [Vec 0 0 0; Vec 100 0 0])
            [(Vec 0 0 0, Vec 100 0 0); (Vec 0 20 0, Vec 100 20 0);
             (Vec 0 20 0, Vec 100 20 0)]
            (50%Q, 50%Q)
            [mkNode "g" [("id", "Rebars")] None [1%nat; 3%nat];
             mkNode "g" [("id", "Stirrup")] None [2%nat];
             mkNode "line"
               [("x1", "0"); ("y1", "0"); ("x2", "100"); ("y2", "0");
                ("style", "stroke:#000000")] None [];
             mkNode "g" [("id", "StraightRebar")] None []]).
  - apply wf_check. reflexivity.
  - simpl. lia.
  - simpl. lia.
  - right. simpl. right. right. by left.
  - vm_compute. reflexivity.
  - vm_compute. reflexivity.
  - apply Exists_cons_tl, Exists_cons_hd. vm_compute. reflexivity.
  - vm_compute. reflexivity.
Defined.

(** C3, as stated, fails in two ways.  When the segment of the pair is in
    the accumulated SVG already, the first rebar of the pair is hidden
    too: of three bars that project on the same segment the straight
    builder, called for the second on the drawing of the first, returns
    [visibility = false], and in the drawing of the three the group of the
    straight rebars holds the fragment of the first bar only.  And when
    the loop does not return, nothing is visible: two bars along the view
    axis project on one point each, and the drawing of the first raises
    [ZeroDivisionError] in its dimension line. *)
Lemma first_identical_rebar_hidden :
  (let bar0 :=
     Example.rebar "bar0" "StraightRebar" [Vec 0 0 10; Vec 100 0 10] in
   straight_segments (E := Example.kernel) Example.bar1 Example.top
     = straight_segments (E := Example.kernel) Example.bar2 Example.top
   /\ straight_segments (E := Example.kernel) Example.bar1 Example.top
      = Ok [(Vec 0 0 0, Vec 100 0 0)]
   /\ match getReinforcementDrawingSVG (E := Example.kernel) Example.slab
              [bar0] (DirectionPlane Example.top) [] with
      | Ok (root, σ) =>
          find_in σ root "g" [("id", "Rebars")] = Some 5%nat
          /\ match getStraightRebarSVGData (E := Example.kernel)
                     Example.bar1 Example.top 250 50 50 (-50) 5%nat σ with
             | Ok (data, _) => visibility data = false
             | Raise _ => False
             end
      | Raise _ => False
      end
   /\ match getReinforcementDrawingSVG (E := Example.kernel) Example.slab
              [bar0; Example.bar1; Example.bar2]
              (DirectionPlane Example.top) [] with
      | Ok (root, σ) =>
          (find_in σ root "g" [("id", "StraightRebar")]
             ≫= to_xml (length σ) σ)
          = Some
              (XElem "g" [("id", "StraightRebar")] None
                 [XElem "g" [("id", "bar0")] None
                    [XElem "line"
                       [("x1", "0"); ("y1", "0"); ("x2", "100");
                        ("y2", "0"); ("style", "stroke:#000000")]
                       None [];
                     XElem "g" [] None
                       [XElem "path"
                          [("d", "M50.0 0.0 V-350.0");
                           ("marker-start", "url(#start_arrow)");
                           ("style", "stroke:#000000")]
                          None [];
                        XElem "text"
                          [("x", "50.0"); ("y", "-350.0");
                           ("font-family", "DejaVu Sans");
                           ("font-size", "10px");
                           ("text-anchor", "middle");
                           ("dominant-baseline", "baseline")]
                          (Some "4⌀8.0 mm") []]]])
      | Raise _ => False
      end)
  /\ (let pin1 :=
        Example.rebar "pin1" "StraightRebar" [Vec 0 0 0; Vec 0 0 100] in
      let pin2 :=
        Example.rebar "pin2" "StraightRebar" [Vec 0 0 0; Vec 0 0 100] in
      straight_segments (E := Example.kernel) pin1 Example.top
        = straight_segments (E := Example.kernel) pin2 Example.top
      /\ straight_segments (E := Example.kernel) pin1 Example.top
         = Ok [(Vec 0 0 0, Vec 0 0 0)]
      /\ getReinforcementDrawingSVG (E := Example.kernel) Example.slab
           [pin1; pin2] (DirectionPlane Example.top) []
         = Raise Py.ZeroDivisionError).
Proof. vm_compute. repeat split; reflexivity. Qed.
